(** * Reservation workflow and list helpers of the restaurant back end

    Shallow embedding of
    - [src/routes/customerRoutes.js], lines 747-1550: the [/api/datban]
      router ([validateReservationData], [checkDuplicateReservation] and the
      route handlers);
    - [src/server.js], lines 36-204: the [dat_ban] table and [executeQuery];
    - [src/models/CustomerModel.js], lines 1117-1195: [buildPagination],
      [sanitizeSearchQuery], [buildWhereClause];
    - [src/unnamed/part_005], lines 11-67: [FoodController.getAllFoods];
    - [src/unnamed/part_006], lines 174-180: [parsePaginationParams].

    JavaScript strings are sequences of UTF-16 code units, numbers are the
    exact rational value of the double (or NaN or an infinity), the data base
    is a list of rows together with its AUTO_INCREMENT counter.  Arithmetic
    is exact and [Js.fl] rounds to a double; [buildPagination] rounds each
    of its quotients and sums.  The conflict detector and the two handlers
    that call it are given twice: comparing phone, date and time as texts,
    and comparing them as the storage does, by the keys of the columns
    ([checkDuplicateReservation_on], [post_datban_on], [put_datban_on]). *)

From Stdlib Require Import ZArith QArith Qround Qpower Lia Lqa List String
  Ascii Bool.
From Stdlib Require Qcanon.
Import ListNotations.

Close Scope Q_scope.
Local Open Scope Z_scope.

(* ------------------------------------------------------------------ *)
(** ** JavaScript values *)

Module Js.

(** A string is the list of its UTF-16 code units. *)
Definition char := N.
Definition jsstring := list char.
Bind Scope N_scope with char.

Local Open Scope N_scope.

(** ASCII literal of the source as a JavaScript string. *)
Definition lit (s : string) : jsstring :=
  List.map N_of_ascii (list_ascii_of_string s).

Definition char_in (lo hi c : char) : bool := (N.leb lo c && N.leb c hi)%bool.

Fixpoint str_eqb (a b : jsstring) : bool :=
  match a, b with
  | [], [] => true
  | x :: a', y :: b' => (N.eqb x y && str_eqb a' b')%bool
  | _, _ => false
  end.

(** White space and line terminators: the class [\s] of regular expressions
    and the characters removed by [String.prototype.trim]. *)
Definition is_space (c : char) : bool :=
  (char_in 9 13 c || N.eqb c 32 || N.eqb c 160 || N.eqb c 5760
   || char_in 8192 8202 c || N.eqb c 8232 || N.eqb c 8233
   || N.eqb c 8239 || N.eqb c 8287 || N.eqb c 12288 || N.eqb c 65279)%bool.

Fixpoint trimStart (s : jsstring) : jsstring :=
  match s with
  | c :: s' => if is_space c then trimStart s' else s
  | [] => []
  end.

Definition trimEnd (s : jsstring) : jsstring := rev (trimStart (rev s)).

Definition trim (s : jsstring) : jsstring := trimEnd (trimStart s).

(** [s.replace(/[...]/g, '')] for a character class [cls]. *)
Definition remove_class (cls : char -> bool) (s : jsstring) : jsstring :=
  List.filter (fun c => negb (cls c)) s.

(** [s.replace(/[...]/g, '\\$&')]: every character of the class is
    preceded by one backslash (code unit 92). *)
Fixpoint escape_class (cls : char -> bool) (s : jsstring) : jsstring :=
  match s with
  | [] => []
  | c :: s' =>
      if cls c then 92%N :: c :: escape_class cls s'
      else c :: escape_class cls s'
  end.

(** [s.substring(0, n)]. *)
Definition substring0 (n : nat) (s : jsstring) : jsstring := firstn n s.

(** [s.split(sep)] for a one-character separator: never the empty array. *)
Fixpoint split_aux (sep : char) (cur : jsstring) (s : jsstring)
  : list jsstring :=
  match s with
  | [] => [rev cur]
  | c :: s' =>
      if N.eqb c sep then rev cur :: split_aux sep [] s'
      else split_aux sep (c :: cur) s'
  end.

Definition split (sep : char) (s : jsstring) : list jsstring :=
  split_aux sep [] s.

Local Close Scope N_scope.

(** Numbers: the exact value of a finite double, NaN, or an infinity.
    Finite values are kept reduced, so that equal numbers are equal terms. *)
Inductive number := NaN | NInf | Fin (q : Q) | PInf.

Definition int (z : Z) : number := Fin (inject_Z z).

Definition lt (a b : number) : bool :=
  match a, b with
  | NaN, _ | _, NaN => false
  | NInf, NInf => false
  | NInf, _ => true
  | _, NInf => false
  | PInf, _ => false
  | _, PInf => true
  | Fin x, Fin y => match Qcompare x y with Lt => true | _ => false end
  end.

Definition gt (a b : number) : bool := lt b a.

(** Strict equality [===] of two numbers. *)
Definition eqn (a b : number) : bool :=
  match a, b with
  | NInf, NInf | PInf, PInf => true
  | Fin x, Fin y => Qeq_bool x y
  | _, _ => false
  end.

Definition le (a b : number) : bool := (lt a b || eqn a b)%bool.

Definition isNaN (a : number) : bool :=
  match a with NaN => true | _ => false end.

(** ToBoolean of a number: NaN and zero are falsy. *)
Definition truthy (a : number) : bool :=
  match a with
  | NaN => false
  | Fin x => negb (Qeq_bool x 0%Q)
  | _ => true
  end.

(** [a || b] on numbers. *)
Definition or_else (a b : number) : number := if truthy a then a else b.

Definition add (a b : number) : number :=
  match a, b with
  | NaN, _ | _, NaN => NaN
  | PInf, NInf | NInf, PInf => NaN
  | PInf, _ | _, PInf => PInf
  | NInf, _ | _, NInf => NInf
  | Fin x, Fin y => Fin (Qred (x + y)%Q)
  end.

Definition neg (a : number) : number :=
  match a with
  | NaN => NaN | NInf => PInf | PInf => NInf
  | Fin x => Fin (Qred (- x)%Q)
  end.

Definition sub (a b : number) : number := add a (neg b).

Definition sign_of (x : Q) : comparison := Qcompare x 0%Q.

Definition mul (a b : number) : number :=
  match a, b with
  | NaN, _ | _, NaN => NaN
  | Fin x, Fin y => Fin (Qred (x * y)%Q)
  | Fin x, PInf | PInf, Fin x =>
      match sign_of x with Eq => NaN | Lt => NInf | Gt => PInf end
  | Fin x, NInf | NInf, Fin x =>
      match sign_of x with Eq => NaN | Lt => PInf | Gt => NInf end
  | PInf, PInf | NInf, NInf => PInf
  | PInf, NInf | NInf, PInf => NInf
  end.

Definition div (a b : number) : number :=
  match a, b with
  | NaN, _ | _, NaN => NaN
  | Fin x, Fin y =>
      match sign_of y with
      | Eq => match sign_of x with Eq => NaN | Lt => NInf | Gt => PInf end
      | _ => Fin (Qred (x / y)%Q)
      end
  | Fin _, _ => Fin 0%Q
  | PInf, Fin y => match sign_of y with Lt => NInf | _ => PInf end
  | NInf, Fin y => match sign_of y with Lt => PInf | _ => NInf end
  | _, _ => NaN
  end.

Definition floor (a : number) : number :=
  match a with Fin x => int (Qfloor x) | _ => a end.

Definition ceil (a : number) : number :=
  match a with Fin x => int (Qceiling x) | _ => a end.

(** *** Rounding to a double

    The operations above give the exact result.  [fl] rounds a number to
    the nearest double, ties to the even significand: a positive [q] lies
    in the binade [2^e <= q < 2^(e+1)], the doubles of that binade (and, for
    [e < -1022], the subnormal ones) are the multiples of [2^(e-52)], and a
    result of [2^1024] or more is Infinity.  An arithmetic operation of the
    source is the exact operation followed by [fl]. *)
Definition pow2 (e : Z) : Q := Qpower 2 e.

(** The [e] with [2^e <= q < 2^(e+1)], for a positive [q]. *)
Definition binade (q : Q) : Z :=
  let e0 := Z.log2 (Qnum q) - Z.log2 (Zpos (Qden q)) in
  if Qle_bool (pow2 e0) q then e0 else e0 - 1.

Definition round_half_even (m : Q) : Z :=
  let f := Qfloor m in
  match Qcompare (m - inject_Z f)%Q (1 # 2)%Q with
  | Lt => f
  | Gt => f + 1
  | Eq => if Z.even f then f else f + 1
  end.

Definition to_double_pos (q : Q) : number :=
  let e := Z.max (binade q) (-1022) in
  let ulp := pow2 (e - 52) in
  let r := Qred (inject_Z (round_half_even (q / ulp)%Q) * ulp)%Q in
  if Qle_bool (pow2 1024) r then PInf else Fin r.

Definition to_double (q : Q) : number :=
  match Qcompare q 0%Q with
  | Eq => Fin 0%Q
  | Gt => to_double_pos q
  | Lt => neg (to_double_pos (- q)%Q)
  end.

Definition fl (a : number) : number :=
  match a with Fin q => to_double q | _ => a end.

(** [Math.min(a, b)] and [Math.max(a, b)]: NaN if either is NaN. *)
Definition min (a b : number) : number :=
  match a, b with
  | NaN, _ | _, NaN => NaN
  | _, _ => if lt b a then b else a
  end.

Definition max (a b : number) : number :=
  match a, b with
  | NaN, _ | _, NaN => NaN
  | _, _ => if lt a b then b else a
  end.

(** [parseInt(s)] without a radix: leading white space, an optional sign,
    an optional [0x] prefix, then the longest run of digits; NaN when the
    run is empty.  The value is the integer that the digits write.  Up to
    2^53 in magnitude that integer is the double that [parseInt] returns;
    above, [parseInt] returns a rounded value or an infinity, and what is
    proved of such readings says so. *)
Definition digit_val (radix : Z) (c : char) : option Z :=
  let v :=
    if char_in 48%N 57%N c then Some (Z.of_N c - 48)
    else if char_in 97%N 122%N c then Some (Z.of_N c - 87)
    else if char_in 65%N 90%N c then Some (Z.of_N c - 55)
    else None in
  match v with
  | Some d => if d <? radix then Some d else None
  | None => None
  end.

Fixpoint digits_prefix (radix : Z) (acc : option Z) (s : jsstring)
  : option Z :=
  match s with
  | [] => acc
  | c :: s' =>
      match digit_val radix c with
      | Some d =>
          digits_prefix radix
            (Some (radix * match acc with Some a => a | None => 0 end + d))
            s'
      | None => acc
      end
  end.

Definition parse_unsigned (s : jsstring) : option Z :=
  match s with
  | 48%N :: x :: s' =>
      if (N.eqb x 120%N || N.eqb x 88%N)%bool then digits_prefix 16 None s'
      else digits_prefix 10 None s
  | _ => digits_prefix 10 None s
  end.

(** The integer read by [parseInt], [None] for NaN. *)
Definition parseInt_Z (s : jsstring) : option Z :=
  let s := trimStart s in
  let '(sign, body) :=
    match s with
    | 45%N :: s' => (-1, s')
    | 43%N :: s' => (1, s')
    | _ => (1, s)
    end in
  match parse_unsigned body with
  | Some v => Some (sign * v)
  | None => None
  end.

Definition of_option (x : option Z) : number :=
  match x with Some z => int z | None => NaN end.

Definition parseInt (s : jsstring) : number := of_option (parseInt_Z s).

(** [parseInt(x)] for a value that may be [undefined]: the string
    "undefined" has no leading digit. *)
Definition parseInt_opt (x : option jsstring) : number :=
  match x with Some s => parseInt s | None => NaN end.

(** ToBoolean of a string that may be [undefined] or [null]: only a
    non-empty string is truthy. *)
Definition present (x : option jsstring) : bool :=
  match x with Some (_ :: _) => true | _ => false end.

End Js.

(* ------------------------------------------------------------------ *)
(** ** Pagination: [buildPagination] of utils/helpers
       ([src/models/CustomerModel.js], lines 1117-1130) *)

Record pagination := {
  total : Js.number;
  limit : Js.number;
  offset : Js.number;
  currentPage : Js.number;
  totalPages : Js.number;
  hasMore : bool;
  hasPrevious : bool
}.

(** Every quotient and sum is rounded to a double where the source
    computes it: [offset / limit], [... + 1], [total / limit] and
    [offset + limit]. *)
Definition buildPagination (total limit offset : Js.number) : pagination :=
  let currentPage :=
    Js.fl (Js.add (Js.floor (Js.fl (Js.div offset limit))) (Js.int 1)) in
  let totalPages := Js.ceil (Js.fl (Js.div total limit)) in
  {| total := total;
     limit := limit;
     offset := offset;
     currentPage := currentPage;
     totalPages := totalPages;
     hasMore := Js.lt (Js.fl (Js.add offset limit)) total;
     hasPrevious := Js.gt offset (Js.int 0) |}.

(* ------------------------------------------------------------------ *)
(** ** Reservation validator: [validateReservationData]
       ([src/routes/customerRoutes.js], lines 764-854) *)

(** The built-ins of the JavaScript runtime the validator calls, and the
    clock.  [Number_ s] is [Number(s)]; [Date_parse s] is the time value of
    [new Date(s)] in milliseconds since the epoch, [None] for an invalid
    date; [Date_now] is the time value of [new Date()] (the readings taken
    during one validation are one instant); local time is UTC plus
    [tz_offset] milliseconds, without daylight saving. *)
Record runtime := {
  Number_ : Js.jsstring -> Js.number;
  Date_parse : Js.jsstring -> option Z;
  Date_now : Z;
  tz_offset : Z
}.

Definition ms_per_day : Z := 86400000.

(** Day number of an instant on the local calendar: two instants have the
    same [toDateString()] exactly when they have the same day number. *)
Definition local_day (rt : runtime) (t : Z) : Z :=
  (t + tz_offset rt) / ms_per_day.

(** [d.setHours(0, 0, 0, 0)]. *)
Definition setHours0 (rt : runtime) (t : Z) : Z :=
  t - (t + tz_offset rt) mod ms_per_day.

(** [d.setDate(d.getDate() + n)]. *)
Definition addDays (t n : Z) : Z := t + n * ms_per_day.

(** [a < b], [a > b] and [a <= b] between a parsed date (possibly invalid)
    and a valid one: false when the parsed date is invalid. *)
Definition date_lt (a : option Z) (b : Z) : bool :=
  match a with Some x => x <? b | None => false end.

Definition date_gt (a : option Z) (b : Z) : bool :=
  match a with Some x => b <? x | None => false end.

Definition date_le (a : option Z) (b : Z) : bool :=
  match a with Some x => x <=? b | None => false end.

(** [a.toDateString() === b.toDateString()] for a parsed date [a] and a
    valid date [b]. *)
Definition same_toDateString (rt : runtime) (a : option Z) (b : Z) : bool :=
  match a with Some x => local_day rt x =? local_day rt b | None => false end.

(** The request body of a reservation.  A field is [None] when it is
    [undefined] or [null]; text fields are strings when present. *)
Inductive guests_field :=
| GAbsent
| GStr (s : Js.jsstring)
| GNum (n : Z).

Record payload := {
  p_ten_khach : option Js.jsstring;
  p_sdt : option Js.jsstring;
  p_email : option Js.jsstring;
  p_ngay : option Js.jsstring;
  p_gio : option Js.jsstring;
  p_so_luong_khach : guests_field;
  p_ghi_chu : option Js.jsstring;
  p_trang_thai : option Js.jsstring
}.

(** The messages pushed by the validator, in the order of the source. *)
Inductive verror :=
| E_name_short      (* line 769: name needs at least 2 characters *)
| E_name_long       (* line 772: name longer than 100 *)
| E_name_chars      (* line 775: name has other than letters and spaces *)
| E_phone_required  (* line 780 *)
| E_phone_digits    (* line 784: phone is not 10-11 digits *)
| E_email_format    (* line 789 *)
| E_email_long      (* line 792 *)
| E_date_required   (* line 797 *)
| E_date_past       (* line 805: date in the past *)
| E_date_window     (* line 811: only within the next 30 days *)
| E_time_required   (* line 817 *)
| E_time_window     (* line 822: time must be within 10:00 - 21:30 *)
| E_time_passed     (* line 833: the hour has passed *)
| E_guests_required (* line 841 *)
| E_guests_range    (* line 845: guests must be 1 to 20 *)
| E_note_long.      (* line 850 *)

Definition verror_eqb (a b : verror) : bool :=
  match a, b with
  | E_name_short, E_name_short | E_name_long, E_name_long
  | E_name_chars, E_name_chars | E_phone_required, E_phone_required
  | E_phone_digits, E_phone_digits | E_email_format, E_email_format
  | E_email_long, E_email_long | E_date_required, E_date_required
  | E_date_past, E_date_past | E_date_window, E_date_window
  | E_time_required, E_time_required | E_time_window, E_time_window
  | E_time_passed, E_time_passed | E_guests_required, E_guests_required
  | E_guests_range, E_guests_range | E_note_long, E_note_long => true
  | _, _ => false
  end.

Definition has_error (e : verror) (errors : list verror) : bool :=
  existsb (verror_eqb e) errors.

(** [/^[a-zA-ZÀ-ỹ\s]+$/u]: U+00C0 to U+1EF9. *)
Definition name_char (c : Js.char) : bool :=
  (Js.char_in 97 122 c || Js.char_in 65 90 c || Js.char_in 192 7929 c
   || Js.is_space c)%bool.

Definition name_regex (s : Js.jsstring) : bool :=
  (negb (Nat.eqb (List.length s) 0) && forallb name_char s)%bool.

(** [/^[0-9]{10,11}$/]. *)
Definition phone_regex (s : Js.jsstring) : bool :=
  ((Nat.eqb (List.length s) 10 || Nat.eqb (List.length s) 11)
   && forallb (Js.char_in 48 57) s)%bool.

(** [/^[^\s@]+@[^\s@]+\.[^\s@]+$/]: no white space, exactly one [@] with
    something before it, and after it a dot that is neither the first nor the
    last character. *)
Definition plain_char (c : Js.char) : bool :=
  negb (Js.is_space c || N.eqb c 64)%bool.

Fixpoint inner_dot (s : Js.jsstring) : bool :=
  match s with
  | _ :: ((c :: (_ :: _)) as s') => (N.eqb c 46 || inner_dot s')%bool
  | _ => false
  end.

Definition email_regex (s : Js.jsstring) : bool :=
  match Js.split 64 s with
  | [loc; dom] =>
      (negb (Nat.eqb (List.length loc) 0) && forallb plain_char loc
       && forallb plain_char dom && inner_dot dom)%bool
  | _ => false
  end.

(** [errors.push(e)] under a condition. *)
Definition push_if (c : bool) (e : verror) (errors : list verror)
  : list verror :=
  if c then errors ++ [e] else errors.

Definition str_of (x : option Js.jsstring) : Js.jsstring :=
  match x with Some s => s | None => [] end.

Section Validator.

Variable rt : runtime.

Definition validate_ten_khach (data : payload) (errors : list verror) :=
  let ten := p_ten_khach data in
  let errors :=
    push_if (negb (Js.present ten)
             || (List.length (Js.trim (str_of ten)) <? 2)%nat)
            E_name_short errors in
  let errors :=
    push_if (Js.present ten && (100 <? List.length (str_of ten))%nat)
            E_name_long errors in
  push_if (Js.present ten && negb (name_regex (str_of ten)))
          E_name_chars errors.

Definition validate_sdt (data : payload) (errors : list verror) :=
  let errors := push_if (negb (Js.present (p_sdt data)))
                        E_phone_required errors in
  let phone :=
    if Js.present (p_sdt data)
    then Js.remove_class Js.is_space (str_of (p_sdt data)) else [] in
  push_if (negb (Nat.eqb (List.length phone) 0) && negb (phone_regex phone))
          E_phone_digits errors.

Definition validate_email (data : payload) (errors : list verror) :=
  let email := p_email data in
  let errors :=
    push_if (Js.present email && negb (email_regex (str_of email)))
            E_email_format errors in
  push_if (Js.present email && (100 <? List.length (str_of email))%nat)
          E_email_long errors.

Definition validate_ngay (data : payload) (errors : list verror) :=
  let errors := push_if (negb (Js.present (p_ngay data)))
                        E_date_required errors in
  if Js.present (p_ngay data) then
    let reservationDate := Date_parse rt (str_of (p_ngay data)) in
    let today := setHours0 rt (Date_now rt) in
    let errors := push_if (date_lt reservationDate today)
                          E_date_past errors in
    let maxDate := addDays (Date_now rt) 30 in
    push_if (date_gt reservationDate maxDate) E_date_window errors
  else errors.

(** [const [hours, minutes] = data.gio.split(':').map(Number)]: a missing
    component is [undefined], which compares like NaN. *)
Definition hours_minutes (gio : Js.jsstring) : Js.number * Js.number :=
  let parts := List.map (Number_ rt) (Js.split 58 gio) in
  (nth 0 parts Js.NaN, nth 1 parts Js.NaN).

Definition outside_hours (gio : Js.jsstring) : bool :=
  let '(hours, minutes) := hours_minutes gio in
  (Js.lt hours (Js.int 10) || Js.gt hours (Js.int 21)
   || (Js.eqn hours (Js.int 21) && Js.gt minutes (Js.int 30)))%bool.

Definition validate_gio (data : payload) (errors : list verror) :=
  let errors := push_if (negb (Js.present (p_gio data)))
                        E_time_required errors in
  if Js.present (p_gio data) then
    let gio := str_of (p_gio data) in
    let errors := push_if (outside_hours gio) E_time_window errors in
    if Js.present (p_ngay data) then
      let ngay := str_of (p_ngay data) in
      let reservationDate := Date_parse rt ngay in
      let today := Date_now rt in
      if same_toDateString rt reservationDate today then
        let reservationTime := Date_parse rt (ngay ++ Js.lit " " ++ gio) in
        push_if (date_le reservationTime (Date_now rt)) E_time_passed errors
      else errors
    else errors
  else errors.

(** [!data.so_luong_khach] and [parseInt(data.so_luong_khach)].  A number
    of the body is an integer (of magnitude below 10^21, so that its
    decimal form has no exponent). *)
Definition guests_falsy (g : guests_field) : bool :=
  match g with
  | GAbsent => true
  | GStr s => Nat.eqb (List.length s) 0
  | GNum n => n =? 0
  end.

Definition guests_parseInt (g : guests_field) : Js.number :=
  match g with
  | GAbsent => Js.NaN
  | GStr s => Js.parseInt s
  | GNum n => Js.int n
  end.

Definition validate_so_luong_khach (data : payload) (errors : list verror) :=
  let errors := push_if (guests_falsy (p_so_luong_khach data))
                        E_guests_required errors in
  let guests := guests_parseInt (p_so_luong_khach data) in
  push_if (Js.isNaN guests || Js.lt guests (Js.int 1)
           || Js.gt guests (Js.int 20))
          E_guests_range errors.

Definition validate_ghi_chu (data : payload) (errors : list verror) :=
  push_if (Js.present (p_ghi_chu data)
           && (500 <? List.length (str_of (p_ghi_chu data)))%nat)
          E_note_long errors.

Definition validateReservationData (data : payload) : list verror :=
  let errors := [] in
  let errors := validate_ten_khach data errors in
  let errors := validate_sdt data errors in
  let errors := validate_email data errors in
  let errors := validate_ngay data errors in
  let errors := validate_gio data errors in
  let errors := validate_so_luong_khach data errors in
  validate_ghi_chu data errors.

End Validator.

(* ------------------------------------------------------------------ *)
(** ** The [dat_ban] table ([src/server.js], lines 82-99) *)

(** [trang_thai ENUM('cho_xac_nhan','da_xac_nhan','da_huy')]. *)
Inductive trang_thai_t := cho_xac_nhan | da_xac_nhan | da_huy.

Definition trang_thai_eqb (a b : trang_thai_t) : bool :=
  match a, b with
  | cho_xac_nhan, cho_xac_nhan | da_xac_nhan, da_xac_nhan
  | da_huy, da_huy => true
  | _, _ => false
  end.

Definition trang_thai_name (s : trang_thai_t) : Js.jsstring :=
  match s with
  | cho_xac_nhan => Js.lit "cho_xac_nhan"
  | da_xac_nhan => Js.lit "da_xac_nhan"
  | da_huy => Js.lit "da_huy"
  end.

Definition trang_thai_of (s : Js.jsstring) : option trang_thai_t :=
  if Js.str_eqb s (Js.lit "cho_xac_nhan") then Some cho_xac_nhan
  else if Js.str_eqb s (Js.lit "da_xac_nhan") then Some da_xac_nhan
  else if Js.str_eqb s (Js.lit "da_huy") then Some da_huy
  else None.

(** A row.  The two time stamps of the table are left out: no modelled
    query reads them.  Text, date and time columns hold the bound text;
    [duplicate_where] and [list_where] compare that text as it is,
    [conflicts] below compares it by the keys of the columns. *)
Record dat_ban := {
  id_datban : Z;
  ten_khach : Js.jsstring;
  sdt : Js.jsstring;
  email : option Js.jsstring;
  ngay : Js.jsstring;
  gio : Js.jsstring;
  so_luong_khach : Z;
  ghi_chu : option Js.jsstring;
  trang_thai : trang_thai_t
}.

Definition set_trang_thai (st : trang_thai_t) (r : dat_ban) : dat_ban :=
  {| id_datban := id_datban r; ten_khach := ten_khach r; sdt := sdt r;
     email := email r; ngay := ngay r; gio := gio r;
     so_luong_khach := so_luong_khach r; ghi_chu := ghi_chu r;
     trang_thai := st |}.

(** The fields a partial update may carry ([allowedFields], line 1370), each
    of the type of its column; [None] is a key that is absent or
    [undefined]. *)
Record patch := {
  u_ten_khach : option Js.jsstring;
  u_sdt : option Js.jsstring;
  u_email : option (option Js.jsstring);
  u_ngay : option Js.jsstring;
  u_gio : option Js.jsstring;
  u_so_luong_khach : option Z;
  u_ghi_chu : option (option Js.jsstring);
  u_trang_thai : option Js.jsstring
}.

Definition or_default {A} (x : option A) (d : A) : A :=
  match x with Some v => v | None => d end.

Definition patch_is_empty (u : patch) : bool :=
  match u_ten_khach u, u_sdt u, u_email u, u_ngay u, u_gio u,
        u_so_luong_khach u, u_ghi_chu u, u_trang_thai u with
  | None, None, None, None, None, None, None, None => true
  | _, _, _, _, _, _, _, _ => false
  end.

Definition apply_patch (u : patch) (st : trang_thai_t) (r : dat_ban)
  : dat_ban :=
  {| id_datban := id_datban r;
     ten_khach := or_default (u_ten_khach u) (ten_khach r);
     sdt := or_default (u_sdt u) (sdt r);
     email := or_default (u_email u) (email r);
     ngay := or_default (u_ngay u) (ngay r);
     gio := or_default (u_gio u) (gio r);
     so_luong_khach := or_default (u_so_luong_khach u) (so_luong_khach r);
     ghi_chu := or_default (u_ghi_chu u) (ghi_chu r);
     trang_thai := st |}.

(** The filters of the list query (lines 957-976). *)
Record list_filter := {
  f_status : option Js.jsstring;   (* trang_thai = ? *)
  f_date : option Js.jsstring;     (* ngay = ? *)
  f_like : option Js.jsstring      (* (ten_khach LIKE ? OR sdt LIKE ? OR email LIKE ?) *)
}.

(** *** LIKE patterns

    [%] matches any run of characters, [_] any one character, a backslash
    makes the next character literal, a backslash that ends the pattern
    stands for itself.  Characters are compared by equality, as the
    collation of the table compares digits and punctuation; the collation
    also takes letters that differ only in case for equal. *)
Inductive like_token := Any_run | Any_one | Literal (c : Js.char).

Fixpoint like_tokens (p : Js.jsstring) : list like_token :=
  match p with
  | [] => []
  | c :: p' =>
      if N.eqb c 92 then
        match p' with
        | c' :: p'' => Literal c' :: like_tokens p''
        | [] => [Literal c]
        end
      else if N.eqb c 37 then Any_run :: like_tokens p'
      else if N.eqb c 95 then Any_one :: like_tokens p'
      else Literal c :: like_tokens p'
  end.

Fixpoint like_match (ts : list like_token) (t : Js.jsstring) : bool :=
  match ts with
  | [] => match t with [] => true | _ => false end
  | Literal c :: ts' =>
      match t with
      | x :: t' => (N.eqb x c && like_match ts' t')%bool
      | [] => false
      end
  | Any_one :: ts' =>
      match t with
      | _ :: t' => like_match ts' t'
      | [] => false
      end
  | Any_run :: ts' =>
      (fix run (t : Js.jsstring) : bool :=
         (like_match ts' t
          || match t with _ :: t' => run t' | [] => false end)%bool) t
  end.

(** [text LIKE pattern]. *)
Definition sql_like (text pattern : Js.jsstring) : bool :=
  like_match (like_tokens pattern) text.

Definition sql_like_opt (text : option Js.jsstring) (pattern : Js.jsstring)
  : bool :=
  match text with Some t => sql_like t pattern | None => false end.

(** *** Statements

    One constructor for each statement text of the router, indexed by the
    shape of what [pool.execute] resolves to. *)
Inductive statement : Type -> Type :=
| Count_duplicates (sdt ngay gio : Js.jsstring) (exclude : option Z)
    : statement Z
    (* SELECT COUNT( * ) as count FROM dat_ban WHERE sdt = ? AND ngay = ?
       AND gio = ? AND trang_thai != 'da_huy' [AND id_datban != ?] *)
| Insert_dat_ban (ten_khach sdt : Js.jsstring) (email : option Js.jsstring)
    (ngay gio : Js.jsstring) (so_luong_khach : Js.number)
    (ghi_chu : option Js.jsstring)
    : statement Z
    (* INSERT INTO dat_ban (...) VALUES (?, ?, ?, ?, ?, ?, ?, 'cho_xac_nhan');
       resolves to the insertId *)
| Select_by_id (id : Z) : statement (list dat_ban)
    (* SELECT * FROM dat_ban WHERE id_datban = ? *)
| Update_dat_ban (ten_khach sdt : Js.jsstring) (email : option Js.jsstring)
    (ngay gio : Js.jsstring) (so_luong_khach : Js.number)
    (ghi_chu : option Js.jsstring) (trang_thai : Js.jsstring) (id : Z)
    : statement unit
    (* UPDATE dat_ban SET ten_khach = ?, ..., trang_thai = ?,
       updated_at = CURRENT_TIMESTAMP WHERE id_datban = ? *)
| Update_trang_thai (trang_thai : Js.jsstring) (id : Z) : statement unit
    (* UPDATE dat_ban SET trang_thai = ?, updated_at = CURRENT_TIMESTAMP
       WHERE id_datban = ? *)
| Update_fields (u : patch) (id : Z) : statement unit
    (* UPDATE dat_ban SET <field> = ?, ..., updated_at = CURRENT_TIMESTAMP
       WHERE id_datban = ? *)
| Count_list (f : list_filter) : statement Z
    (* SELECT COUNT( * ) as total FROM dat_ban <where> *)
| Select_list (f : list_filter) (limit offset : Js.number)
    : statement (list dat_ban).
    (* SELECT * FROM dat_ban <where> ORDER BY created_at DESC
       LIMIT <limit> OFFSET <offset> *)

(** The table with its AUTO_INCREMENT counter; rows in insertion order. *)
Record database := {
  rows : list dat_ban;
  auto_increment : Z
}.

Definition is_active (r : dat_ban) : bool :=
  negb (trang_thai_eqb (trang_thai r) da_huy).

Definition duplicate_where (p d t : Js.jsstring) (exclude : option Z)
                           (r : dat_ban) : bool :=
  (Js.str_eqb (sdt r) p && Js.str_eqb (ngay r) d && Js.str_eqb (gio r) t
   && is_active r
   && match exclude with
      | Some e => negb (id_datban r =? e)
      | None => true
      end)%bool.

Definition list_where (f : list_filter) (r : dat_ban) : bool :=
  (match f_status f with
   | Some s => Js.str_eqb (trang_thai_name (trang_thai r)) s
   | None => true
   end
   && match f_date f with
      | Some d => Js.str_eqb (ngay r) d
      | None => true
      end
   && match f_like f with
      | Some p => sql_like (ten_khach r) p || sql_like (sdt r) p
                  || sql_like_opt (email r) p
      | None => true
      end)%bool.

(** An integer bound to an INT column or written into LIMIT / OFFSET. *)
Definition as_integer (n : Js.number) : option Z :=
  match n with
  | Js.Fin q => if Qeq_bool q (inject_Z (Qfloor q)) then Some (Qfloor q)
                else None
  | _ => None
  end.

Definition update_where_id (id : Z) (f : dat_ban -> dat_ban)
                           (l : list dat_ban) : list dat_ban :=
  List.map (fun r => if id_datban r =? id then f r else r) l.

(** What a statement does to the table when the server accepts it; [None]
    when the server refuses it (a value outside the ENUM, a number that is
    not an integer, a negative LIMIT or OFFSET).  The newest rows come first
    in the list query. *)
Definition run_statement {A} (q : statement A) (db : database)
  : option (A * database) :=
  match q in statement T return option (T * database) with
  | Count_duplicates p d t ex =>
      Some (Z.of_nat (List.length (List.filter (duplicate_where p d t ex)
                                               (rows db))), db)
  | Insert_dat_ban ten p em d t n note =>
      match as_integer n with
      | Some n =>
          let id := auto_increment db in
          Some (id,
                {| rows := rows db ++
                     [{| id_datban := id; ten_khach := ten; sdt := p;
                         email := em; ngay := d; gio := t;
                         so_luong_khach := n; ghi_chu := note;
                         trang_thai := cho_xac_nhan |}];
                   auto_increment := id + 1 |})
      | None => None
      end
  | Select_by_id id =>
      Some (List.filter (fun r => id_datban r =? id) (rows db), db)
  | Update_dat_ban ten p em d t n note st id =>
      match as_integer n, trang_thai_of st with
      | Some n, Some st =>
          Some (tt,
                {| rows := update_where_id id
                     (fun r =>
                        {| id_datban := id_datban r; ten_khach := ten;
                           sdt := p; email := em; ngay := d; gio := t;
                           so_luong_khach := n; ghi_chu := note;
                           trang_thai := st |}) (rows db);
                   auto_increment := auto_increment db |})
      | _, _ => None
      end
  | Update_trang_thai st id =>
      match trang_thai_of st with
      | Some st =>
          Some (tt, {| rows := update_where_id id (set_trang_thai st) (rows db);
                       auto_increment := auto_increment db |})
      | None => None
      end
  | Update_fields u id =>
      match u_trang_thai u with
      | None =>
          Some (tt, {| rows := update_where_id id
                                 (fun r => apply_patch u (trang_thai r) r)
                                 (rows db);
                       auto_increment := auto_increment db |})
      | Some s =>
          match trang_thai_of s with
          | Some st =>
              Some (tt, {| rows := update_where_id id (apply_patch u st)
                                     (rows db);
                           auto_increment := auto_increment db |})
          | None => None
          end
      end
  | Count_list f =>
      Some (Z.of_nat (List.length (List.filter (list_where f) (rows db))), db)
  | Select_list f lim off =>
      match as_integer lim, as_integer off with
      | Some lim, Some off =>
          if (lim <? 0) || (off <? 0) then None
          else Some (firstn (Z.to_nat lim)
                       (skipn (Z.to_nat off)
                          (rev (List.filter (list_where f) (rows db)))), db)
      | _, _ => None
      end
  end.

(* ------------------------------------------------------------------ *)
(** ** Effects: the data base behind [pool.execute], the console, and
       exceptions *)

(** The lines written with [console.error]. *)
Inductive log_line :=
| Log_database_query_error          (* server.js, line 202 *)
| Log_error_checking_duplicate      (* customerRoutes.js, line 873 *)
| Log_error_creating                (* line 936 *)
| Log_error_getting                 (* line 1012 *)
| Log_error_updating                (* lines 1137 and 1410 *)
| Log_error_updating_status.        (* line 1245 *)

Inductive exn :=
| TypeError       (* a call of [null], a property of [undefined] *)
| Rejected        (* [pool.execute] rejects *)
| Error_result.   (* [throw new Error(result.error)] *)

(** [faults] tells, for the calls of [pool.execute] still to come, whether
    the server is going to refuse the statement whatever it says (a lost
    connection, a constraint of the table); past the end of the list no call
    is refused.  [executeQuery_loaded] is false when [require] of the data
    base module failed and the router's [executeQuery] stayed [null]
    (customerRoutes.js, lines 751-761). *)
Record world := {
  store : database;
  faults : list bool;
  executeQuery_loaded : bool;
  console : list log_line
}.

Definition M (A : Type) : Type := world -> (A + exn) * world.

Definition ret {A} (a : A) : M A := fun w => (inl a, w).

Definition bind {A B} (m : M A) (k : A -> M B) : M B :=
  fun w =>
    match m w with
    | (inl a, w') => k a w'
    | (inr e, w') => (inr e, w')
    end.

Definition throw {A} (e : exn) : M A := fun w => (inr e, w).

Definition try_catch {A} (m : M A) (handler : exn -> M A) : M A :=
  fun w =>
    match m w with
    | (inl a, w') => (inl a, w')
    | (inr e, w') => handler e w'
    end.

(** Updates of one component of the world. *)
Definition set_store (db : database) (w : world) : world :=
  {| store := db; faults := faults w;
     executeQuery_loaded := executeQuery_loaded w; console := console w |}.

Definition next_call (w : world) : world :=
  {| store := store w; faults := tl (faults w);
     executeQuery_loaded := executeQuery_loaded w; console := console w |}.

Definition logged (l : log_line) (w : world) : world :=
  {| store := store w; faults := faults w;
     executeQuery_loaded := executeQuery_loaded w;
     console := console w ++ [l] |}.

Definition console_error (l : log_line) : M unit :=
  fun w => (inl tt, logged l w).

Notation "x <- m ;; k" := (bind m (fun x => k))
  (at level 61, m at next level, right associativity).
Notation "m ;;; k" := (bind m (fun _ => k))
  (at level 61, right associativity).

(** [pool.execute(query, params)]. *)
Definition pool_execute {A} (q : statement A) : M A :=
  fun w =>
    if hd false (faults w) then (inr Rejected, next_call w)
    else match run_statement q (store w) with
         | Some (a, db') => (inl a, set_store db' (next_call w))
         | None => (inr Rejected, next_call w)
         end.

(** [{ success: true, data: rows }] or [{ success: false, error }]. *)
Inductive result (A : Type) :=
| Success (data : A)
| Failure.
Arguments Success {A} data.
Arguments Failure {A}.

Definition success {A} (r : result A) : bool :=
  match r with Success _ => true | Failure => false end.

(** [executeQuery] of the data base module ([src/server.js], lines
    197-205). *)
Definition executeQuery_impl {A} (q : statement A) : M (result A) :=
  try_catch
    (rows <- pool_execute q ;; ret (Success rows))
    (fun _ => console_error Log_database_query_error ;;; ret Failure).

(** A call of the router's variable [executeQuery]. *)
Definition executeQuery {A} (q : statement A) : M (result A) :=
  fun w =>
    if executeQuery_loaded w then executeQuery_impl q w
    else (inr TypeError, w).

(* ------------------------------------------------------------------ *)
(** ** Conflict detector: [checkDuplicateReservation]
       ([src/routes/customerRoutes.js], lines 857-876) *)

(** [if (excludeId)]: [null] and 0 are falsy. *)
Definition excludeId_truthy (excludeId : option Z) : bool :=
  match excludeId with Some e => negb (e =? 0) | None => false end.

Definition checkDuplicateReservation (sdt ngay gio : Js.jsstring)
                                     (excludeId : option Z) : M bool :=
  try_catch
    (let query :=
       Count_duplicates sdt ngay gio
         (if excludeId_truthy excludeId then excludeId else None) in
     result <- executeQuery query ;;
     match result with
     | Success count => ret (0 <? count)
     | Failure => ret false
     end)
    (fun _ => console_error Log_error_checking_duplicate ;;; ret false).

(* ------------------------------------------------------------------ *)
(** ** Route handlers of [/api/datban] *)

(** The [message] texts of the responses. *)
Inductive message :=
| Msg_invalid_data        (* lines 888, 1086 *)
| Msg_duplicate_create    (* line 898 *)
| Msg_created             (* line 927 *)
| Msg_create_failed       (* line 939 *)
| Msg_list_failed         (* line 1015 *)
| Msg_invalid_id          (* lines 1066, 1199, 1354 *)
| Msg_not_found           (* lines 1077, 1217, 1365 *)
| Msg_duplicate_update    (* line 1096 *)
| Msg_updated             (* lines 1129, 1401 *)
| Msg_update_failed       (* lines 1140, 1413 *)
| Msg_invalid_status      (* line 1206 *)
| Msg_status_updated      (* line 1237 *)
| Msg_status_failed       (* line 1248 *)
| Msg_nothing_to_update.  (* line 1384 *)

Record page_info := {
  pg_page : Js.number;
  pg_limit : Js.number;
  pg_total : Js.number;
  pg_pages : Js.number
}.

Inductive body :=
| Body_errors (m : message) (errors : list verror)
    (* { success: false, message, errors } *)
| Body_failure (m : message)
    (* { success: false, message } *)
| Body_row (m : message) (data : option dat_ban) (id : option Z)
    (* { success: true, message, data [, id] } *)
| Body_list (data : list dat_ban) (pagination : page_info).
    (* { success: true, data, pagination } *)

Record response := {
  status : Z;
  json : body
}.

Definition respond (code : Z) (b : body) : M response :=
  ret {| status := code; json := b |}.

(** [selectResult.data[0]]: a property of [undefined] when the query
    failed. *)
Definition first_row (r : result (list dat_ban)) : M (option dat_ban) :=
  match r with
  | Success l => ret (hd_error l)
  | Failure => throw TypeError
  end.

(** [x.trim()] on a field of the body. *)
Definition trim_field (x : option Js.jsstring) : M Js.jsstring :=
  match x with
  | Some s => ret (Js.trim s)
  | None => throw TypeError
  end.

(** [data.email ? data.email.trim() : null]. *)
Definition trim_or_null (x : option Js.jsstring) : option Js.jsstring :=
  if Js.present x then Some (Js.trim (str_of x)) else None.

(** A field of the body handed on as a string.  The handlers come here
    only after [validateReservationData] has returned no error, and then the
    field is present (lemma [validated_present] below): the second branch
    is never run. *)
Definition bound (x : option Js.jsstring) : M Js.jsstring :=
  match x with
  | Some s => ret s
  | None => throw Rejected
  end.

Section Handlers.

Variable rt : runtime.

(** POST /api/datban (lines 879-942).  The three fields handed to the
    conflict detector are present once the validator has returned no
    error. *)
Definition post_datban (data : payload) : M response :=
  try_catch
    (let validationErrors := validateReservationData rt data in
     if (0 <? List.length validationErrors)%nat then
       respond 400 (Body_errors Msg_invalid_data validationErrors)
     else
       p <- bound (p_sdt data) ;;
       d <- bound (p_ngay data) ;;
       t <- bound (p_gio data) ;;
       isDuplicate <- checkDuplicateReservation p d t None ;;
       if isDuplicate then
         respond 400 (Body_failure Msg_duplicate_create)
       else
         ten <- trim_field (p_ten_khach data) ;;
         p' <- trim_field (p_sdt data) ;;
         result <- executeQuery
                     (Insert_dat_ban ten p' (trim_or_null (p_email data))
                        d t (guests_parseInt (p_so_luong_khach data))
                        (trim_or_null (p_ghi_chu data))) ;;
         match result with
         | Success insertId =>
             selectResult <- executeQuery (Select_by_id insertId) ;;
             row <- first_row selectResult ;;
             respond 201 (Body_row Msg_created row (Some insertId))
         | Failure => throw Error_result
         end)
    (fun _ =>
       console_error Log_error_creating ;;;
       respond 500 (Body_failure Msg_create_failed)).

(** PUT /api/datban/:id (lines 1058-1143). *)
Definition put_datban (id_param : Js.jsstring) (data : payload)
  : M response :=
  try_catch
    (match Js.parseInt_Z id_param with
     | None => respond 400 (Body_failure Msg_invalid_id)
     | Some id =>
         checkResult <- executeQuery (Select_by_id id) ;;
         match checkResult with
         | Failure | Success [] =>
             respond 404 (Body_failure Msg_not_found)
         | Success (_ :: _) =>
             let validationErrors := validateReservationData rt data in
             if (0 <? List.length validationErrors)%nat then
               respond 400 (Body_errors Msg_invalid_data validationErrors)
             else
               p <- bound (p_sdt data) ;;
               d <- bound (p_ngay data) ;;
               t <- bound (p_gio data) ;;
               isDuplicate <- checkDuplicateReservation p d t (Some id) ;;
               if isDuplicate then
                 respond 400 (Body_failure Msg_duplicate_update)
               else
                 ten <- trim_field (p_ten_khach data) ;;
                 p' <- trim_field (p_sdt data) ;;
                 result <- executeQuery
                   (Update_dat_ban ten p' (trim_or_null (p_email data))
                      d t (guests_parseInt (p_so_luong_khach data))
                      (trim_or_null (p_ghi_chu data))
                      (if Js.present (p_trang_thai data)
                       then str_of (p_trang_thai data)
                       else Js.lit "cho_xac_nhan")
                      id) ;;
                 match result with
                 | Success _ =>
                     selectResult <- executeQuery (Select_by_id id) ;;
                     row <- first_row selectResult ;;
                     respond 200 (Body_row Msg_updated row None)
                 | Failure => throw Error_result
                 end
         end
     end)
    (fun _ =>
       console_error Log_error_updating ;;;
       respond 500 (Body_failure Msg_update_failed)).

(** PATCH /api/datban/:id/status (lines 1191-1251). *)
Definition patch_status (id_param : Js.jsstring)
                        (trang_thai : option Js.jsstring) : M response :=
  try_catch
    (match Js.parseInt_Z id_param with
     | None => respond 400 (Body_failure Msg_invalid_id)
     | Some id =>
         if (negb (Js.present trang_thai)
             || negb (existsb (Js.str_eqb (str_of trang_thai))
                        [Js.lit "cho_xac_nhan"; Js.lit "da_xac_nhan";
                         Js.lit "da_huy"]))%bool
         then respond 400 (Body_failure Msg_invalid_status)
         else
           checkResult <- executeQuery (Select_by_id id) ;;
           match checkResult with
           | Failure | Success [] =>
               respond 404 (Body_failure Msg_not_found)
           | Success (_ :: _) =>
               result <- executeQuery
                           (Update_trang_thai (str_of trang_thai) id) ;;
               match result with
               | Success _ =>
                   selectResult <- executeQuery (Select_by_id id) ;;
                   row <- first_row selectResult ;;
                   respond 200 (Body_row Msg_status_updated row None)
               | Failure => throw Error_result
               end
           end
     end)
    (fun _ =>
       console_error Log_error_updating_status ;;;
       respond 500 (Body_failure Msg_status_failed)).

(** PATCH /api/datban/:id (lines 1346-1417). *)
Definition patch_datban (id_param : Js.jsstring) (updates : patch)
  : M response :=
  try_catch
    (match Js.parseInt_Z id_param with
     | None => respond 400 (Body_failure Msg_invalid_id)
     | Some id =>
         checkResult <- executeQuery (Select_by_id id) ;;
         match checkResult with
         | Failure | Success [] =>
             respond 404 (Body_failure Msg_not_found)
         | Success (_ :: _) =>
             if patch_is_empty updates then
               respond 400 (Body_failure Msg_nothing_to_update)
             else
               result <- executeQuery (Update_fields updates id) ;;
               match result with
               | Success _ =>
                   selectResult <- executeQuery (Select_by_id id) ;;
                   row <- first_row selectResult ;;
                   respond 200 (Body_row Msg_updated row None)
               | Failure => throw Error_result
               end
         end
     end)
    (fun _ =>
       console_error Log_error_updating ;;;
       respond 500 (Body_failure Msg_update_failed)).

End Handlers.

(** GET /api/datban (lines 945-1019): the query string. *)
Record list_query := {
  q_page : option Js.jsstring;
  q_limit : option Js.jsstring;
  q_status : option Js.jsstring;
  q_date : option Js.jsstring;
  q_phone : option Js.jsstring
}.

(** Lines 949-951.  The difference and the product are exact: they are
    those of the source as long as page and limit are at most 2^26 in
    magnitude. *)
Definition list_page (q : list_query) : Js.number :=
  Js.or_else (Js.parseInt_opt (q_page q)) (Js.int 1).

Definition list_limit (q : list_query) : Js.number :=
  Js.or_else (Js.parseInt_opt (q_limit q)) (Js.int 20).

Definition list_offset (q : list_query) : Js.number :=
  Js.mul (Js.sub (list_page q) (Js.int 1)) (list_limit q).

(** Lines 957-976. *)
Definition list_filters (q : list_query) : list_filter :=
  {| f_status :=
       if (Js.present (q_status q)
           && negb (Js.str_eqb (str_of (q_status q)) (Js.lit "all")))%bool
       then q_status q else None;
     f_date := if Js.present (q_date q) then q_date q else None;
     f_like :=
       if Js.present (q_phone q)
       then Some (Js.lit "%" ++ str_of (q_phone q) ++ Js.lit "%")
       else None |}.

Definition get_datban (q : list_query) : M response :=
  try_catch
    (let page := list_page q in
     let limit := list_limit q in
     let offset := list_offset q in
     let f := list_filters q in
     countResult <- executeQuery (Count_list f) ;;
     let total :=
       match countResult with
       | Success n => Js.int n
       | Failure => Js.int 0
       end in
     result <- executeQuery (Select_list f limit offset) ;;
     match result with
     | Success data =>
         respond 200
           (Body_list data
              {| pg_page := page; pg_limit := limit; pg_total := total;
                 pg_pages := Js.ceil (Js.div total limit) |})
     | Failure => throw Error_result
     end)
    (fun _ =>
       console_error Log_error_getting ;;;
       respond 500 (Body_failure Msg_list_failed)).

(** The requests that write a reservation. *)
Inductive request :=
| POST_datban (data : payload)
| PUT_datban (id : Js.jsstring) (data : payload)
| PATCH_datban (id : Js.jsstring) (updates : patch)
| PATCH_status (id : Js.jsstring) (trang_thai : option Js.jsstring).

Definition handle (rt : runtime) (r : request) : M response :=
  match r with
  | POST_datban data => post_datban rt data
  | PUT_datban id data => put_datban rt id data
  | PATCH_datban id updates => patch_datban id updates
  | PATCH_status id st => patch_status id st
  end.

(* ------------------------------------------------------------------ *)
(** ** Clamped page sizes of the food list and of the pagination
       middleware *)

(** [FoodController.getAllFoods] ([src/unnamed/part_005], lines 12-20 and
    37-41): [limit = 50] and [offset = 0] when the query string has none. *)
Definition getAllFoods_limit (limit : option Js.jsstring) : Js.number :=
  Js.min (match limit with Some s => Js.parseInt s | None => Js.int 50 end)
         (Js.int 100).

Definition getAllFoods_offset (offset : option Js.jsstring) : Js.number :=
  match offset with Some s => Js.parseInt s | None => Js.int 0 end.

(** Line 48: [buildPagination(total, pagination.limit, pagination.offset)]. *)
Definition getAllFoods_paginationInfo (total : Js.number)
    (limit offset : option Js.jsstring) : pagination :=
  buildPagination total (getAllFoods_limit limit) (getAllFoods_offset offset).

(** [parsePaginationParams] ([src/unnamed/part_006], lines 174-180).  The
    difference and the product are exact: they are those of the source as
    long as the page read is at most 2^46 in magnitude. *)
Definition parsePaginationParams (page limit : option Js.jsstring)
  : Js.number * Js.number * Js.number :=
  let page := Js.max (Js.int 1) (Js.or_else (Js.parseInt_opt page) (Js.int 1)) in
  let limit :=
    Js.min (Js.int 100)
      (Js.max (Js.int 1) (Js.or_else (Js.parseInt_opt limit) (Js.int 20))) in
  let offset := Js.mul (Js.sub page (Js.int 1)) limit in
  (page, limit, offset).

(* ------------------------------------------------------------------ *)
(** ** Query/filter builder of utils/helpers
       ([src/models/CustomerModel.js], lines 1137-1195) *)

(** A value of the [filters] object. *)
Inductive fvalue :=
| F_undefined
| F_null
| F_string (s : Js.jsstring)
| F_number (n : Js.number).

(** [sanitizeSearchQuery] (lines 1137-1145). *)
Definition is_angle (c : Js.char) : bool := (N.eqb c 60 || N.eqb c 62)%bool.
Definition is_wildcard (c : Js.char) : bool := (N.eqb c 37 || N.eqb c 95)%bool.

Definition sanitizeSearchQuery (query : fvalue) : Js.jsstring :=
  match query with
  | F_string ((_ :: _) as q) =>
      Js.substring0 100
        (Js.escape_class is_wildcard
           (Js.remove_class is_angle (Js.trim q)))
  | _ => []
  end.

(** The conditions [buildWhereClause] can push. *)
Inductive condition :=
| Cond_search       (* (m.ten_mon LIKE ? OR m.mo_ta LIKE ? OR l.ten_loai LIKE ?) *)
| Cond_category     (* m.id_loai = ? *)
| Cond_minPrice     (* m.gia >= ? *)
| Cond_maxPrice     (* m.gia <= ? *)
| Cond_in_stock     (* m.so_luong > 0 *)
| Cond_out_of_stock. (* m.so_luong = 0 *)

Record where_clause := {
  conditions : list condition;   (* joined with AND, after a leading AND *)
  params : list fvalue
}.

Definition fvalue_given (v : fvalue) : bool :=
  match v with
  | F_undefined | F_null | F_string [] => false
  | _ => true
  end.

Definition is_string (v : fvalue) (s : Js.jsstring) : bool :=
  match v with F_string x => Js.str_eqb x s | _ => false end.

(** One round of the [forEach] over [Object.entries(filters)]. *)
Definition where_step (acc : where_clause) (entry : Js.jsstring * fvalue)
  : where_clause :=
  let '(key, value) := entry in
  let push c ps := {| conditions := conditions acc ++ c;
                      params := params acc ++ ps |} in
  if fvalue_given value then
    if Js.str_eqb key (Js.lit "search") then
      let searchTerm :=
        F_string (Js.lit "%" ++ sanitizeSearchQuery value ++ Js.lit "%") in
      push [Cond_search] [searchTerm; searchTerm; searchTerm]
    else if Js.str_eqb key (Js.lit "category") then
      push [Cond_category] [value]
    else if Js.str_eqb key (Js.lit "minPrice") then
      push [Cond_minPrice] [value]
    else if Js.str_eqb key (Js.lit "maxPrice") then
      push [Cond_maxPrice] [value]
    else if Js.str_eqb key (Js.lit "available") then
      if is_string value (Js.lit "true") then push [Cond_in_stock] []
      else if is_string value (Js.lit "false") then push [Cond_out_of_stock] []
      else acc
    else acc
  else acc.

Definition buildWhereClause (filters : list (Js.jsstring * fvalue))
  : where_clause :=
  fold_left where_step filters {| conditions := []; params := [] |}.

(** The pattern bound for a search text. *)
Definition search_pattern (search : Js.jsstring) : Js.jsstring :=
  Js.lit "%" ++ sanitizeSearchQuery (F_string search) ++ Js.lit "%".

(** [needle] occurs in [text] as a run of consecutive characters. *)
Fixpoint starts_with (needle text : Js.jsstring) : bool :=
  match needle, text with
  | [], _ => true
  | c :: n', x :: t' => (N.eqb x c && starts_with n' t')%bool
  | _ :: _, [] => false
  end.

Fixpoint contains (needle text : Js.jsstring) : bool :=
  (starts_with needle text
   || match text with _ :: t' => contains needle t' | [] => false end)%bool.

(* ------------------------------------------------------------------ *)
(** ** A runtime for the examples

    The theorems below hold for every [runtime].  The examples are run in
    this one: [Number] of a run of decimal digits and of the empty string
    (which is 0), [new Date] of a calendar day written YYYY-MM-DD (read as
    UTC midnight) or of a day and a time written YYYY-MM-DD HH:MM (read as
    local time).  Every other string is answered with NaN or an invalid
    date here; the examples use none. *)

Definition all_digits (s : Js.jsstring) : bool :=
  (negb (Nat.eqb (List.length s) 0) && forallb (Js.char_in 48 57) s)%bool.

Definition digits_Z (s : Js.jsstring) : option Z :=
  if all_digits s then Js.digits_prefix 10 None s else None.

Definition Number_digits (s : Js.jsstring) : Js.number :=
  match s with
  | [] => Js.int 0
  | _ :: _ => Js.of_option (digits_Z s)
  end.

Definition is_leap (y : Z) : bool :=
  ((y mod 4 =? 0) && (negb (y mod 100 =? 0) || (y mod 400 =? 0)))%bool.

Definition days_in_month (y m : Z) : Z :=
  if m =? 2 then (if is_leap y then 29 else 28)
  else if (m =? 4) || (m =? 6) || (m =? 9) || (m =? 11) then 30
  else 31.

(** Days from 1970-01-01 to the given day of the proleptic Gregorian
    calendar. *)
Definition days_from_civil (y m d : Z) : Z :=
  let y' := if m <=? 2 then y - 1 else y in
  let era := y' / 400 in
  let yoe := y' - era * 400 in
  let mp := (m + 9) mod 12 in
  let doy := (153 * mp + 2) / 5 + d - 1 in
  let doe := yoe * 365 + yoe / 4 - yoe / 100 + doy in
  era * 146097 + doe - 719468.

Definition fixed_digits (n : nat) (s : Js.jsstring) : option Z :=
  if Nat.eqb (List.length s) n then digits_Z s else None.

Definition parse_day (s : Js.jsstring) : option Z :=
  match Js.split 45 s with
  | [ys; ms; ds] =>
      match fixed_digits 4 ys, fixed_digits 2 ms, fixed_digits 2 ds with
      | Some y, Some m, Some d =>
          if (1 <=? m) && (m <=? 12) && (1 <=? d) && (d <=? days_in_month y m)
          then Some (days_from_civil y m d) else None
      | _, _, _ => None
      end
  | _ => None
  end.

Definition parse_clock (s : Js.jsstring) : option Z :=
  match Js.split 58 s with
  | [hs; ms] =>
      match fixed_digits 2 hs, fixed_digits 2 ms with
      | Some h, Some m =>
          if (h <=? 23) && (m <=? 59) then Some ((h * 60 + m) * 60000)
          else None
      | _, _ => None
      end
  | _ => None
  end.

Definition Date_parse_iso (tz : Z) (s : Js.jsstring) : option Z :=
  match Js.split 32 s with
  | [day] =>
      match parse_day day with
      | Some n => Some (n * ms_per_day)
      | None => None
      end
  | [day; clock] =>
      match parse_day day, parse_clock clock with
      | Some n, Some ms => Some (n * ms_per_day + ms - tz)
      | _, _ => None
      end
  | _ => None
  end.

(** Seven hours east of UTC, the zone of the data base configuration
    ([src/server.js], line 52). *)
Definition example_runtime (now : Z) : runtime :=
  {| Number_ := Number_digits;
     Date_parse := Date_parse_iso 25200000;
     Date_now := now;
     tz_offset := 25200000 |}.

(** Noon of 2025-01-05, local time. *)
Definition noon_2025_01_05 : Z := 1736053200000.

Definition empty_world : world :=
  {| store := {| rows := []; auto_increment := 1 |};
     faults := [];
     executeQuery_loaded := true;
     console := [] |}.

Definition with_faults (fs : list bool) (w : world) : world :=
  {| store := store w; faults := fs;
     executeQuery_loaded := executeQuery_loaded w; console := console w |}.

Definition example_payload (ngay gio : string) : payload :=
  {| p_ten_khach := Some (Js.lit "Nguyen Van A");
     p_sdt := Some (Js.lit "0912345678");
     p_email := None;
     p_ngay := Some (Js.lit ngay);
     p_gio := Some (Js.lit gio);
     p_so_luong_khach := GNum 4;
     p_ghi_chu := None;
     p_trang_thai := None |}.

(* ------------------------------------------------------------------ *)
(** ** Invariants of the table and runs of requests *)

(** Identifiers are handed out by AUTO_INCREMENT from 1 on: the rows carry
    increasing identifiers, all below the counter. *)
Fixpoint ids_increasing (lo : Z) (l : list dat_ban) : bool :=
  match l with
  | [] => true
  | r :: l' => ((lo <? id_datban r) && ids_increasing (id_datban r) l')%bool
  end.

Definition wf_database (db : database) : bool :=
  ((0 <? auto_increment db)
   && ids_increasing 0 (rows db)
   && forallb (fun r => id_datban r <? auto_increment db) (rows db))%bool.

Definition ids_positive (l : list dat_ban) : bool :=
  forallb (fun r => 0 <? id_datban r) l.

(** [wf_database] as a proposition. *)
Definition wf (db : database) : Prop := wf_database db = true.

(** A computation keeps a property of the table. *)
Definition keeps (Q : database -> Prop) {A} (m : M A) : Prop :=
  forall w, Q (store w) -> Q (store (snd (m w))).

(** Two reservations that are both not cancelled and have the same phone,
    date and time. *)
Definition same_slot (a b : dat_ban) : bool :=
  (Js.str_eqb (sdt a) (sdt b) && Js.str_eqb (ngay a) (ngay b)
   && Js.str_eqb (gio a) (gio b))%bool.

Definition clash (a b : dat_ban) : bool :=
  (is_active a && is_active b && same_slot a b)%bool.

(** No two rows of the table clash. *)
Fixpoint slot_invariant (l : list dat_ban) : bool :=
  match l with
  | [] => true
  | r :: l' =>
      (forallb (fun r' => negb (clash r r')) l' && slot_invariant l')%bool
  end.

(** The number of reservations that are not cancelled for a phone, date
    and time. *)
Definition active_in_slot (p d t : Js.jsstring) (l : list dat_ban) : nat :=
  List.length (List.filter (duplicate_where p d t None) l).

(** The status of the reservation with a given identifier. *)
Definition status_of (id : Z) (w : world) : option trang_thai_t :=
  match List.filter (fun r => id_datban r =? id) (rows (store w)) with
  | r :: _ => Some (trang_thai r)
  | [] => None
  end.

(** The module is loaded and the next [n] statements are not refused. *)
Definition calls_succeed (n : nat) (w : world) : bool :=
  (executeQuery_loaded w && forallb negb (firstn n (faults w)))%bool.

(** The world after a sequence of requests, one after the other. *)
Definition after_requests (rt : runtime) (reqs : list request) (w : world)
  : world :=
  fold_left (fun w r => snd (handle rt r w)) reqs w.


(** The phone of the body has no white space at either end. *)
Definition phone_trimmed (data : payload) : bool :=
  match p_sdt data with
  | Some p => Js.str_eqb (Js.trim p) p
  | None => true
  end.

Definition sample_row (i : nat) : dat_ban :=
  {| id_datban := Z.of_nat i;
     ten_khach := Js.lit "Nguyen Van A";
     sdt := Js.lit "0912345678";
     email := None;
     ngay := Js.lit "2025-01-06";
     gio := Js.lit "19:00";
     so_luong_khach := 4;
     ghi_chu := None;
     trang_thai := da_huy |}.

(** A table of 101 rows. *)
Definition crowded_world : world :=
  {| store := {| rows := List.map sample_row (seq 1 101);
                 auto_increment := 102 |};
     faults := [];
     executeQuery_loaded := true;
     console := [] |}.

Definition limit_101 : list_query :=
  {| q_page := None; q_limit := Some (Js.lit "101");
     q_status := None; q_date := None; q_phone := None |}.

Definition no_backslash (s : Js.jsstring) : bool :=
  forallb (fun c => negb (N.eqb c 92)) s.

(** The two characters backslash, percent. *)
Definition backslash_percent : Js.jsstring := [92%N; 37%N].

(** Ninety-nine letters a and a percent sign. *)
Definition long_search : Js.jsstring := repeat 97%N 99 ++ [37%N].

(** The count the conflict detector reads. *)
Definition duplicates_counted (sdt ngay gio : Js.jsstring)
                              (excludeId : option Z) (w : world) : Z :=
  Z.of_nat (List.length
              (List.filter
                 (duplicate_where sdt ngay gio
                    (if excludeId_truthy excludeId then excludeId else None))
                 (rows (store w)))).

(** The body of the examples, for tomorrow at 19:00, and the world after it
    has been booked. *)
Definition tomorrow_19 : payload := example_payload "2025-01-06" "19:00".

Definition rt0 : runtime := example_runtime noon_2025_01_05.

Definition booked_world : world :=
  after_requests rt0 [POST_datban tomorrow_19] empty_world.

(** The row that booking writes, and the world after it has been
    cancelled. *)
Definition booked_row : dat_ban :=
  {| id_datban := 1;
     ten_khach := Js.lit "Nguyen Van A";
     sdt := Js.lit "0912345678";
     email := None;
     ngay := Js.lit "2025-01-06";
     gio := Js.lit "19:00";
     so_luong_khach := 4;
     ghi_chu := None;
     trang_thai := cho_xac_nhan |}.

Definition cancel_1 : request :=
  PATCH_status (Js.lit "1") (Some (Js.lit "da_huy")).

Definition reopen_1 : request :=
  PATCH_status (Js.lit "1") (Some (Js.lit "cho_xac_nhan")).

Definition cancelled_world : world :=
  after_requests rt0 [POST_datban tomorrow_19; cancel_1] empty_world.

(* ------------------------------------------------------------------ *)
(** ** The other routes of [/api/datban]
       ([src/routes/customerRoutes.js], lines 1022-1055, 1146-1188 and
       1422-1548) *)

(** The statement texts of these routes. *)
Inductive statement_more : Type -> Type :=
| Delete_by_id (id : Z) : statement_more unit
    (* DELETE FROM dat_ban WHERE id_datban = ? *)
| Select_ids_in (ids : list Z) : statement_more (list Z)
    (* SELECT id_datban FROM dat_ban WHERE id_datban IN (?,...,?) *)
| Delete_ids_in (ids : list Z) : statement_more unit
    (* DELETE FROM dat_ban WHERE id_datban IN (?,...,?) *)
| Count_booked (ngay gio : Js.jsstring) : statement_more Z.
    (* SELECT COUNT( * ) as booked_tables FROM dat_ban WHERE ngay = ?
       AND gio = ? AND trang_thai IN ('cho_xac_nhan', 'da_xac_nhan') *)

Definition id_in (ids : list Z) (r : dat_ban) : bool :=
  existsb (Z.eqb (id_datban r)) ids.

Definition booked_where (d t : Js.jsstring) (r : dat_ban) : bool :=
  (Js.str_eqb (ngay r) d && Js.str_eqb (gio r) t
   && (trang_thai_eqb (trang_thai r) cho_xac_nhan
       || trang_thai_eqb (trang_thai r) da_xac_nhan))%bool.

Definition with_rows (l : list dat_ban) (db : database) : database :=
  {| rows := l; auto_increment := auto_increment db |}.

(** What these statements do to the table; [IN ()] with no value is not a
    statement. *)
Definition run_statement_more {A} (q : statement_more A) (db : database)
  : option (A * database) :=
  match q in statement_more T return option (T * database) with
  | Delete_by_id id =>
      Some (tt, with_rows
                  (List.filter (fun r => negb (id_datban r =? id)) (rows db))
                  db)
  | Select_ids_in ids =>
      match ids with
      | [] => None
      | _ :: _ =>
          Some (List.map id_datban (List.filter (id_in ids) (rows db)), db)
      end
  | Delete_ids_in ids =>
      match ids with
      | [] => None
      | _ :: _ =>
          Some (tt, with_rows
                      (List.filter (fun r => negb (id_in ids r)) (rows db))
                      db)
      end
  | Count_booked d t =>
      Some (Z.of_nat (List.length (List.filter (booked_where d t) (rows db))),
            db)
  end.

(** [pool.execute] and [executeQuery] ([src/server.js], lines 197-205) on
    these statements. *)
Definition pool_execute_more {A} (q : statement_more A) : M A :=
  fun w =>
    if hd false (faults w) then (inr Rejected, next_call w)
    else match run_statement_more q (store w) with
         | Some (a, db') => (inl a, set_store db' (next_call w))
         | None => (inr Rejected, next_call w)
         end.

Definition executeQuery_more_impl {A} (q : statement_more A) : M (result A) :=
  try_catch
    (rows <- pool_execute_more q ;; ret (Success rows))
    (fun _ => console_error Log_database_query_error ;;; ret Failure).

Definition executeQuery_more {A} (q : statement_more A) : M (result A) :=
  fun w =>
    if executeQuery_loaded w then executeQuery_more_impl q w
    else (inr TypeError, w).

(** The [message] texts of these routes. *)
Inductive notice :=
| Note_invalid_id             (* lines 1029, 1153 *)
| Note_not_found              (* lines 1044, 1164 *)
| Note_get_failed             (* line 1052 *)
| Note_deleted                (* line 1175 *)
| Note_delete_failed          (* lines 1185, 1485 *)
| Note_invalid_id_list        (* line 1429 *)
| Note_no_valid_id            (* line 1439 *)
| Note_none_found             (* line 1457 *)
| Note_bulk_deleted           (* line 1469 *)
| Note_date_time_required     (* line 1501 *)
| Note_availability_checked   (* line 1521 *)
| Note_availability_failed.   (* line 1544 *)

(** The line a catch block of these routes writes with [console.error]. *)
Inductive route_log :=
| Log_error_getting_one             (* line 1049 *)
| Log_error_deleting                (* line 1182 *)
| Log_error_bulk_deleting           (* line 1482 *)
| Log_error_checking_availability.  (* line 1541 *)

(** The [data] of the availability answer (lines 1522-1533). *)
Record availability := {
  av_date : Js.jsstring;
  av_time : Js.jsstring;
  av_requestedGuests : option Js.number;
  av_totalTables : Z;
  av_bookedTables : Z;
  av_availableTables : Z;
  av_isAvailable : bool;
  av_recommendedTimes : option (list Js.jsstring)
}.

Inductive content :=
| Content_failure (m : notice)
    (* { success: false, message [, error] } *)
| Content_row (r : dat_ban)
    (* { success: true, data } *)
| Content_message (m : notice)
    (* { success: true, message } *)
| Content_bulk (m : notice) (deletedIds : list Z)
               (deletedCount requestedCount : nat)
    (* { success: true, message, data: { deletedIds, deletedCount,
         requestedCount }, timestamp } *)
| Content_availability (m : notice) (data : availability).
    (* { success: true, message, data, timestamp } *)

(** An answer, with what the handler itself wrote to the console. *)
Record reply := {
  code : Z;
  reply_body : content;
  errors_logged : list route_log
}.

Definition answer (c : Z) (b : content) : M reply :=
  ret {| code := c; reply_body := b; errors_logged := [] |}.

Definition answer_500 (m : notice) (l : route_log) : M reply :=
  ret {| code := 500; reply_body := Content_failure m;
         errors_logged := [l] |}.

(** GET /api/datban/:id (lines 1022-1055). *)
Definition get_datban_by_id (id_param : Js.jsstring) : M reply :=
  try_catch
    (match Js.parseInt_Z id_param with
     | None => answer 400 (Content_failure Note_invalid_id)
     | Some id =>
         result <- executeQuery (Select_by_id id) ;;
         match result with
         | Success (r :: _) => answer 200 (Content_row r)
         | Success [] | Failure =>
             answer 404 (Content_failure Note_not_found)
         end
     end)
    (fun _ => answer_500 Note_get_failed Log_error_getting_one).

(** DELETE /api/datban/:id (lines 1146-1188). *)
Definition delete_datban (id_param : Js.jsstring) : M reply :=
  try_catch
    (match Js.parseInt_Z id_param with
     | None => answer 400 (Content_failure Note_invalid_id)
     | Some id =>
         checkResult <- executeQuery (Select_by_id id) ;;
         match checkResult with
         | Failure | Success [] =>
             answer 404 (Content_failure Note_not_found)
         | Success (_ :: _) =>
             result <- executeQuery_more (Delete_by_id id) ;;
             match result with
             | Success _ => answer 200 (Content_message Note_deleted)
             | Failure => throw Error_result
             end
         end
     end)
    (fun _ => answer_500 Note_delete_failed Log_error_deleting).

(** An element of the [ids] array of the body: a string, an integer, or
    [null], a boolean or a plain object (for which [parseInt] is NaN). *)
Inductive json_id :=
| Id_string (s : Js.jsstring)
| Id_number (n : Z)
| Id_other.

Definition json_parseInt (x : json_id) : option Z :=
  match x with
  | Id_string s => Js.parseInt_Z s
  | Id_number n => Some n
  | Id_other => None
  end.

(** [ids.filter(id => !isNaN(parseInt(id))).map(id => parseInt(id))]. *)
Fixpoint valid_ids (ids : list json_id) : list Z :=
  match ids with
  | [] => []
  | x :: ids' =>
      match json_parseInt x with
      | Some n => n :: valid_ids ids'
      | None => valid_ids ids'
      end
  end.

(** DELETE /api/datban/bulk (lines 1422-1489); [ids] is [None] when the
    body has no [ids] or something that is not an array. *)
Definition delete_bulk (ids : option (list json_id)) : M reply :=
  try_catch
    (match ids with
     | None | Some [] => answer 400 (Content_failure Note_invalid_id_list)
     | Some ((_ :: _) as ids) =>
         let validIds := valid_ids ids in
         if Nat.eqb (List.length validIds) 0 then
           answer 400 (Content_failure Note_no_valid_id)
         else
           checkResult <- executeQuery_more (Select_ids_in validIds) ;;
           match checkResult with
           | Failure => throw Error_result
           | Success existingIds =>
               if Nat.eqb (List.length existingIds) 0 then
                 answer 404 (Content_failure Note_none_found)
               else
                 result <- executeQuery_more (Delete_ids_in existingIds) ;;
                 match result with
                 | Success _ =>
                     answer 200
                       (Content_bulk Note_bulk_deleted existingIds
                          (List.length existingIds) (List.length validIds))
                 | Failure => throw Error_result
                 end
           end
     end)
    (fun _ => answer_500 Note_delete_failed Log_error_bulk_deleting).

(** GET /api/datban/availability (lines 1494-1548). *)
Record availability_query := {
  a_date : option Js.jsstring;
  a_time : option Js.jsstring;
  a_guests : option Js.jsstring
}.

Definition recommended_times : list Js.jsstring :=
  [Js.lit "18:00"; Js.lit "18:30"; Js.lit "19:30"; Js.lit "20:00";
   Js.lit "20:30"].

Definition get_availability (q : availability_query) : M reply :=
  try_catch
    (if (negb (Js.present (a_date q)) || negb (Js.present (a_time q)))%bool
     then answer 400 (Content_failure Note_date_time_required)
     else
       let date := str_of (a_date q) in
       let time := str_of (a_time q) in
       result <- executeQuery_more (Count_booked date time) ;;
       match result with
       | Success bookedTables =>
           let totalTables := 20 in
           let availableTables := totalTables - bookedTables in
           answer 200
             (Content_availability Note_availability_checked
                {| av_date := date;
                   av_time := time;
                   av_requestedGuests :=
                     if Js.present (a_guests q)
                     then Some (Js.parseInt (str_of (a_guests q)))
                     else None;
                   av_totalTables := totalTables;
                   av_bookedTables := bookedTables;
                   av_availableTables := availableTables;
                   av_isAvailable := 0 <? availableTables;
                   av_recommendedTimes :=
                     if availableTables =? 0 then Some recommended_times
                     else None |})
       | Failure => throw Error_result
       end)
    (fun _ =>
       answer_500 Note_availability_failed Log_error_checking_availability).

(** *** The order of the routes

    The routes of the router in the order of their registration (lines 879,
    945, 1022, 1058, 1146, 1191, 1258, 1283, 1346, 1422 and 1494).  A request
    goes to the first route whose path and method fit; no handler of this
    router hands on to a later route.  A path is the list of its segments,
    none of them empty; a literal segment is compared without regard to
    case; a HEAD request also fits a GET route that has no HEAD handler of
    its own. *)
Inductive http_method := GET | POST | PUT | PATCH | DELETE | HEAD | OPTIONS.

Definition http_method_eqb (a b : http_method) : bool :=
  match a, b with
  | GET, GET | POST, POST | PUT, PUT | PATCH, PATCH | DELETE, DELETE
  | HEAD, HEAD | OPTIONS, OPTIONS => true
  | _, _ => false
  end.

Inductive path_segment :=
| Literal_segment (s : Js.jsstring)
| Named_segment.

Inductive route_name :=
| Route_create | Route_list | Route_get | Route_update | Route_delete
| Route_status | Route_head | Route_options | Route_patch | Route_bulk
| Route_availability.

Definition datban_routes
  : list (http_method * list path_segment * route_name) :=
  [ (POST, [], Route_create);
    (GET, [], Route_list);
    (GET, [Named_segment], Route_get);
    (PUT, [Named_segment], Route_update);
    (DELETE, [Named_segment], Route_delete);
    (PATCH, [Named_segment; Literal_segment (Js.lit "status")], Route_status);
    (HEAD, [], Route_head);
    (OPTIONS, [], Route_options);
    (PATCH, [Named_segment], Route_patch);
    (DELETE, [Literal_segment (Js.lit "bulk")], Route_bulk);
    (GET, [Literal_segment (Js.lit "availability")], Route_availability) ].

Definition fold_case (c : Js.char) : Js.char :=
  if Js.char_in 97 122 c then (c - 32)%N else c.

Definition segment_fits (p : path_segment) (s : Js.jsstring) : bool :=
  match p with
  | Named_segment => negb (Nat.eqb (List.length s) 0)
  | Literal_segment l =>
      Js.str_eqb (List.map fold_case l) (List.map fold_case s)
  end.

Fixpoint path_fits (pattern : list path_segment) (path : list Js.jsstring)
  : bool :=
  match pattern, path with
  | [], [] => true
  | p :: pattern', s :: path' => (segment_fits p s && path_fits pattern' path')%bool
  | _, _ => false
  end.

Definition method_fits (m route_method : http_method) : bool :=
  (http_method_eqb m route_method
   || (http_method_eqb m HEAD && http_method_eqb route_method GET))%bool.

Fixpoint first_route (routes : list (http_method * list path_segment * route_name))
                     (m : http_method) (path : list Js.jsstring)
  : option route_name :=
  match routes with
  | [] => None
  | (rm, pattern, name) :: routes' =>
      if (path_fits pattern path && method_fits m rm)%bool then Some name
      else first_route routes' m path
  end.

Definition dispatch (m : http_method) (path : list Js.jsstring)
  : option route_name :=
  first_route datban_routes m path.

(** All the requests of the router that reach the table. *)
Inductive any_request :=
| Writing (r : request)
| Listing (q : list_query)
| Getting (id : Js.jsstring)
| Deleting (id : Js.jsstring)
| Deleting_many (ids : option (list json_id))
| Asking_availability (q : availability_query).

(** The status code of the answer. *)
Definition handle_any (rt : runtime) (r : any_request) : M Z :=
  match r with
  | Writing r => resp <- handle rt r ;; ret (status resp)
  | Listing q => resp <- get_datban q ;; ret (status resp)
  | Getting id => rep <- get_datban_by_id id ;; ret (code rep)
  | Deleting id => rep <- delete_datban id ;; ret (code rep)
  | Deleting_many ids => rep <- delete_bulk ids ;; ret (code rep)
  | Asking_availability q => rep <- get_availability q ;; ret (code rep)
  end.

Definition after_any_requests (rt : runtime) (reqs : list any_request)
                              (w : world) : world :=
  fold_left (fun w r => snd (handle_any rt r w)) reqs w.

(* ------------------------------------------------------------------ *)
(** ** More of the helpers and of the pagination middleware *)

(** The number of [?] a condition of [buildWhereClause] carries. *)
Definition placeholders (c : condition) : nat :=
  match c with
  | Cond_search => 3
  | Cond_category | Cond_minPrice | Cond_maxPrice => 1
  | Cond_in_stock | Cond_out_of_stock => 0
  end.

Definition known_filter_key (key : Js.jsstring) : bool :=
  existsb (Js.str_eqb key)
    [Js.lit "search"; Js.lit "category"; Js.lit "minPrice";
     Js.lit "maxPrice"; Js.lit "available"].

(** [removeEmptyValues] ([src/models/CustomerModel.js], lines 1271-1281);
    an object is the list of its entries, in the order of
    [Object.entries]. *)
Definition removeEmptyValues (obj : list (Js.jsstring * fvalue))
  : list (Js.jsstring * fvalue) :=
  List.filter (fun entry => fvalue_given (snd entry)) obj.

(** [createPagination] of utils/responseFormatter ([src/routes/index.js],
    lines 284-299). *)
Record pagination_info := {
  pi_total : Js.number;
  pi_page : Js.number;
  pi_limit : Js.number;
  pi_totalPages : Js.number;
  pi_hasNext : bool;
  pi_hasPrev : bool;
  pi_offset : Js.number
}.

Definition createPagination (total page limit : Js.number)
  : pagination_info :=
  let totalPages := Js.ceil (Js.div total limit) in
  let currentPage := Js.max (Js.int 1) (Js.min page totalPages) in
  let offset := Js.mul (Js.sub currentPage (Js.int 1)) limit in
  {| pi_total := total;
     pi_page := currentPage;
     pi_limit := limit;
     pi_totalPages := totalPages;
     pi_hasNext := Js.lt currentPage totalPages;
     pi_hasPrev := Js.gt currentPage (Js.int 1);
     pi_offset := offset |}.

(** The pagination that [paginationMiddleware] attaches to the request
    ([src/unnamed/part_006], lines 280-283): the limit is cut to [maxLimit]
    after the offset has been computed. *)
Record request_pagination := {
  rp_page : Js.number;
  rp_limit : Js.number;
  rp_offset : Js.number
}.

Definition middleware_pagination (maxLimit : Js.number)
                                 (page limit : option Js.jsstring)
  : request_pagination :=
  let '(p, l, o) := parsePaginationParams page limit in
  {| rp_page := p; rp_limit := Js.min l maxLimit; rp_offset := o |}.

(** [req.createPaginationResponse] (lines 306-308). *)
Definition createPaginationResponse (maxLimit : Js.number)
    (page limit : option Js.jsstring) (total : Js.number) : pagination_info :=
  let pagination := middleware_pagination maxLimit page limit in
  createPagination total (rp_page pagination) (rp_limit pagination).

(** A value of [req.query]: the key is absent, holds a string, or - when
    the query string repeats the key or writes it with brackets - holds an
    array or an object. *)
Inductive query_value :=
| Qv_absent
| Qv_text (s : Js.jsstring)
| Qv_nested.

(** [parseSortParams] (lines 189-196); [toLowerCase] is the built-in.  An
    array and an object are truthy, are not among the allowed fields (which
    are strings), and have no method [toLowerCase]: calling it throws a
    TypeError. *)
Section Sorting.

Variable toLowerCase : Js.jsstring -> Js.jsstring.

Definition parseSortParams (sort order : query_value)
    (allowedFields : list Js.jsstring) (defaultSort : Js.jsstring)
  : (Js.jsstring * Js.jsstring) + exn :=
  let sort' :=
    match sort with
    | Qv_text s =>
        if (Js.present (Some s) && existsb (Js.str_eqb s) allowedFields)%bool
        then s else defaultSort
    | Qv_absent | Qv_nested => defaultSort
    end in
  match order with
  | Qv_absent => inl (sort', Js.lit "desc")
  | Qv_text o =>
      inl (sort',
           if (Js.present (Some o)
               && existsb (Js.str_eqb (toLowerCase o))
                    [Js.lit "asc"; Js.lit "desc"])%bool
           then toLowerCase o else Js.lit "desc")
  | Qv_nested => inr TypeError
  end.

End Sorting.

(** Every [%] and [_] of a text has a backslash right before it ([prev]
    tells whether the character before the text is a backslash). *)
Fixpoint wildcards_guarded (prev : bool) (s : Js.jsstring) : bool :=
  match s with
  | [] => true
  | c :: s' =>
      ((negb (is_wildcard c) || prev) && wildcards_guarded (N.eqb c 92) s')%bool
  end.

(** A computation that ends with a value in [P] and never with an
    exception; one that, if it ends with a value, ends with one in [P]. *)
Definition finishes {A} (P : A -> Prop) (m : M A) : Prop :=
  forall w, exists a w', m w = (inl a, w') /\ P a.

Definition yields {A} (P : A -> Prop) (m : M A) : Prop :=
  forall w, match fst (m w) with inl a => P a | inr _ => True end.

Definition http_codes : list Z := [200; 201; 400; 404; 500].

(** The table [db] comes from the table [db0] without an identifier of
    [db0]'s range being given to a new row: the counter has not gone back,
    and a row with an identifier below [db0]'s counter has the identifier
    of a row of [db0]. *)
Definition ids_kept (db0 db : database) : Prop :=
  wf db
  /\ auto_increment db0 <= auto_increment db
  /\ forall r, In r (rows db) -> id_datban r < auto_increment db0 ->
       exists r0, In r0 (rows db0) /\ id_datban r0 = id_datban r.

(** A computation that leaves the table as it is; one that leaves the
    table as it is whenever it ends with a value in [P]. *)
Definition reads {A} (m : M A) : Prop :=
  forall w, store (snd (m w)) = store w.

Definition quiet {A} (P : A -> Prop) (m : M A) : Prop :=
  forall w, match fst (m w) with
            | inl a => P a -> store (snd (m w)) = store w
            | inr _ => True
            end.

(** The statements that only read. *)
Definition is_query {A} (q : statement A) : bool :=
  match q with
  | Count_duplicates _ _ _ _ | Select_by_id _ | Count_list _
  | Select_list _ _ _ => true
  | _ => false
  end.

Definition is_query_more {A} (q : statement_more A) : bool :=
  match q with
  | Select_ids_in _ | Count_booked _ _ => true
  | _ => false
  end.

Definition refusal (c : Z) : Prop := c = 400 \/ c = 404.

(** The body of the examples with another phone. *)
Definition with_phone (p : string) : payload :=
  {| p_ten_khach := p_ten_khach tomorrow_19;
     p_sdt := Some (Js.lit p);
     p_email := p_email tomorrow_19;
     p_ngay := p_ngay tomorrow_19;
     p_gio := p_gio tomorrow_19;
     p_so_luong_khach := p_so_luong_khach tomorrow_19;
     p_ghi_chu := p_ghi_chu tomorrow_19;
     p_trang_thai := p_trang_thai tomorrow_19 |}.

(* ------------------------------------------------------------------ *)
(** ** Phone, date and time as the storage compares them
       ([src/server.js], lines 82-100)

    [sdt] is a VARCHAR(20) column of a table with the collation
    utf8mb4_unicode_ci, [ngay] is a DATE column and [gio] a TIME column.
    [sdt = ?] is decided by the collation, which ignores the case of letters
    and spaces at the end of the text; [ngay = ?] and [gio = ?] compare the
    date and the time that the texts stand for.  Each comparison is equality
    of a key: the sort key of the phone under the collation, the date and
    the time in their canonical writing.  [duplicate_where] is the case of
    keys that are the text itself ([verbatim]).  A text that the storage
    cannot read as a date or as a time makes it refuse the statement, which
    is one of the [faults] of the world. *)
Record column_keys := {
  sdt_key : Js.jsstring -> Js.jsstring;
  ngay_key : Js.jsstring -> Js.jsstring;
  gio_key : Js.jsstring -> Js.jsstring
}.

Definition verbatim : column_keys :=
  {| sdt_key := fun s => s; ngay_key := fun s => s; gio_key := fun s => s |}.

(** A row with its phone, date and time replaced by their keys. *)
Definition canon (K : column_keys) (r : dat_ban) : dat_ban :=
  {| id_datban := id_datban r; ten_khach := ten_khach r;
     sdt := sdt_key K (sdt r); email := email r;
     ngay := ngay_key K (ngay r); gio := gio_key K (gio r);
     so_luong_khach := so_luong_khach r; ghi_chu := ghi_chu r;
     trang_thai := trang_thai r |}.

(** The WHERE clause of the conflict detector (lines 859-867):
    [sdt = ? AND ngay = ? AND gio = ? AND trang_thai != 'da_huy'
     [AND id_datban != ?]]. *)
Definition conflicts (K : column_keys) (p d t : Js.jsstring)
                     (exclude : option Z) (r : dat_ban) : bool :=
  (Js.str_eqb (sdt_key K (sdt r)) (sdt_key K p)
   && Js.str_eqb (ngay_key K (ngay r)) (ngay_key K d)
   && Js.str_eqb (gio_key K (gio r)) (gio_key K t)
   && is_active r
   && match exclude with
      | Some e => negb (id_datban r =? e)
      | None => true
      end)%bool.

(** The statements under the comparison of the storage: the count of the
    conflict detector compares keys.  The statements that the create and
    the full update run besides it (INSERT, UPDATE and SELECT by identifier)
    compare neither phone, date nor time and run as in [run_statement]; so
    do, unchanged, the two statements of the list route, which these
    handlers do not run. *)
Definition run_statement_on (K : column_keys) {A} (q : statement A)
                            (db : database) : option (A * database) :=
  match q in statement T return option (T * database) with
  | Count_duplicates p d t ex =>
      Some (Z.of_nat (List.length (List.filter (conflicts K p d t ex)
                                               (rows db))), db)
  | Insert_dat_ban ten p em d t n note =>
      run_statement (Insert_dat_ban ten p em d t n note) db
  | Select_by_id id => run_statement (Select_by_id id) db
  | Update_dat_ban ten p em d t n note st id =>
      run_statement (Update_dat_ban ten p em d t n note st id) db
  | Update_trang_thai st id => run_statement (Update_trang_thai st id) db
  | Update_fields u id => run_statement (Update_fields u id) db
  | Count_list f => run_statement (Count_list f) db
  | Select_list f lim off => run_statement (Select_list f lim off) db
  end.

(** [pool.execute], [executeQuery] of the data base module and the router's
    [executeQuery] over these statements. *)
Definition pool_execute_on (K : column_keys) {A} (q : statement A) : M A :=
  fun w =>
    if hd false (faults w) then (inr Rejected, next_call w)
    else match run_statement_on K q (store w) with
         | Some (a, db') => (inl a, set_store db' (next_call w))
         | None => (inr Rejected, next_call w)
         end.

Definition executeQuery_impl_on (K : column_keys) {A} (q : statement A)
  : M (result A) :=
  try_catch
    (rows <- pool_execute_on K q ;; ret (Success rows))
    (fun _ => console_error Log_database_query_error ;;; ret Failure).

Definition executeQuery_on (K : column_keys) {A} (q : statement A)
  : M (result A) :=
  fun w =>
    if executeQuery_loaded w then executeQuery_impl_on K q w
    else (inr TypeError, w).

(** [checkDuplicateReservation] (lines 857-876) over the storage's
    comparison. *)
Definition checkDuplicateReservation_on (K : column_keys)
    (sdt ngay gio : Js.jsstring) (excludeId : option Z) : M bool :=
  try_catch
    (let query :=
       Count_duplicates sdt ngay gio
         (if excludeId_truthy excludeId then excludeId else None) in
     result <- executeQuery_on K query ;;
     match result with
     | Success count => ret (0 <? count)
     | Failure => ret false
     end)
    (fun _ => console_error Log_error_checking_duplicate ;;; ret false).

Section Handlers_on.

Variable K : column_keys.
Variable rt : runtime.

(** POST /api/datban (lines 879-942). *)
Definition post_datban_on (data : payload) : M response :=
  try_catch
    (let validationErrors := validateReservationData rt data in
     if (0 <? List.length validationErrors)%nat then
       respond 400 (Body_errors Msg_invalid_data validationErrors)
     else
       p <- bound (p_sdt data) ;;
       d <- bound (p_ngay data) ;;
       t <- bound (p_gio data) ;;
       isDuplicate <- checkDuplicateReservation_on K p d t None ;;
       if isDuplicate then
         respond 400 (Body_failure Msg_duplicate_create)
       else
         ten <- trim_field (p_ten_khach data) ;;
         p' <- trim_field (p_sdt data) ;;
         result <- executeQuery_on K
                     (Insert_dat_ban ten p' (trim_or_null (p_email data))
                        d t (guests_parseInt (p_so_luong_khach data))
                        (trim_or_null (p_ghi_chu data))) ;;
         match result with
         | Success insertId =>
             selectResult <- executeQuery_on K (Select_by_id insertId) ;;
             row <- first_row selectResult ;;
             respond 201 (Body_row Msg_created row (Some insertId))
         | Failure => throw Error_result
         end)
    (fun _ =>
       console_error Log_error_creating ;;;
       respond 500 (Body_failure Msg_create_failed)).

(** PUT /api/datban/:id (lines 1058-1143). *)
Definition put_datban_on (id_param : Js.jsstring) (data : payload)
  : M response :=
  try_catch
    (match Js.parseInt_Z id_param with
     | None => respond 400 (Body_failure Msg_invalid_id)
     | Some id =>
         checkResult <- executeQuery_on K (Select_by_id id) ;;
         match checkResult with
         | Failure | Success [] =>
             respond 404 (Body_failure Msg_not_found)
         | Success (_ :: _) =>
             let validationErrors := validateReservationData rt data in
             if (0 <? List.length validationErrors)%nat then
               respond 400 (Body_errors Msg_invalid_data validationErrors)
             else
               p <- bound (p_sdt data) ;;
               d <- bound (p_ngay data) ;;
               t <- bound (p_gio data) ;;
               isDuplicate <- checkDuplicateReservation_on K p d t (Some id) ;;
               if isDuplicate then
                 respond 400 (Body_failure Msg_duplicate_update)
               else
                 ten <- trim_field (p_ten_khach data) ;;
                 p' <- trim_field (p_sdt data) ;;
                 result <- executeQuery_on K
                   (Update_dat_ban ten p' (trim_or_null (p_email data))
                      d t (guests_parseInt (p_so_luong_khach data))
                      (trim_or_null (p_ghi_chu data))
                      (if Js.present (p_trang_thai data)
                       then str_of (p_trang_thai data)
                       else Js.lit "cho_xac_nhan")
                      id) ;;
                 match result with
                 | Success _ =>
                     selectResult <- executeQuery_on K (Select_by_id id) ;;
                     row <- first_row selectResult ;;
                     respond 200 (Body_row Msg_updated row None)
                 | Failure => throw Error_result
                 end
         end
     end)
    (fun _ =>
       console_error Log_error_updating ;;;
       respond 500 (Body_failure Msg_update_failed)).

(** The status update and the partial update compare no phone, date or
    time: they are [patch_status] and [patch_datban]. *)
Definition handle_on (r : request) : M response :=
  match r with
  | POST_datban data => post_datban_on data
  | PUT_datban id data => put_datban_on id data
  | PATCH_datban id updates => patch_datban id updates
  | PATCH_status id st => patch_status id st
  end.

End Handlers_on.

Definition after_requests_on (K : column_keys) (rt : runtime)
    (reqs : list request) (w : world) : world :=
  fold_left (fun w r => snd (handle_on K rt r w)) reqs w.

(** No two rows that are not cancelled have the same phone, date and time
    as the storage compares them. *)
Definition slot_invariant_on (K : column_keys) (l : list dat_ban) : bool :=
  slot_invariant (List.map (canon K) l).

(** The phone stored ([data.sdt.trim()]) is, for the storage, the phone
    that was checked ([data.sdt]). *)
Definition phone_kept (K : column_keys) (data : payload) : bool :=
  match p_sdt data with
  | Some p => Js.str_eqb (sdt_key K (Js.trim p)) (sdt_key K p)
  | None => true
  end.

(** The keys of the examples, for phones of ASCII digits and spaces, dates
    written YYYY-MM-DD and times written HH:MM or HH:MM:SS: the collation
    ignores the spaces (U+0020) at the end of a phone, and a time written
    HH:MM is the time HH:MM:00. *)
Fixpoint drop_spaces (s : Js.jsstring) : Js.jsstring :=
  match s with
  | c :: s' => if N.eqb c 32 then drop_spaces s' else s
  | [] => []
  end.

Definition pad_space_key (s : Js.jsstring) : Js.jsstring :=
  rev (drop_spaces (rev s)).

Definition time_key (s : Js.jsstring) : Js.jsstring :=
  if Nat.eqb (List.length s) 5 then s ++ Js.lit ":00" else s.

Definition stored_keys : column_keys :=
  {| sdt_key := pad_space_key; ngay_key := fun s => s; gio_key := time_key |}.

(** A comparison of phones that ignores spaces at the end (PAD SPACE, as
    every collation of utf8mb4 but the 0900 ones). *)
Definition pads_space (K : column_keys) : Prop :=
  forall (s : Js.jsstring) (n : nat),
    sdt_key K (s ++ repeat 32%N n) = sdt_key K s.

(** The count the conflict detector reads under the storage's comparison. *)
Definition duplicates_counted_on (K : column_keys)
    (sdt ngay gio : Js.jsstring) (excludeId : option Z) (w : world) : Z :=
  Z.of_nat (List.length
              (List.filter
                 (conflicts K sdt ngay gio
                    (if excludeId_truthy excludeId then excludeId else None))
                 (rows (store w)))).





Definition phone_with_space : Js.jsstring := Js.lit "0912345678 ".

Definition booked_world_on : world :=
  after_requests_on stored_keys rt0 [POST_datban tomorrow_19] empty_world.


(** A runtime five hours west of UTC, at 20:00 of 2025-01-05 on its
    clock (01:00 UTC of 2025-01-06). *)
Definition runtime_west : runtime :=
  {| Number_ := Number_digits;
     Date_parse := Date_parse_iso (-18000000);
     Date_now := 1736125200000;
     tz_offset := -18000000 |}.

(** A text of the query string that [parseInt] does not read, or reads as
    an integer of magnitude at most [b].  Up to 2^53 the integer that
    [Js.parseInt_Z] reads is the double that [parseInt] returns. *)
Definition reads_within (b : Z) (x : option Js.jsstring) : bool :=
  match x with
  | Some s =>
      match Js.parseInt_Z s with
      | Some z => Z.abs z <=? b
      | None => true
      end
  | None => true
  end.

(* ================================================================== *)
(** * Properties *)

(** ** Arithmetic of integer-valued numbers *)

Lemma Qred_inject_Z (z : Z) : Qred (inject_Z z) = inject_Z z.
Proof.
  apply Qcanon.Qred_identity. simpl. apply Z.gcd_1_r.
Qed.

Lemma add_int (a b : Z) : Js.add (Js.int a) (Js.int b) = Js.int (a + b).
Proof.
  unfold Js.add, Js.int. f_equal.
  rewrite <- (Qred_inject_Z (a + b)).
  apply Qred_complete. rewrite inject_Z_plus. reflexivity.
Qed.

Lemma lt_int (a b : Z) : Js.lt (Js.int a) (Js.int b) = (a <? b).
Proof.
  unfold Js.lt, Js.int, Qcompare, inject_Z. simpl.
  rewrite !Z.mul_1_r. unfold Z.ltb. reflexivity.
Qed.

Lemma gt_int (a b : Z) : Js.gt (Js.int a) (Js.int b) = (b <? a).
Proof. unfold Js.gt. apply lt_int. Qed.

Lemma eqn_int (a b : Z) : Js.eqn (Js.int a) (Js.int b) = (a =? b).
Proof.
  unfold Js.eqn, Js.int, Qeq_bool, inject_Z. simpl.
  rewrite !Z.mul_1_r. reflexivity.
Qed.

Lemma div_int_pos (a b : Z) :
  0 < b ->
  Js.div (Js.int a) (Js.int b) = Js.Fin (Qred (inject_Z a / inject_Z b)%Q).
Proof.
  intros Hb. unfold Js.div, Js.int, Js.sign_of.
  assert (H : Qcompare (inject_Z b) 0%Q = Gt).
  { unfold Qcompare, inject_Z. simpl. rewrite Z.mul_1_r.
    apply Z.compare_gt_iff. exact Hb. }
  rewrite H. reflexivity.
Qed.

Lemma floor_div_int (a b : Z) :
  0 < b -> Js.floor (Js.div (Js.int a) (Js.int b)) = Js.int (a / b).
Proof.
  intros Hb. rewrite div_int_pos by assumption. unfold Js.floor. f_equal.
  rewrite (Qfloor_comp _ _ (Qred_correct _)). symmetry. apply Zdiv_Qdiv.
Qed.

Lemma ceil_div_int (a b : Z) :
  0 < b -> Js.ceil (Js.div (Js.int a) (Js.int b)) = Js.int (- (- a / b)).
Proof.
  intros Hb. rewrite div_int_pos by assumption. unfold Js.ceil. f_equal.
  rewrite (Qceiling_comp _ _ (Qred_correct _)). unfold Qceiling. f_equal.
  rewrite Zdiv_Qdiv. apply Qfloor_comp.
  rewrite inject_Z_opp. unfold Qdiv. ring.
Qed.

(** ** Rounding to a double *)

Lemma pow2_pos (e : Z) : (0 < Js.pow2 e)%Q.
Proof. apply Qpower_0_lt. reflexivity. Qed.

Lemma pow2_Z (e : Z) : 0 <= e -> (Js.pow2 e == inject_Z (2 ^ e))%Q.
Proof. intros H. unfold Js.pow2. rewrite (Zpower_Qpower 2 e H). reflexivity. Qed.

Lemma pow2_add (a b : Z) : (Js.pow2 (a + b) == Js.pow2 a * Js.pow2 b)%Q.
Proof. unfold Js.pow2. apply Qpower_plus. discriminate. Qed.

Lemma pow2_le (a b : Z) : a <= b -> (Js.pow2 a <= Js.pow2 b)%Q.
Proof.
  intros H. unfold Js.pow2. apply Qpower_le_compat_l; [exact H|].
  discriminate.
Qed.

Lemma binade_lower (q : Q) : (0 < q)%Q -> (Js.pow2 (Js.binade q) <= q)%Q.
Proof.
  intros Hq. unfold Js.binade.
  destruct (Qle_bool (Js.pow2 (Z.log2 (Qnum q) - Z.log2 (Z.pos (Qden q)))) q)
    eqn:E; [apply Qle_bool_iff; exact E|].
  destruct q as [n d]. cbn [Qnum Qden] in *.
  assert (Hn : 0 < n) by (unfold Qlt in Hq; cbn in Hq; lia).
  pose proof (Z.log2_spec n Hn) as [Ln _].
  assert (Hd : 0 < Z.pos d) by lia.
  pose proof (Z.log2_spec (Z.pos d) Hd) as [_ Ld].
  pose proof (Z.log2_nonneg n) as N0.
  pose proof (Z.log2_nonneg (Z.pos d)) as D0.
  replace (Z.log2 n - Z.log2 (Z.pos d) - 1)
    with (Z.log2 n + - (Z.succ (Z.log2 (Z.pos d)))) by lia.
  rewrite pow2_add. unfold Js.pow2 at 2. rewrite Qpower_opp.
  fold (Js.pow2 (Z.succ (Z.log2 (Z.pos d)))).
  rewrite (pow2_Z (Z.log2 n)) by lia.
  rewrite (pow2_Z (Z.succ (Z.log2 (Z.pos d)))) by lia.
  set (A := 2 ^ Z.log2 n) in *. set (B := 2 ^ Z.succ (Z.log2 (Z.pos d))) in *.
  assert (HB : 0 < B) by lia.
  unfold Qle, Qmult, Qinv, inject_Z. cbn [Qnum Qden].
  destruct B as [|B|B]; try lia. cbn [Qnum Qden].
  rewrite ?Z.mul_1_l, ?Z.mul_1_r, ?Pos.mul_1_l, ?Pos2Z.inj_mul. nia.
Qed.

Lemma binade_upper (q : Q) : (0 < q)%Q -> (q < Js.pow2 (Js.binade q + 1))%Q.
Proof.
  intros Hq. unfold Js.binade.
  destruct (Qle_bool (Js.pow2 (Z.log2 (Qnum q) - Z.log2 (Z.pos (Qden q)))) q)
    eqn:E.
  - destruct q as [n d]. cbn [Qnum Qden] in *.
    assert (Hn : 0 < n) by (unfold Qlt in Hq; cbn in Hq; lia).
    pose proof (Z.log2_spec n Hn) as [_ Ln].
    assert (Hd : 0 < Z.pos d) by lia.
    pose proof (Z.log2_spec (Z.pos d) Hd) as [Ld _].
    pose proof (Z.log2_nonneg n) as N0.
    pose proof (Z.log2_nonneg (Z.pos d)) as D0.
    replace (Z.log2 n - Z.log2 (Z.pos d) + 1)
      with (Z.succ (Z.log2 n) + - Z.log2 (Z.pos d)) by lia.
    rewrite pow2_add. unfold Js.pow2 at 2. rewrite Qpower_opp.
    fold (Js.pow2 (Z.log2 (Z.pos d))).
    rewrite (pow2_Z (Z.succ (Z.log2 n))) by lia.
    rewrite (pow2_Z (Z.log2 (Z.pos d))) by lia.
    set (A := 2 ^ Z.succ (Z.log2 n)) in *.
    set (B := 2 ^ Z.log2 (Z.pos d)) in *.
    assert (HB : 0 < B) by (unfold B; apply Z.pow_pos_nonneg; lia).
    unfold Qlt, Qmult, Qinv, inject_Z. cbn [Qnum Qden].
    destruct B as [|B|B]; try lia. cbn [Qnum Qden].
    rewrite ?Z.mul_1_l, ?Z.mul_1_r, ?Pos.mul_1_l, ?Pos2Z.inj_mul. nia.
  - replace (Z.log2 (Qnum q) - Z.log2 (Z.pos (Qden q)) - 1 + 1)
      with (Z.log2 (Qnum q) - Z.log2 (Z.pos (Qden q))) by lia.
    apply Qnot_le_lt. intros H. apply Qle_bool_iff in H. congruence.
Qed.

Lemma round_half_even_cases (m : Q) :
  Js.round_half_even m = Qfloor m \/ Js.round_half_even m = Qfloor m + 1.
Proof.
  unfold Js.round_half_even.
  destruct (Qcompare (m - inject_Z (Qfloor m)) (1 # 2)); auto.
  destruct (Z.even (Qfloor m)); auto.
Qed.

Lemma round_half_even_near (m : Q) :
  (inject_Z (Js.round_half_even m) - (1 # 2) <= m
   /\ m <= inject_Z (Js.round_half_even m) + (1 # 2))%Q.
Proof.
  pose proof (Qfloor_le m) as Hlo. pose proof (Qlt_floor m) as Hhi.
  rewrite inject_Z_plus in Hhi. change (inject_Z 1) with 1%Q in Hhi.
  unfold Js.round_half_even.
  destruct (Qcompare (m - inject_Z (Qfloor m)) (1 # 2)) eqn:E.
  - apply Qeq_alt in E.
    destruct (Z.even (Qfloor m)); rewrite ?inject_Z_plus;
      change (inject_Z 1) with 1%Q; split; lra.
  - apply Qlt_alt in E. split; lra.
  - apply Qgt_alt in E. rewrite inject_Z_plus.
    change (inject_Z 1) with 1%Q. split; lra.
Qed.

Lemma round_half_even_above (m : Q) (j : Z) :
  (inject_Z j <= m)%Q -> j <= Js.round_half_even m.
Proof.
  intros H. apply Qfloor_resp_le in H. rewrite Qfloor_Z in H.
  destruct (round_half_even_cases m) as [-> | ->]; lia.
Qed.

Lemma round_half_even_below (m : Q) (j : Z) :
  (m <= inject_Z j)%Q -> Js.round_half_even m <= j.
Proof.
  intros H. pose proof (Qfloor_le m) as Hlo.
  assert (Hf : Qfloor m <= j).
  { apply Qfloor_resp_le in H. rewrite Qfloor_Z in H. exact H. }
  unfold Js.round_half_even.
  destruct (Qcompare (m - inject_Z (Qfloor m)) (1 # 2)) eqn:E.
  - destruct (Z.even (Qfloor m)); [exact Hf|].
    apply Qeq_alt in E.
    assert (Hlt : (inject_Z (Qfloor m) < inject_Z j)%Q) by lra.
    rewrite <- Zlt_Qlt in Hlt. lia.
  - exact Hf.
  - apply Qgt_alt in E.
    assert (Hlt : (inject_Z (Qfloor m) < inject_Z j)%Q) by lra.
    rewrite <- Zlt_Qlt in Hlt. lia.
Qed.

(** The exponent used for a positive [q] below 2^53 is at most 52, and
    the reciprocal of the unit in the last place is an integer. *)
Lemma exponent_small (q : Q) :
  (0 < q)%Q -> (q < inject_Z (2 ^ 53))%Q ->
  Z.max (Js.binade q) (-1022) <= 52.
Proof.
  intros H0 H53. pose proof (binade_lower q H0) as Hb.
  destruct (Z.le_gt_cases (Js.binade q) 52) as [H|H]; [lia|].
  exfalso. assert (H' : 53 <= Js.binade q) by lia.
  apply pow2_le in H'. rewrite (pow2_Z 53) in H' by lia. lra.
Qed.

Lemma ulp_inverse (e : Z) :
  e <= 52 -> (Js.pow2 (e - 52) == / inject_Z (2 ^ (52 - e)))%Q.
Proof.
  intros H. replace (e - 52) with (- (52 - e)) by lia.
  unfold Js.pow2. rewrite Qpower_opp. fold (Js.pow2 (52 - e)).
  rewrite pow2_Z by lia. reflexivity.
Qed.

Lemma Qfloor_unique (r : Q) (k : Z) :
  (inject_Z k <= r)%Q -> (r < inject_Z (k + 1))%Q -> Qfloor r = k.
Proof.
  intros Hlo Hhi. pose proof (Qfloor_le r) as Hf.
  apply Qfloor_resp_le in Hlo. rewrite Qfloor_Z in Hlo.
  assert (H : (inject_Z (Qfloor r) < inject_Z (k + 1))%Q) by lra.
  rewrite <- Zlt_Qlt in H. lia.
Qed.

Lemma Qceiling_unique (r : Q) (k : Z) :
  (inject_Z (k - 1) < r)%Q -> (r <= inject_Z k)%Q -> Qceiling r = k.
Proof.
  intros Hlo Hhi. unfold Qceiling.
  rewrite (Qfloor_unique (- r) (- k)); [lia| |].
  - rewrite inject_Z_opp. lra.
  - replace (- k + 1) with (- (k - 1)) by lia. rewrite inject_Z_opp. lra.
Qed.

(** Rounding a positive number below 2^53 that lies between two integers
    gives a number between them. *)
Lemma to_double_pos_between (q : Q) (lo hi : Z) :
  (0 < q)%Q -> (inject_Z lo <= q)%Q -> (q <= inject_Z hi)%Q ->
  hi <= 2 ^ 53 -> (q < inject_Z (2 ^ 53))%Q ->
  exists r,
    Js.to_double_pos q = Js.Fin r
    /\ (inject_Z lo <= r)%Q /\ (r <= inject_Z hi)%Q
    /\ (r - Js.pow2 (Z.max (Js.binade q) (-1022) - 53) <= q)%Q
    /\ (q <= r + Js.pow2 (Z.max (Js.binade q) (-1022) - 53))%Q.
Proof.
  intros H0 Hlo Hhi Hh H53. unfold Js.to_double_pos.
  pose proof (exponent_small q H0 H53) as He.
  set (e := Z.max (Js.binade q) (-1022)) in *.
  pose proof (ulp_inverse e He) as Hu.
  set (S := 2 ^ (52 - e)) in *.
  assert (HS : 0 < S) by (apply Z.pow_pos_nonneg; lia).
  assert (HSq : (0 < inject_Z S)%Q) by (rewrite <- (Zlt_Qlt 0); exact HS).
  set (m := (q / Js.pow2 (e - 52))%Q).
  assert (Hm : (m == q * inject_Z S)%Q).
  { unfold m. rewrite Hu. field. lra. }
  pose proof (round_half_even_near m) as [Na Nb].
  assert (N1 : lo * S <= Js.round_half_even m).
  { apply round_half_even_above. rewrite inject_Z_mult, Hm. nra. }
  assert (N2 : Js.round_half_even m <= hi * S).
  { apply round_half_even_below. rewrite inject_Z_mult, Hm. nra. }
  set (n := Js.round_half_even m) in *.
  rewrite Zle_Qle in N1, N2. rewrite inject_Z_mult in N1, N2.
  set (r := Qred (inject_Z n * Js.pow2 (e - 52))).
  assert (Hr : (r == inject_Z n / inject_Z S)%Q).
  { unfold r. rewrite Qred_correct, Hu. field. lra. }
  assert (Hrlo : (inject_Z lo <= r)%Q).
  { rewrite Hr. apply Qle_shift_div_l; [exact HSq|exact N1]. }
  assert (Hrhi : (r <= inject_Z hi)%Q).
  { rewrite Hr. apply Qle_shift_div_r; [exact HSq|exact N2]. }
  assert (Hhalf : (Js.pow2 (e - 53) == (1 # 2) / inject_Z S)%Q).
  { replace (e - 53) with ((e - 52) + -1) by lia.
    rewrite pow2_add, Hu.
    assert (Hp : (Js.pow2 (-1) == 1 # 2)%Q) by reflexivity.
    rewrite Hp. field. lra. }
  assert (Hover : Qle_bool (Js.pow2 1024) r = false).
  { apply not_true_is_false. intros E. apply Qle_bool_iff in E.
    rewrite (pow2_Z 1024) in E by lia.
    assert (Hc : (inject_Z hi <= inject_Z (2 ^ 53))%Q)
      by (rewrite <- Zle_Qle; exact Hh).
    assert (Hb : (inject_Z (2 ^ 53) < inject_Z (2 ^ 1024))%Q)
      by (rewrite <- Zlt_Qlt; apply Z.pow_lt_mono_r; lia).
    lra. }
  rewrite Hover. exists r. split; [reflexivity|].
  split; [exact Hrlo|]. split; [exact Hrhi|].
  rewrite Hhalf, Hr. rewrite Hm in Na, Nb.
  assert (Hi : (0 < / inject_Z S)%Q) by (apply Qinv_lt_0_compat; exact HSq).
  unfold Qdiv. split.
  - assert (Hx : ((inject_Z n - (1 # 2)) * / inject_Z S
                  <= q * inject_Z S * / inject_Z S)%Q)
      by (apply Qmult_le_compat_r; [exact Na|lra]).
    assert (Hy : (q * inject_Z S * / inject_Z S == q)%Q) by (field; lra).
    lra.
  - assert (Hx : (q * inject_Z S * / inject_Z S
                  <= (inject_Z n + (1 # 2)) * / inject_Z S)%Q)
      by (apply Qmult_le_compat_r; [exact Nb|lra]).
    assert (Hy : (q * inject_Z S * / inject_Z S == q)%Q) by (field; lra).
    lra.
Qed.

Lemma to_double_pos_red (q r : Q) : Js.to_double_pos q = Js.Fin r -> Qred r = r.
Proof.
  unfold Js.to_double_pos. cbv zeta.
  destruct (Qle_bool _ _); [discriminate|]. intros H.
  apply (f_equal (fun n => match n with Js.Fin x => x | _ => 0%Q end)) in H.
  cbv beta iota in H. rewrite <- H. apply Qcanon.Qred_involutive.
Qed.

(** Integers up to 2^53 are doubles. *)
Lemma to_double_int (z : Z) :
  0 <= z < 2 ^ 53 -> Js.to_double (inject_Z z) = Js.Fin (inject_Z z).
Proof.
  intros Hz. unfold Js.to_double.
  destruct (Z.eq_dec z 0) as [->|Hne]; [reflexivity|].
  assert (H0 : (0 < inject_Z z)%Q) by (rewrite <- (Zlt_Qlt 0); lia).
  replace (Qcompare (inject_Z z) 0) with Gt
    by (symmetry; apply Qgt_alt; exact H0).
  destruct (to_double_pos_between (inject_Z z) z z H0)
    as (r & Hr & Hlo & Hhi & _); try lra; try lia.
  { rewrite <- Zlt_Qlt. lia. }
  rewrite Hr. f_equal.
  assert (E : (r == inject_Z z)%Q) by lra.
  rewrite <- (to_double_pos_red _ _ Hr), <- (Qred_inject_Z z).
  apply Qred_complete. exact E.
Qed.

(** The quotient of two integers below 2^53, rounded, has the floor and the
    ceiling of the exact quotient. *)
Lemma to_double_quotient (a b : Z) :
  0 <= a < 2 ^ 53 -> 0 < b < 2 ^ 53 ->
  exists r,
    Js.to_double (Qred (inject_Z a / inject_Z b)) = Js.Fin r
    /\ Qfloor r = a / b /\ Qceiling r = - (- a / b).
Proof.
  intros Ha Hb.
  assert (Hbq : (0 < inject_Z b)%Q) by (rewrite <- (Zlt_Qlt 0); lia).
  set (q := Qred (inject_Z a / inject_Z b)).
  assert (Hq : (q == inject_Z a / inject_Z b)%Q) by apply Qred_correct.
  destruct (Z.eq_dec a 0) as [->|Hne].
  { exists 0%Q. split; [reflexivity|]. rewrite Z.div_0_l by lia.
    split; reflexivity. }
  assert (Haq : (0 < inject_Z a)%Q) by (rewrite <- (Zlt_Qlt 0); lia).
  assert (H0 : (0 < q)%Q).
  { rewrite Hq. apply Qlt_shift_div_l; [exact Hbq|lra]. }
  unfold Js.to_double.
  replace (Qcompare q 0) with Gt by (symmetry; apply Qgt_alt; exact H0).
  set (k := a / b).
  pose proof (Z.div_mod a b ltac:(lia)) as Hdiv.
  pose proof (Z.mod_pos_bound a b ltac:(lia)) as Hmod.
  fold k in Hdiv.
  assert (Hk : 0 <= k) by (apply Z.div_pos; lia).
  assert (Hk53 : k + 1 <= 2 ^ 53).
  { assert (k <= a) by (apply Z.div_le_upper_bound; nia). lia. }
  assert (Hqb : (q * inject_Z b == inject_Z a)%Q).
  { rewrite Hq. field. lra. }
  assert (Hsplit : (inject_Z a
                    == inject_Z k * inject_Z b + inject_Z (a mod b))%Q).
  { rewrite <- inject_Z_mult, <- inject_Z_plus. rewrite Hdiv at 1.
    rewrite (Z.mul_comm b k). reflexivity. }
  assert (Hm0 : (0 <= inject_Z (a mod b))%Q)
    by (rewrite <- (Zle_Qle 0); lia).
  assert (Hm1 : (inject_Z (a mod b) < inject_Z b)%Q)
    by (rewrite <- Zlt_Qlt; lia).
  assert (Hlo : (inject_Z k <= q)%Q).
  { apply (Qmult_le_r _ _ (inject_Z b)); [exact Hbq|]. lra. }
  assert (Hhi : (q <= inject_Z (k + 1))%Q).
  { rewrite inject_Z_plus. change (inject_Z 1) with 1%Q.
    apply (Qmult_le_r _ _ (inject_Z b)); [exact Hbq|]. lra. }
  assert (H53 : (q < inject_Z (2 ^ 53))%Q).
  { assert (Hc : (inject_Z a < inject_Z (2 ^ 53))%Q)
      by (rewrite <- Zlt_Qlt; lia).
    assert (Hb1 : (1 <= inject_Z b)%Q) by (rewrite <- (Zle_Qle 1); lia).
    apply (Qmult_lt_r _ _ (inject_Z b)); [exact Hbq|]. nra. }
  destruct (Z.eq_dec (a mod b) 0) as [Hz|Hnz].
  - (* the quotient is an integer *)
    assert (Hqk : (q == inject_Z k)%Q).
    { apply (Qmult_inj_r _ _ (inject_Z b)); [lra|].
      rewrite Hqb, Hsplit, Hz. change (inject_Z 0) with 0%Q. ring. }
    destruct (to_double_pos_between q k k H0) as (r & Hr & R1 & R2 & _);
      try lra; try lia.
    exists r. split; [exact Hr|]. split.
    + apply Qfloor_unique; [exact R1|].
      rewrite inject_Z_plus. change (inject_Z 1) with 1%Q. lra.
    + rewrite (Z.div_opp_l_z a b) by lia. rewrite Z.opp_involutive.
      fold k. apply Qceiling_unique; [|exact R2].
      unfold Z.sub. rewrite inject_Z_plus, inject_Z_opp.
      change (inject_Z 1) with 1%Q. lra.
  - (* the quotient lies strictly between two integers *)
    destruct (to_double_pos_between q k (k + 1) H0 Hlo Hhi Hk53 H53)
      as (r & Hr & R1 & R2 & E1 & E2).
    set (h := Js.pow2 (Z.max (Js.binade q) (-1022) - 53)) in *.
    assert (Hinv : (0 < / inject_Z b)%Q) by (apply Qinv_lt_0_compat; exact Hbq).
    assert (Hh : (h < / inject_Z b)%Q).
    { assert (Hb53 : (inject_Z b < inject_Z (2 ^ 53))%Q)
        by (rewrite <- Zlt_Qlt; lia).
      assert (Hp53 : (Js.pow2 (-53) == / inject_Z (2 ^ 53))%Q) by reflexivity.
      assert (Hinv53 : (/ inject_Z (2 ^ 53) < / inject_Z b)%Q).
      { apply Qinv_lt_contravar in Hb53; [exact Hb53|exact Hbq|].
        rewrite <- (Zlt_Qlt 0). lia. }
      unfold h. destruct (Z.max_spec (Js.binade q) (-1022)) as [[_ ->]|[_ ->]].
      - assert (Hle : (Js.pow2 (-1022 - 53) <= Js.pow2 (-53))%Q)
          by (apply pow2_le; lia).
        lra.
      - replace (Js.binade q - 53) with (Js.binade q + -53) by lia.
        rewrite pow2_add, Hp53.
        pose proof (binade_lower q H0) as Hbl.
        assert (Ha53 : (inject_Z a < inject_Z (2 ^ 53))%Q)
          by (rewrite <- Zlt_Qlt; lia).
        assert (H253 : (0 < inject_Z (2 ^ 53))%Q)
          by (rewrite <- (Zlt_Qlt 0); lia).
        assert (Hi53 : (0 < / inject_Z (2 ^ 53))%Q)
          by (apply Qinv_lt_0_compat; exact H253).
        apply Qle_lt_trans with (q * / inject_Z (2 ^ 53))%Q.
        + apply Qmult_le_compat_r; [exact Hbl|lra].
        + rewrite Hq. unfold Qdiv.
          setoid_replace (inject_Z a * / inject_Z b * / inject_Z (2 ^ 53))%Q
            with ((inject_Z a * / inject_Z (2 ^ 53)) * / inject_Z b)%Q
            by ring.
          setoid_replace (/ inject_Z b)%Q with (1 * / inject_Z b)%Q at 2
            by ring.
          apply Qmult_lt_compat_r; [exact Hinv|].
          apply Qlt_shift_div_r; [exact H253|lra]. }
    assert (Hm1' : (1 <= inject_Z (a mod b))%Q)
      by (rewrite <- (Zle_Qle 1); lia).
    assert (Hm2' : (inject_Z (a mod b) <= inject_Z b - 1)%Q).
    { assert (a mod b <= b - 1) by lia.
      rewrite Zle_Qle in H. unfold Z.sub in H. rewrite inject_Z_plus in H.
      exact H. }
    assert (Hq1 : (inject_Z k + / inject_Z b <= q)%Q).
    { apply (Qmult_le_r _ _ (inject_Z b)); [exact Hbq|].
      setoid_replace ((inject_Z k + / inject_Z b) * inject_Z b)%Q
        with (inject_Z k * inject_Z b + 1)%Q by (field; lra).
      lra. }
    assert (Hq2 : (q <= inject_Z k + 1 - / inject_Z b)%Q).
    { apply (Qmult_le_r _ _ (inject_Z b)); [exact Hbq|].
      setoid_replace ((inject_Z k + 1 - / inject_Z b) * inject_Z b)%Q
        with (inject_Z k * inject_Z b + inject_Z b - 1)%Q by (field; lra).
      lra. }
    exists r. split; [exact Hr|]. split.
    + apply Qfloor_unique; [exact R1|].
      rewrite inject_Z_plus. change (inject_Z 1) with 1%Q. lra.
    + rewrite (Z.div_opp_l_nz a b) by lia.
      replace (- (- (a / b) - 1)) with (k + 1) by (unfold k; lia).
      apply Qceiling_unique; [|exact R2].
      replace (k + 1 - 1) with k by lia. lra.
Qed.

Lemma fl_int (z : Z) : 0 <= z < 2 ^ 53 -> Js.fl (Js.int z) = Js.int z.
Proof. intros H. unfold Js.fl, Js.int. apply to_double_int. exact H. Qed.

(** Rounding at work: 2^53 + 1 lies half way between two doubles and goes
    to the even one, 2^53 + 3 goes up to 2^53 + 4, a tenth is not a double,
    and 10^400 is beyond the largest double. *)
Lemma fl_examples :
  Js.fl (Js.int (2 ^ 53 + 1)) = Js.int (2 ^ 53)
  /\ Js.fl (Js.int (2 ^ 53 + 3)) = Js.int (2 ^ 53 + 4)
  /\ Js.fl (Js.Fin (1 # 10))
     = Js.Fin (3602879701896397 # 36028797018963968)
  /\ Js.fl (Js.int (10 ^ 400)) = Js.PInf
  /\ Js.fl (Js.int (- (2 ^ 53 + 1))) = Js.int (- 2 ^ 53).
Proof. repeat split; vm_compute; reflexivity. Qed.

Lemma floor_fl_div_int (a b : Z) :
  0 <= a < 2 ^ 53 -> 0 < b < 2 ^ 53 ->
  Js.floor (Js.fl (Js.div (Js.int a) (Js.int b))) = Js.int (a / b).
Proof.
  intros Ha Hb. rewrite div_int_pos by lia. cbn [Js.fl].
  destruct (to_double_quotient a b Ha Hb) as (r & -> & Hf & _).
  unfold Js.floor. rewrite Hf. reflexivity.
Qed.

Lemma ceil_fl_div_int (a b : Z) :
  0 <= a < 2 ^ 53 -> 0 < b < 2 ^ 53 ->
  Js.ceil (Js.fl (Js.div (Js.int a) (Js.int b))) = Js.int (- (- a / b)).
Proof.
  intros Ha Hb. rewrite div_int_pos by lia. cbn [Js.fl].
  destruct (to_double_quotient a b Ha Hb) as (r & -> & _ & Hc).
  unfold Js.ceil. rewrite Hc. reflexivity.
Qed.

(** ** Pagination *)

(** C6 as stated fails.  The quotients and sums of [buildPagination] are
    doubles: with limit 1 and offset 2^53 the current page is 2^53, the
    rounded value of 2^53 + 1, and not floor(offset / limit) + 1. *)
Lemma buildPagination_rounds_large_offset :
  currentPage (buildPagination (Js.int 0) (Js.int 1) (Js.int (2 ^ 53)))
  = Js.int (2 ^ 53)
  /\ ~ (exists k,
          currentPage (buildPagination (Js.int 0) (Js.int 1) (Js.int (2 ^ 53)))
          = Js.int (k + 1)
          /\ k * 1 <= 2 ^ 53 < (k + 1) * 1).
Proof.
  assert (H : currentPage
                (buildPagination (Js.int 0) (Js.int 1) (Js.int (2 ^ 53)))
              = Js.int (2 ^ 53)) by (vm_compute; reflexivity).
  split; [exact H|]. intros (k & Hk & Hlo & Hhi).
  rewrite H in Hk. unfold Js.int, inject_Z in Hk.
  injection Hk as Hk. lia.
Qed.

(** C6 as amended.  For integers total >= 0, limit > 0 and offset >= 0 with
    total < 2^53 and offset + limit < 2^53, [buildPagination] gives
    currentPage = floor(offset / limit) + 1, totalPages = ceil(total / limit)
    (the least number of pages of [limit] items that hold [total] items),
    hasMore = (offset + limit < total) and hasPrevious = (offset > 0); a
    total of 0 gives 0 pages and no more; (95, 20, 40) gives page 3 of 5
    with more and with previous. *)
Theorem buildPagination_spec (total limit offset : Z) :
  0 <= total -> 0 < limit -> 0 <= offset ->
  total < 2 ^ 53 -> offset + limit < 2 ^ 53 ->
  let p := buildPagination (Js.int total) (Js.int limit) (Js.int offset) in
  (exists k, currentPage p = Js.int (k + 1)
             /\ k * limit <= offset < (k + 1) * limit)
  /\ (exists n, totalPages p = Js.int n
                /\ (n - 1) * limit < total <= n * limit)
  /\ hasMore p = (offset + limit <? total)
  /\ hasPrevious p = (0 <? offset)
  /\ (total = 0 -> totalPages p = Js.int 0 /\ hasMore p = false)
  /\ (total = 95 -> limit = 20 -> offset = 40 ->
      currentPage p = Js.int 3 /\ totalPages p = Js.int 5
      /\ hasMore p = true /\ hasPrevious p = true).
Proof.
  intros Ht Hl Ho Ht53 Hs53 p.
  assert (Hc : currentPage p = Js.int (offset / limit + 1)).
  { unfold p, buildPagination; cbn [currentPage].
    rewrite floor_fl_div_int, add_int by lia. apply fl_int.
    pose proof (Z.div_pos offset limit Ho Hl).
    assert (offset / limit <= offset)
      by (apply Z.div_le_upper_bound; nia).
    lia. }
  assert (Hp : totalPages p = Js.int (- (- total / limit))).
  { unfold p, buildPagination; cbn [totalPages].
    apply ceil_fl_div_int; lia. }
  assert (Hm : hasMore p = (offset + limit <? total)).
  { unfold p, buildPagination; cbn [hasMore].
    rewrite add_int, fl_int by lia. apply lt_int. }
  assert (Hv : hasPrevious p = (0 <? offset)).
  { unfold p, buildPagination; cbn [hasPrevious]. apply gt_int. }
  repeat split.
  - exists (offset / limit). split; [exact Hc|].
    pose proof (Z.mul_div_le offset limit Hl).
    pose proof (Z.mul_succ_div_gt offset limit Hl). nia.
  - exists (- (- total / limit)). split; [exact Hp|].
    pose proof (Z.mul_div_le (- total) limit Hl).
    pose proof (Z.mul_succ_div_gt (- total) limit Hl). nia.
  - exact Hm.
  - exact Hv.
  - subst total. rewrite Hp. reflexivity.
  - subst total. rewrite Hm. apply Z.ltb_ge. lia.
  - subst. rewrite Hc. reflexivity.
  - subst. rewrite Hp. reflexivity.
  - subst. rewrite Hm. reflexivity.
  - subst. rewrite Hv. reflexivity.
Qed.

Lemma buildPagination_spec_witness :
  let p := buildPagination (Js.int 95) (Js.int 20) (Js.int 40) in
  currentPage p = Js.int 3 /\ totalPages p = Js.int 5
  /\ hasMore p = true /\ hasPrevious p = true.
Proof.
  refine (proj2 (proj2 (proj2 (proj2 (proj2
            (buildPagination_spec 95 20 40 _ _ _ _ _))))) eq_refl eq_refl
            eq_refl);
    lia.
Defined.

(** ** Page sizes *)

Lemma lt_asym (a b : Js.number) : Js.lt a b = true -> Js.lt b a = false.
Proof.
  destruct a as [| |x|], b as [| |y|]; cbn [Js.lt]; try congruence.
  rewrite <- (Qcompare_antisym x y).
  destruct (Qcompare x y); cbn [CompOpp]; congruence.
Qed.

Lemma lt_irrefl (a : Js.number) : Js.lt a a = false.
Proof.
  destruct (Js.lt a a) eqn:E; [|reflexivity].
  rewrite (lt_asym _ _ E) in E. discriminate.
Qed.

Lemma min_not_above_right (a b : Js.number) : Js.gt (Js.min a b) b = false.
Proof.
  unfold Js.gt, Js.min.
  destruct a as [| |x|], b as [| |y|]; try reflexivity;
    match goal with
    | |- Js.lt ?b (if Js.lt ?b ?a then _ else _) = false =>
        destruct (Js.lt b a) eqn:E; [apply lt_irrefl | exact E]
    end.
Qed.

Lemma min_not_above_left (a b : Js.number) : Js.gt (Js.min a b) a = false.
Proof.
  unfold Js.gt, Js.min.
  destruct a as [| |x|], b as [| |y|]; try reflexivity;
    match goal with
    | |- Js.lt ?a (if Js.lt ?b ?a then _ else _) = false =>
        destruct (Js.lt b a) eqn:E; [apply lt_asym; exact E | apply lt_irrefl]
    end.
Qed.

(** The food list never asks for more than 100 items. *)
Lemma getAllFoods_limit_clamped (limit : option Js.jsstring) :
  Js.gt (getAllFoods_limit limit) (Js.int 100) = false.
Proof. apply min_not_above_right. Qed.

(** Neither does the pagination middleware. *)
Lemma parsePaginationParams_limit_clamped (page limit : option Js.jsstring) :
  Js.gt (snd (fst (parsePaginationParams page limit))) (Js.int 100) = false.
Proof. apply min_not_above_left. Qed.

(** C7, at the request GET /api/datban?limit=101: the effective limit is the
    client's 101, the statement is run with LIMIT 101 and answers 101 rows,
    and the pagination of the response carries limit 101. *)
Theorem get_datban_limit_101_not_clamped :
  list_limit limit_101 = Js.int 101
  /\ exists data w',
       get_datban limit_101 crowded_world
       = (inl {| status := 200;
                 json := Body_list data
                           {| pg_page := Js.int 1; pg_limit := Js.int 101;
                              pg_total := Js.int 101;
                              pg_pages := Js.int 1 |} |}, w')
       /\ List.length data = 101%nat.
Proof.
  split; [reflexivity|].
  eexists. eexists. split.
  - vm_compute. reflexivity.
  - reflexivity.
Qed.

(** ** Search patterns *)

Lemma like_tokens_escaped (s rest : Js.jsstring) :
  no_backslash s = true ->
  like_tokens (Js.escape_class is_wildcard s ++ rest)
  = List.map Literal s ++ like_tokens rest.
Proof.
  induction s as [|c s IH]; intros H; [reflexivity|].
  cbn [no_backslash forallb] in H. apply andb_prop in H. destruct H as [Hc Hs].
  cbn [Js.escape_class List.map].
  destruct (is_wildcard c) eqn:W.
  - cbn. rewrite (IH Hs). reflexivity.
  - cbn [app like_tokens].
    unfold is_wildcard in W. apply orb_false_elim in W. destruct W as [W1 W2].
    apply negb_true_iff in Hc. rewrite Hc, W1, W2. rewrite (IH Hs). reflexivity.
Qed.

Lemma like_match_run (ts : list like_token) (t : Js.jsstring) :
  like_match (Any_run :: ts) t
  = (like_match ts t
     || match t with
        | _ :: t' => like_match (Any_run :: ts) t'
        | [] => false
        end)%bool.
Proof. destruct t; reflexivity. Qed.

Lemma like_match_run_end (t : Js.jsstring) : like_match [Any_run] t = true.
Proof.
  induction t as [|x t IH]; [reflexivity|].
  rewrite like_match_run, IH. apply orb_true_r.
Qed.

Lemma like_match_literals (s t : Js.jsstring) :
  like_match (List.map Literal s ++ [Any_run]) t = starts_with s t.
Proof.
  revert t. induction s as [|c s IH]; intros t.
  - cbn [List.map app]. rewrite like_match_run_end. destruct t; reflexivity.
  - destruct t as [|x t]; [reflexivity|].
    cbn [List.map app like_match starts_with]. rewrite IH. reflexivity.
Qed.

Lemma like_match_contains (s t : Js.jsstring) :
  like_match (Any_run :: List.map Literal s ++ [Any_run]) t = contains s t.
Proof.
  induction t as [|x t IH].
  - rewrite like_match_run, like_match_literals. reflexivity.
  - rewrite like_match_run, like_match_literals, IH. reflexivity.
Qed.

(** A search text without backslash, without angle brackets and without
    outer white space, short enough not to be cut, is searched for as it is
    written: its [%] and [_] are literal. *)
Lemma search_pattern_literal (s text : Js.jsstring) :
  s <> [] ->
  no_backslash s = true ->
  Js.trim s = s ->
  Js.remove_class is_angle s = s ->
  (List.length (Js.escape_class is_wildcard s) <= 100)%nat ->
  sql_like text (search_pattern s) = contains s text.
Proof.
  intros Hne Hb Ht Ha Hl.
  unfold sql_like, search_pattern, sanitizeSearchQuery.
  destruct s as [|c s]; [congruence|].
  rewrite Ht, Ha. unfold Js.substring0. rewrite firstn_all2 by exact Hl.
  change (Js.lit "%") with [37%N].
  change ([37%N] ++ Js.escape_class is_wildcard (c :: s) ++ [37%N])
    with (37%N :: (Js.escape_class is_wildcard (c :: s) ++ [37%N])).
  change (like_tokens (37%N :: ?x)) with (Any_run :: like_tokens x).
  cbn [like_tokens]. change (N.eqb 37 92) with false.
  change (N.eqb 37 37) with true. cbv iota.
  rewrite like_tokens_escaped by exact Hb.
  apply like_match_contains.
Qed.

(** For the search text 50% the pattern finds exactly the texts that hold
    the three characters 50%. *)
Lemma search_50_percent (text : Js.jsstring) :
  sql_like text (search_pattern (Js.lit "50%")) = contains (Js.lit "50%") text.
Proof.
  apply search_pattern_literal; try reflexivity.
  - discriminate.
  - cbn. lia.
Qed.

(** C8, at the search text made of a backslash and a percent sign: the
    backslash is not escaped, so the pattern reads "one backslash, then
    anything"; it finds a text that holds a backslash and no percent sign,
    in which the search text does not occur. *)
Theorem search_backslash_percent_is_wildcard :
  search_pattern backslash_percent = [37%N; 92%N; 92%N; 37%N; 37%N]
  /\ like_tokens (search_pattern backslash_percent)
     = [Any_run; Literal 92%N; Any_run; Any_run]
  /\ sql_like [97%N; 92%N; 98%N] (search_pattern backslash_percent) = true
  /\ contains backslash_percent [97%N; 92%N; 98%N] = false.
Proof. repeat split. Qed.

(** The cut to 100 characters comes after the escaping and can fall
    between a backslash and its wildcard: the backslash then escapes the
    closing [%] of the pattern, and a text that holds the search text is
    found only if it ends with it. *)
Lemma search_cut_splits_escape :
  search_pattern long_search = [37%N] ++ repeat 97%N 99 ++ [92%N; 37%N]
  /\ contains long_search (long_search ++ [120%N]) = true
  /\ sql_like (long_search ++ [120%N]) (search_pattern long_search) = false
  /\ sql_like long_search (search_pattern long_search) = true.
Proof. repeat split. Qed.

(** ** The validator *)

Lemma has_error_app (e : verror) (a b : list verror) :
  has_error e (a ++ b) = (has_error e a || has_error e b)%bool.
Proof. unfold has_error. apply existsb_app. Qed.

Lemma has_error_push_if (e e' : verror) (c : bool) (errors : list verror) :
  has_error e (push_if c e' errors)
  = (has_error e errors || (c && verror_eqb e e'))%bool.
Proof.
  unfold push_if. destruct c.
  - rewrite has_error_app. cbn. rewrite orb_false_r. reflexivity.
  - cbn. rewrite orb_false_r. reflexivity.
Qed.

(** Which checks can push a given message: every message has one place. *)
Ltac errors_of_checks :=
  unfold validateReservationData, validate_ghi_chu, validate_so_luong_khach,
    validate_gio, validate_ngay, validate_email, validate_sdt,
    validate_ten_khach;
  repeat match goal with
    | |- context [if ?c then _ else _] =>
        lazymatch c with
        | context [has_error] => fail
        | _ => destruct c eqn:?
        end
    end;
  repeat rewrite has_error_push_if;
  cbn [has_error existsb verror_eqb orb andb];
  repeat rewrite andb_false_r; repeat rewrite andb_true_r;
  repeat rewrite orb_false_r; repeat rewrite orb_false_l.

Lemma local_day_start (rt : runtime) (t : Z) :
  setHours0 rt t = local_day rt t * ms_per_day - tz_offset rt.
Proof.
  unfold setHours0, local_day.
  pose proof (Z.div_mod (t + tz_offset rt) ms_per_day) as H.
  unfold ms_per_day in *. lia.
Qed.

Lemma local_day_bounds (rt : runtime) (t : Z) :
  local_day rt t * ms_per_day <= t + tz_offset rt
  < (local_day rt t + 1) * ms_per_day.
Proof.
  unfold local_day.
  pose proof (Z.div_mod (t + tz_offset rt) ms_per_day) as H.
  pose proof (Z.mod_pos_bound (t + tz_offset rt) ms_per_day) as B.
  unfold ms_per_day in *. lia.
Qed.

(** The past-date message is there exactly when the date parses to an
    instant before the start of today. *)
Lemma date_past_iff (rt : runtime) (data : payload) :
  has_error E_date_past (validateReservationData rt data)
  = (Js.present (p_ngay data)
     && date_lt (Date_parse rt (str_of (p_ngay data)))
                (setHours0 rt (Date_now rt)))%bool.
Proof. errors_of_checks; reflexivity. Qed.

(** The booking-window message is there exactly when the date parses to an
    instant later than now plus 30 days. *)
Lemma date_window_iff (rt : runtime) (data : payload) :
  has_error E_date_window (validateReservationData rt data)
  = (Js.present (p_ngay data)
     && date_gt (Date_parse rt (str_of (p_ngay data)))
                (addDays (Date_now rt) 30))%bool.
Proof. errors_of_checks; reflexivity. Qed.

(** When the date of the body parses to an instant whose local calendar
    day is before today's, the past-date message is among the errors,
    whatever the other fields of the body are; when its day is more than 30
    days after today's, the booking-window message is among them. *)
Lemma date_errors_of_local_day (rt : runtime) (data : payload)
                               (s : Js.jsstring) (d : Z) :
  p_ngay data = Some s -> s <> [] -> Date_parse rt s = Some d ->
  (local_day rt d < local_day rt (Date_now rt) ->
   has_error E_date_past (validateReservationData rt data) = true)
  /\ (local_day rt (Date_now rt) + 30 < local_day rt d ->
      has_error E_date_window (validateReservationData rt data) = true).
Proof.
  intros Hs Hne Hd.
  assert (Hp : Js.present (p_ngay data) = true).
  { rewrite Hs. destruct s; [congruence|reflexivity]. }
  pose proof (local_day_bounds rt d) as Bd.
  pose proof (local_day_bounds rt (Date_now rt)) as Bn.
  split; intros H.
  - rewrite date_past_iff, Hp, Hs. cbn [str_of andb]. rewrite Hd.
    cbn [date_lt]. rewrite local_day_start. apply Z.ltb_lt.
    unfold ms_per_day in *. nia.
  - rewrite date_window_iff, Hp, Hs. cbn [str_of andb]. rewrite Hd.
    cbn [date_gt]. apply Z.ltb_lt. unfold addDays.
    unfold ms_per_day in *. nia.
Qed.

(** The same for the day [n] that the text of the date names.  [new Date]
    reads a text written YYYY-MM-DD as midnight UTC of that day and other
    writings as an instant of that day in local time.  A day before today's
    gets the past-date message in every time zone.  A day more than 30 days
    after today's gets the booking-window message when the text is read in
    local time, and when it is read as midnight UTC in a zone that is not
    west of UTC. *)
Lemma date_errors_of_written_day (rt : runtime) (data : payload)
                                 (s : Js.jsstring) (d n : Z) :
  p_ngay data = Some s -> s <> [] -> Date_parse rt s = Some d ->
  - ms_per_day < tz_offset rt < ms_per_day ->
  d = n * ms_per_day \/ local_day rt d = n ->
  (n < local_day rt (Date_now rt) ->
   has_error E_date_past (validateReservationData rt data) = true)
  /\ (local_day rt (Date_now rt) + 30 < n ->
      0 <= tz_offset rt \/ local_day rt d = n ->
      has_error E_date_window (validateReservationData rt data) = true).
Proof.
  intros Hs Hne Hd Htz Hread.
  assert (Hp : Js.present (p_ngay data) = true).
  { rewrite Hs. destruct s; [congruence|reflexivity]. }
  pose proof (local_day_bounds rt d) as Bd.
  pose proof (local_day_bounds rt (Date_now rt)) as Bn.
  split.
  - intros H. rewrite date_past_iff, Hp, Hs. cbn [str_of andb]. rewrite Hd.
    cbn [date_lt]. rewrite local_day_start. apply Z.ltb_lt.
    destruct Hread as [->| <-]; unfold ms_per_day in *; nia.
  - intros H Hzone. rewrite date_window_iff, Hp, Hs. cbn [str_of andb].
    rewrite Hd. cbn [date_gt]. apply Z.ltb_lt. unfold addDays.
    destruct Hzone as [Hz| <-]; [destruct Hread as [->| <-]|];
      unfold ms_per_day in *; nia.
Qed.

Lemma date_errors_examples :
  has_error E_date_past
    (validateReservationData (example_runtime noon_2025_01_05)
       (example_payload "2025-01-04" "19:00")) = true
  /\ has_error E_date_window
       (validateReservationData (example_runtime noon_2025_01_05)
          (example_payload "2025-02-05" "19:00")) = true.
Proof.
  split.
  - apply (proj1 (date_errors_of_written_day (example_runtime noon_2025_01_05)
                    (example_payload "2025-01-04" "19:00")
                    (Js.lit "2025-01-04") 1735948800000 20092
                    eq_refl ltac:(discriminate) eq_refl
                    ltac:(vm_compute; split; reflexivity)
                    (or_introl eq_refl))).
    vm_compute. reflexivity.
  - apply (proj2 (date_errors_of_written_day (example_runtime noon_2025_01_05)
                    (example_payload "2025-02-05" "19:00")
                    (Js.lit "2025-02-05") 1738713600000 20124
                    eq_refl ltac:(discriminate) eq_refl
                    ltac:(vm_compute; split; reflexivity)
                    (or_introl eq_refl))).
    + vm_compute. reflexivity.
    + left. vm_compute. discriminate.
Qed.

(** C5, at a body whose date is 31 days after today on a clock west of UTC:
    the booking-window message is missing.  The clock is five hours west of
    UTC and shows 20:00 of 2025-01-05; the body asks for 2025-02-05.
    [new Date("2025-02-05")] is midnight UTC of that day, which is 19:00 of
    2025-02-04 on the local clock and not later than now plus 30 days: the
    validator returns no error at all. *)
Theorem window_error_missed_west_of_utc :
  local_day runtime_west (Date_now runtime_west) = 20093
  /\ parse_day (Js.lit "2025-01-05") = Some 20093
  /\ parse_day (Js.lit "2025-02-05") = Some (20093 + 31)
  /\ has_error E_date_window
       (validateReservationData runtime_west
          (example_payload "2025-02-05" "19:00")) = false
  /\ validateReservationData runtime_west
       (example_payload "2025-02-05" "19:00") = [].
Proof. repeat split. Qed.

(** The opening-hours message is there exactly when the time is given and
    the comparisons of line 821 say so. *)
Lemma time_window_iff (rt : runtime) (data : payload) :
  has_error E_time_window (validateReservationData rt data)
  = (Js.present (p_gio data) && outside_hours rt (str_of (p_gio data)))%bool.
Proof. errors_of_checks; reflexivity. Qed.

(** The hour-has-passed message is there exactly when date and time are
    given, the date falls on today's local day and date and time together
    parse to an instant that is not after now. *)
Lemma time_passed_iff (rt : runtime) (data : payload) :
  has_error E_time_passed (validateReservationData rt data)
  = (Js.present (p_gio data) && Js.present (p_ngay data)
     && same_toDateString rt (Date_parse rt (str_of (p_ngay data)))
                          (Date_now rt)
     && date_le (Date_parse rt (str_of (p_ngay data) ++ Js.lit " "
                                ++ str_of (p_gio data)))
                (Date_now rt))%bool.
Proof. errors_of_checks; reflexivity. Qed.

(** For a time whose hour and minute components are the integers [h] and
    [m], with [m] a minute of the hour, the comparisons of line 821 reject
    exactly the times outside 10:00 - 21:30, both ends included. *)
Lemma outside_hours_numeric (rt : runtime) (gio hs ms : Js.jsstring)
                            (rest : list Js.jsstring) (h m : Z) :
  Js.split 58 gio = hs :: ms :: rest ->
  Number_ rt hs = Js.int h -> Number_ rt ms = Js.int m ->
  0 <= m <= 59 ->
  outside_hours rt gio
  = negb ((10 * 60 + 0 <=? h * 60 + m) && (h * 60 + m <=? 21 * 60 + 30)).
Proof.
  intros Hs Hh Hm Hr. unfold outside_hours, hours_minutes.
  rewrite Hs. cbn [List.map nth]. rewrite Hh, Hm.
  rewrite lt_int, !gt_int, eqn_int.
  destruct (Z.ltb_spec h 10), (Z.ltb_spec 21 h), (Z.eqb_spec h 21),
    (Z.ltb_spec 30 m), (Z.leb_spec (10 * 60 + 0) (h * 60 + m)),
    (Z.leb_spec (h * 60 + m) (21 * 60 + 30));
    cbn [orb andb negb]; try reflexivity; lia.
Qed.

(** 21:30 is accepted, 21:31 and 22:00 are refused, 09:59 is refused and
    10:00 accepted. *)
Lemma opening_hours_examples :
  let rt := example_runtime noon_2025_01_05 in
  outside_hours rt (Js.lit "21:30") = false
  /\ outside_hours rt (Js.lit "21:31") = true
  /\ outside_hours rt (Js.lit "22:00") = true
  /\ outside_hours rt (Js.lit "09:59") = true
  /\ outside_hours rt (Js.lit "10:00") = false.
Proof. repeat split. Qed.

(** C4, at a body whose time is the text abc (with tomorrow's date): the
    hour is NaN, every comparison of line 821 is false, and the validator
    returns no error at all. *)
Theorem validator_accepts_unparsable_time :
  let rt := example_runtime noon_2025_01_05 in
  let data := example_payload "2025-01-06" "abc" in
  hours_minutes rt (Js.lit "abc") = (Js.NaN, Js.NaN)
  /\ outside_hours rt (Js.lit "abc") = false
  /\ validateReservationData rt data = [].
Proof. repeat split. Qed.

(** ** Data access *)

Lemma str_eqb_eq (a b : Js.jsstring) : Js.str_eqb a b = true <-> a = b.
Proof.
  revert b. induction a as [|x a IH]; intros [|y b]; cbn [Js.str_eqb];
    split; intros H; try reflexivity; try discriminate.
  - apply andb_prop in H. destruct H as [H1 H2].
    apply N.eqb_eq in H1. apply IH in H2. congruence.
  - injection H as -> ->. rewrite N.eqb_refl. cbn [andb].
    apply IH. reflexivity.
Qed.

Lemma str_eqb_refl (a : Js.jsstring) : Js.str_eqb a a = true.
Proof. apply str_eqb_eq. reflexivity. Qed.

Lemma trang_thai_eqb_eq (a b : trang_thai_t) :
  trang_thai_eqb a b = true <-> a = b.
Proof. destruct a, b; cbn; split; intros H; congruence. Qed.

(** What a call of [executeQuery] comes to: an exception when the module is
    not loaded, a logged failure when the server refuses the statement, the
    rows and the new table otherwise. *)
Lemma executeQuery_run {A} (q : statement A) (w : world) :
  executeQuery q w
  = if executeQuery_loaded w then
      if hd false (faults w) then
        (inl Failure, logged Log_database_query_error (next_call w))
      else
        match run_statement q (store w) with
        | Some (a, db') => (inl (Success a), set_store db' (next_call w))
        | None =>
            (inl Failure, logged Log_database_query_error (next_call w))
        end
    else (inr TypeError, w).
Proof.
  unfold executeQuery, executeQuery_impl, try_catch, bind, pool_execute,
    console_error, ret.
  destruct (executeQuery_loaded w); [|reflexivity].
  destruct (hd false (faults w)); [reflexivity|].
  destruct (run_statement q (store w)) as [[a db']|]; reflexivity.
Qed.

Lemma checkDuplicateReservation_run (sdt ngay gio : Js.jsstring)
                                    (excludeId : option Z) (w : world) :
  checkDuplicateReservation sdt ngay gio excludeId w
  = if executeQuery_loaded w then
      if hd false (faults w) then
        (inl false, logged Log_database_query_error (next_call w))
      else (inl (0 <? duplicates_counted sdt ngay gio excludeId w),
            next_call w)
    else (inl false, logged Log_error_checking_duplicate w).
Proof.
  unfold checkDuplicateReservation, try_catch, bind.
  rewrite executeQuery_run.
  destruct (executeQuery_loaded w); [|reflexivity].
  destruct (hd false (faults w)); [reflexivity|].
  reflexivity.
Qed.

(** C9.  When the data access of the conflict detector fails - the router's
    [executeQuery] is missing and the call throws, or the server refuses the
    statement and [executeQuery] answers without success - the detector
    returns false to its caller, one error line is written to the console
    and the table is as before. *)
Theorem detector_fails_open (sdt ngay gio : Js.jsstring)
                            (excludeId : option Z) (w : world) :
  executeQuery_loaded w = false \/ hd false (faults w) = true ->
  exists w' line,
    checkDuplicateReservation sdt ngay gio excludeId w = (inl false, w')
    /\ console w' = console w ++ [line]
    /\ store w' = store w
    /\ (executeQuery_loaded w = false -> line = Log_error_checking_duplicate)
    /\ (executeQuery_loaded w = true -> line = Log_database_query_error).
Proof.
  intros H. rewrite checkDuplicateReservation_run.
  destruct (executeQuery_loaded w) eqn:L.
  - destruct H as [H|H]; [discriminate|]. rewrite H.
    exists (logged Log_database_query_error (next_call w)),
      Log_database_query_error.
    repeat split; intros; congruence.
  - exists (logged Log_error_checking_duplicate w),
      Log_error_checking_duplicate.
    repeat split; intros; congruence.
Qed.

Lemma detector_fails_open_witness :
  (exists w' line,
     checkDuplicateReservation (Js.lit "0912345678") (Js.lit "2025-01-06")
       (Js.lit "19:00") None (with_faults [true] crowded_world)
     = (inl false, w')
     /\ console w' = [line] /\ store w' = store crowded_world).
Proof.
  destruct (detector_fails_open (Js.lit "0912345678") (Js.lit "2025-01-06")
              (Js.lit "19:00") None (with_faults [true] crowded_world)
              (or_intror eq_refl))
    as (w' & line & H1 & H2 & H3 & _).
  exists w', line. repeat split; assumption.
Defined.

Lemma filter_length_pos {A} (f : A -> bool) (l : list A) :
  (0 < List.length (List.filter f l))%nat <-> exists x, In x l /\ f x = true.
Proof.
  split.
  - intros H. destruct (List.filter f l) as [|x l'] eqn:E; [inversion H|].
    exists x. apply filter_In. rewrite E. left. reflexivity.
  - intros (x & Hx & Hf).
    assert (Hi : In x (List.filter f l)) by (apply filter_In; auto).
    destruct (List.filter f l); [destruct Hi | cbn; lia].
Qed.

Lemma duplicate_where_iff (p d t : Js.jsstring) (ex : option Z)
                          (r : dat_ban) :
  duplicate_where p d t ex r = true
  <-> sdt r = p /\ ngay r = d /\ gio r = t /\ trang_thai r <> da_huy
      /\ (forall e, ex = Some e -> id_datban r <> e).
Proof.
  unfold duplicate_where, is_active.
  rewrite !andb_true_iff, !str_eqb_eq, negb_true_iff.
  split.
  - intros ((((H1 & H2) & H3) & H4) & H5). repeat split; auto.
    + intros E. apply trang_thai_eqb_eq in E. congruence.
    + intros e ->. apply negb_true_iff, Z.eqb_neq in H5. exact H5.
  - intros (H1 & H2 & H3 & H4 & H5). repeat split; auto.
    + destruct (trang_thai_eqb (trang_thai r) da_huy) eqn:E; [|reflexivity].
      apply trang_thai_eqb_eq in E. contradiction.
    + destruct ex as [e|]; [|reflexivity].
      apply negb_true_iff, Z.eqb_neq. apply H5. reflexivity.
Qed.

(** With identifiers from 1 on, leaving out the exclusion for a falsy
    [excludeId] changes nothing. *)
Lemma duplicate_where_truthy (p d t : Js.jsstring) (ex : option Z)
                             (r : dat_ban) :
  0 < id_datban r ->
  duplicate_where p d t (if excludeId_truthy ex then ex else None) r
  = duplicate_where p d t ex r.
Proof.
  intros Hr. destruct ex as [e|]; [|reflexivity].
  cbn [excludeId_truthy]. destruct (Z.eqb_spec e 0) as [->|]; [|reflexivity].
  cbn [negb]. unfold duplicate_where.
  replace (id_datban r =? 0) with false by (symmetry; apply Z.eqb_neq; lia).
  reflexivity.
Qed.

(** ** The storage's comparison of phone, date and time *)

Lemma conflicts_canon (K : column_keys) (p d t : Js.jsstring)
                      (ex : option Z) (r : dat_ban) :
  conflicts K p d t ex r
  = duplicate_where (sdt_key K p) (ngay_key K d) (gio_key K t) ex (canon K r).
Proof. reflexivity. Qed.

(** With keys that are the texts themselves the comparison is that of
    [duplicate_where], and every statement runs as in [run_statement]. *)
Lemma run_statement_on_verbatim {A} (q : statement A) (db : database) :
  run_statement_on verbatim q db = run_statement q db.
Proof. destruct q; reflexivity. Qed.

Lemma conflicts_iff (K : column_keys) (p d t : Js.jsstring) (ex : option Z)
                    (r : dat_ban) :
  conflicts K p d t ex r = true
  <-> sdt_key K (sdt r) = sdt_key K p /\ ngay_key K (ngay r) = ngay_key K d
      /\ gio_key K (gio r) = gio_key K t /\ trang_thai r <> da_huy
      /\ (forall e, ex = Some e -> id_datban r <> e).
Proof.
  rewrite conflicts_canon.
  exact (duplicate_where_iff (sdt_key K p) (ngay_key K d) (gio_key K t) ex
           (canon K r)).
Qed.

Lemma conflicts_truthy (K : column_keys) (p d t : Js.jsstring)
                       (ex : option Z) (r : dat_ban) :
  0 < id_datban r ->
  conflicts K p d t (if excludeId_truthy ex then ex else None) r
  = conflicts K p d t ex r.
Proof.
  intros Hr. rewrite !conflicts_canon.
  exact (duplicate_where_truthy _ _ _ ex (canon K r) Hr).
Qed.

Lemma executeQuery_on_run (K : column_keys) {A} (q : statement A)
                          (w : world) :
  executeQuery_on K q w
  = if executeQuery_loaded w then
      if hd false (faults w) then
        (inl Failure, logged Log_database_query_error (next_call w))
      else
        match run_statement_on K q (store w) with
        | Some (a, db') => (inl (Success a), set_store db' (next_call w))
        | None =>
            (inl Failure, logged Log_database_query_error (next_call w))
        end
    else (inr TypeError, w).
Proof.
  unfold executeQuery_on, executeQuery_impl_on, try_catch, bind,
    pool_execute_on, console_error, ret.
  destruct (executeQuery_loaded w); [|reflexivity].
  destruct (hd false (faults w)); [reflexivity|].
  destruct (run_statement_on K q (store w)) as [[a db']|]; reflexivity.
Qed.

Lemma checkDuplicateReservation_on_run (K : column_keys)
    (sdt ngay gio : Js.jsstring) (excludeId : option Z) (w : world) :
  checkDuplicateReservation_on K sdt ngay gio excludeId w
  = if executeQuery_loaded w then
      if hd false (faults w) then
        (inl false, logged Log_database_query_error (next_call w))
      else (inl (0 <? duplicates_counted_on K sdt ngay gio excludeId w),
            next_call w)
    else (inl false, logged Log_error_checking_duplicate w).
Proof.
  unfold checkDuplicateReservation_on, try_catch, bind.
  rewrite executeQuery_on_run.
  destruct (executeQuery_loaded w); [|reflexivity].
  destruct (hd false (faults w)); [reflexivity|].
  reflexivity.
Qed.


(** The detector fails open whatever the comparison of the storage is. *)
Lemma detector_on_fails_open (K : column_keys) (sdt ngay gio : Js.jsstring)
                             (excludeId : option Z) (w : world) :
  executeQuery_loaded w = false \/ hd false (faults w) = true ->
  exists w' line,
    checkDuplicateReservation_on K sdt ngay gio excludeId w = (inl false, w')
    /\ console w' = console w ++ [line]
    /\ store w' = store w.
Proof.
  intros H. rewrite checkDuplicateReservation_on_run.
  destruct (executeQuery_loaded w) eqn:L.
  - destruct H as [H|H]; [discriminate|]. rewrite H.
    exists (logged Log_database_query_error (next_call w)),
      Log_database_query_error.
    repeat split.
  - exists (logged Log_error_checking_duplicate w),
      Log_error_checking_duplicate.
    repeat split.
Qed.

(** C2 as stated fails.  A reservation is stored with the phone
    0912345678 at 19:00.  Asked about that phone followed by a space, and
    about the time written 19:00:00, the detector reports a conflict,
    although no stored reservation has exactly that phone, date and time:
    the storage compares the phone by the collation of the column and the
    time as a TIME value. *)
Lemma detector_compares_as_storage :
  fst (checkDuplicateReservation_on stored_keys phone_with_space
         (Js.lit "2025-01-06") (Js.lit "19:00") None booked_world_on)
  = inl true
  /\ active_in_slot phone_with_space (Js.lit "2025-01-06") (Js.lit "19:00")
       (rows (store booked_world_on)) = 0%nat
  /\ fst (checkDuplicateReservation_on stored_keys (Js.lit "0912345678")
            (Js.lit "2025-01-06") (Js.lit "19:00:00") None booked_world_on)
     = inl true
  /\ active_in_slot (Js.lit "0912345678") (Js.lit "2025-01-06")
       (Js.lit "19:00:00") (rows (store booked_world_on)) = 0%nat.
Proof. repeat split. Qed.

(** C2 as amended.  When the count succeeds, the conflict detector returns
    true exactly when some stored reservation has that phone, date and time
    as the storage compares them (equal keys), a status other than [da_huy],
    and an identifier other than the excluded one when one is given; so it
    returns false when every reservation with that phone, date and time is
    cancelled.  It leaves the table as it is. *)
Theorem detector_counts_active (K : column_keys)
    (sdt0 ngay0 gio0 : Js.jsstring) (excludeId : option Z) (w : world) :
  ids_positive (rows (store w)) = true ->
  executeQuery_loaded w = true -> hd false (faults w) = false ->
  exists b w',
    checkDuplicateReservation_on K sdt0 ngay0 gio0 excludeId w = (inl b, w')
    /\ store w' = store w
    /\ (b = true <->
        exists r, In r (rows (store w))
                  /\ sdt_key K (sdt r) = sdt_key K sdt0
                  /\ ngay_key K (ngay r) = ngay_key K ngay0
                  /\ gio_key K (gio r) = gio_key K gio0
                  /\ trang_thai r <> da_huy
                  /\ (forall e, excludeId = Some e -> id_datban r <> e))
    /\ ((forall r, In r (rows (store w)) ->
                   sdt_key K (sdt r) = sdt_key K sdt0 ->
                   ngay_key K (ngay r) = ngay_key K ngay0 ->
                   gio_key K (gio r) = gio_key K gio0 ->
                   trang_thai r = da_huy) -> b = false).
Proof.
  intros Hpos Hl Hf. rewrite checkDuplicateReservation_on_run, Hl, Hf.
  assert (Hid : forall r, In r (rows (store w)) -> 0 < id_datban r).
  { intros r Hr. unfold ids_positive in Hpos.
    rewrite forallb_forall in Hpos. apply Z.ltb_lt, Hpos, Hr. }
  exists (0 <? duplicates_counted_on K sdt0 ngay0 gio0 excludeId w),
    (next_call w).
  assert (Hiff : (0 <? duplicates_counted_on K sdt0 ngay0 gio0 excludeId w)
                 = true
                 <-> exists r, In r (rows (store w))
                     /\ sdt_key K (sdt r) = sdt_key K sdt0
                     /\ ngay_key K (ngay r) = ngay_key K ngay0
                     /\ gio_key K (gio r) = gio_key K gio0
                     /\ trang_thai r <> da_huy
                     /\ (forall e, excludeId = Some e -> id_datban r <> e)).
  { unfold duplicates_counted_on. rewrite Z.ltb_lt.
    change 0 with (Z.of_nat 0). rewrite <- Nat2Z.inj_lt.
    rewrite filter_length_pos. split.
    - intros (r & Hr & Hd). exists r. split; [exact Hr|].
      rewrite conflicts_truthy in Hd by (apply Hid; exact Hr).
      apply conflicts_iff. exact Hd.
    - intros (r & Hr & Hd). exists r. split; [exact Hr|].
      rewrite conflicts_truthy by (apply Hid; exact Hr).
      apply conflicts_iff. exact Hd. }
  repeat split.
  - apply Hiff.
  - apply Hiff.
  - intros Hall.
    apply not_true_is_false. intros E.
    apply Hiff in E. destruct E as (r & Hr & H1 & H2 & H3 & H4 & _).
    apply H4. apply Hall; assumption.
Qed.

Lemma detector_counts_active_witness :
  exists w',
    checkDuplicateReservation_on stored_keys phone_with_space
      (Js.lit "2025-01-06") (Js.lit "19:00:00") None booked_world_on
    = (inl true, w')
    /\ store w' = store booked_world_on.
Proof.
  destruct (detector_counts_active stored_keys phone_with_space
              (Js.lit "2025-01-06") (Js.lit "19:00:00") None booked_world_on
              eq_refl eq_refl eq_refl)
    as (b & w' & Hrun & Hstore & Hiff & _).
  exists w'. split; [|exact Hstore].
  rewrite Hrun. f_equal. f_equal. apply Hiff.
  eexists. split; [left; reflexivity|].
  repeat split; try discriminate.
Defined.

(** ** Identifiers *)

Lemma ids_increasing_above (lo : Z) (l : list dat_ban) :
  ids_increasing lo l = true -> forall r, In r l -> lo < id_datban r.
Proof.
  revert lo. induction l as [|x l IH]; intros lo H r Hr; [destruct Hr|].
  cbn [ids_increasing] in H. apply andb_prop in H. destruct H as [H1 H2].
  apply Z.ltb_lt in H1. destruct Hr as [<-|Hr]; [exact H1|].
  specialize (IH _ H2 r Hr). lia.
Qed.

Lemma filter_id_none (id : Z) (l : list dat_ban) :
  (forall r, In r l -> id_datban r <> id) ->
  List.filter (fun r => id_datban r =? id) l = [].
Proof.
  induction l as [|x l IH]; intros H; [reflexivity|].
  cbn [List.filter].
  replace (id_datban x =? id) with false
    by (symmetry; apply Z.eqb_neq, H; left; reflexivity).
  apply IH. intros r Hr. apply H. right. exact Hr.
Qed.

Lemma filter_id_unique (lo : Z) (l : list dat_ban) (r : dat_ban) :
  ids_increasing lo l = true -> In r l ->
  List.filter (fun x => id_datban x =? id_datban r) l = [r].
Proof.
  revert lo. induction l as [|x l IH]; intros lo H Hr; [destruct Hr|].
  cbn [ids_increasing] in H. apply andb_prop in H. destruct H as [H1 H2].
  pose proof (ids_increasing_above _ _ H2) as Hab.
  cbn [List.filter]. destruct Hr as [->|Hr].
  - rewrite Z.eqb_refl. f_equal. apply filter_id_none.
    intros y Hy. specialize (Hab y Hy). lia.
  - replace (id_datban x =? id_datban r) with false
      by (symmetry; apply Z.eqb_neq; specialize (Hab r Hr); lia).
    apply (IH _ H2 Hr).
Qed.

Lemma wf_parts (db : database) :
  wf_database db = true ->
  0 < auto_increment db
  /\ ids_increasing 0 (rows db) = true
  /\ forall r, In r (rows db) -> id_datban r < auto_increment db.
Proof.
  unfold wf_database. intros H. apply andb_prop in H. destruct H as [H H3].
  apply andb_prop in H. destruct H as [H1 H2].
  rewrite forallb_forall in H3. repeat split.
  - apply Z.ltb_lt, H1.
  - exact H2.
  - intros r Hr. apply Z.ltb_lt, H3, Hr.
Qed.

Lemma wf_ids_increasing (db : database) :
  wf_database db = true -> ids_increasing 0 (rows db) = true.
Proof. intros H. apply (wf_parts db H). Qed.

Lemma wf_ids_positive (db : database) :
  wf_database db = true -> ids_positive (rows db) = true.
Proof.
  intros H. apply forallb_forall. intros r Hr. apply Z.ltb_lt.
  apply (ids_increasing_above 0 (rows db)); [apply wf_ids_increasing, H|exact Hr].
Qed.

Lemma wf_ids_below (db : database) (r : dat_ban) :
  wf_database db = true -> In r (rows db) -> 0 < id_datban r < auto_increment db.
Proof.
  intros H Hr. split.
  - apply (ids_increasing_above 0 (rows db)); [apply wf_ids_increasing, H|exact Hr].
  - apply (wf_parts db H). exact Hr.
Qed.

Lemma filter_update_where_id (id : Z) (f : dat_ban -> dat_ban)
                             (l : list dat_ban) :
  (forall r, id_datban (f r) = id_datban r) ->
  List.filter (fun r => id_datban r =? id) (update_where_id id f l)
  = List.map f (List.filter (fun r => id_datban r =? id) l).
Proof.
  intros Hf. induction l as [|x l IH]; [reflexivity|].
  cbn [update_where_id List.map List.filter].
  destruct (id_datban x =? id) eqn:E.
  - rewrite Hf, E. cbn [List.map]. f_equal. exact IH.
  - rewrite E. exact IH.
Qed.

(** ** Calls that succeed *)

Lemma calls_succeed_next (n : nat) (w : world) :
  calls_succeed (S n) w = true ->
  executeQuery_loaded w = true /\ hd false (faults w) = false
  /\ calls_succeed n (next_call w) = true.
Proof.
  unfold calls_succeed. intros H. apply andb_prop in H. destruct H as [H1 H2].
  rewrite H1. destruct (faults w) as [|f fs] eqn:E.
  - cbn [next_call faults executeQuery_loaded]. rewrite H1, E.
    destruct n; repeat split; reflexivity.
  - cbn [firstn forallb] in H2. apply andb_prop in H2. destruct H2 as [H2 H3].
    apply negb_true_iff in H2. subst f.
    cbn [next_call faults executeQuery_loaded hd]. rewrite H1, E.
    cbn [tl andb]. repeat split. exact H3.
Qed.

Lemma executeQuery_succeeds {A} (n : nat) (q : statement A) (w : world) :
  calls_succeed (S n) w = true ->
  executeQuery q w
  = match run_statement q (store w) with
    | Some (a, db') => (inl (Success a), set_store db' (next_call w))
    | None => (inl Failure, logged Log_database_query_error (next_call w))
    end
  /\ calls_succeed n (next_call w) = true.
Proof.
  intros H. apply calls_succeed_next in H. destruct H as (H1 & H2 & H3).
  rewrite executeQuery_run, H1, H2. split; [reflexivity|exact H3].
Qed.

Lemma trang_thai_of_name (st : trang_thai_t) :
  trang_thai_of (trang_thai_name st) = Some st.
Proof. destruct st; reflexivity. Qed.

Lemma trang_thai_name_allowed (st : trang_thai_t) :
  (negb (Js.present (Some (trang_thai_name st)))
   || negb (existsb (Js.str_eqb (str_of (Some (trang_thai_name st))))
              [Js.lit "cho_xac_nhan"; Js.lit "da_xac_nhan"; Js.lit "da_huy"]))%bool
  = false.
Proof. destruct st; reflexivity. Qed.

(** ** Status updates *)

(** C10 as amended.  A status update that names one of the three statuses
    for an existing reservation, with the data access succeeding, answers
    200 with the re-read row and leaves the reservation in the requested
    status, whatever its status was before - cancelled included. *)
Theorem patch_status_sets_requested (id_param : Js.jsstring) (st : trang_thai_t)
                                    (w : world) (r0 : dat_ban) :
  Js.parseInt_Z id_param = Some (id_datban r0) ->
  wf_database (store w) = true ->
  calls_succeed 3 w = true ->
  In r0 (rows (store w)) ->
  exists w',
    patch_status id_param (Some (trang_thai_name st)) w
    = (inl {| status := 200;
              json := Body_row Msg_status_updated
                        (Some (set_trang_thai st r0)) None |}, w')
    /\ rows (store w')
       = update_where_id (id_datban r0) (set_trang_thai st) (rows (store w))
    /\ status_of (id_datban r0) w' = Some st.
Proof.
  intros Hid Hwf Hc Hin.
  pose proof (filter_id_unique 0 _ r0 (wf_ids_increasing _ Hwf) Hin) as Hsel.
  unfold patch_status, try_catch, bind. rewrite Hid, trang_thai_name_allowed.
  destruct (executeQuery_succeeds 2 (Select_by_id (id_datban r0)) w Hc)
    as [-> Hc1].
  cbn [run_statement]. rewrite Hsel.
  set (w1 := set_store (store w) (next_call w)).
  assert (Hc1' : calls_succeed 2 w1 = true) by exact Hc1.
  destruct (executeQuery_succeeds 1
              (Update_trang_thai (str_of (Some (trang_thai_name st)))
                 (id_datban r0)) w1 Hc1') as [-> Hc2].
  cbn [run_statement str_of]. rewrite trang_thai_of_name.
  set (db2 := {| rows := update_where_id (id_datban r0) (set_trang_thai st)
                           (rows (store w1));
                 auto_increment := auto_increment (store w1) |}).
  set (w2 := set_store db2 (next_call w1)).
  assert (Hc2' : calls_succeed 1 w2 = true) by exact Hc2.
  destruct (executeQuery_succeeds 0 (Select_by_id (id_datban r0)) w2 Hc2')
    as [-> _].
  cbn [run_statement].
  assert (Hsel2 : List.filter (fun r => id_datban r =? id_datban r0)
                    (rows (store w2)) = [set_trang_thai st r0]).
  { unfold w2, db2, w1. cbn [store set_store rows next_call].
    rewrite filter_update_where_id by reflexivity. rewrite Hsel. reflexivity. }
  rewrite Hsel2. cbn [first_row hd_error ret respond].
  eexists. split; [reflexivity|]. split.
  - reflexivity.
  - unfold status_of. cbn [store set_store next_call].
    change (rows db2) with (rows (store w2)). rewrite Hsel2. reflexivity.
Qed.

Lemma patch_status_sets_requested_witness :
  exists w',
    patch_status (Js.lit "1") (Some (Js.lit "cho_xac_nhan")) cancelled_world
    = (inl {| status := 200;
              json := Body_row Msg_status_updated (Some booked_row) None |},
       w')
    /\ status_of 1 w' = Some cho_xac_nhan.
Proof.
  destruct (patch_status_sets_requested (Js.lit "1") cho_xac_nhan
              cancelled_world (set_trang_thai da_huy booked_row)
              eq_refl eq_refl eq_refl (or_introl eq_refl))
    as (w' & Hrun & _ & Hst).
  exists w'. split; [exact Hrun|exact Hst].
Defined.

(** C10 as stated fails: a reservation is booked and cancelled; the status
    update to [cho_xac_nhan] is then answered with 200 and the reservation is
    pending again. *)
Lemma cancelled_reservation_reopened :
  rows (store cancelled_world) = [set_trang_thai da_huy booked_row]
  /\ status_of 1 cancelled_world = Some da_huy
  /\ fst (handle rt0 reopen_1 cancelled_world)
     = inl {| status := 200;
              json := Body_row Msg_status_updated (Some booked_row) None |}
  /\ status_of 1 (after_requests rt0 [reopen_1] cancelled_world)
     = Some cho_xac_nhan.
Proof. repeat split. Qed.

(** ** Creating a reservation *)

Lemma no_error_in_nil (e : verror) (errors : list verror) :
  errors = [] -> has_error e errors = false.
Proof. intros ->. reflexivity. Qed.

Lemma name_short_iff (rt : runtime) (data : payload) :
  has_error E_name_short (validateReservationData rt data)
  = (negb (Js.present (p_ten_khach data))
     || (List.length (Js.trim (str_of (p_ten_khach data))) <? 2)%nat)%bool.
Proof. errors_of_checks; reflexivity. Qed.

Lemma phone_required_iff (rt : runtime) (data : payload) :
  has_error E_phone_required (validateReservationData rt data)
  = negb (Js.present (p_sdt data)).
Proof. errors_of_checks; reflexivity. Qed.

Lemma date_required_iff (rt : runtime) (data : payload) :
  has_error E_date_required (validateReservationData rt data)
  = negb (Js.present (p_ngay data)).
Proof. errors_of_checks; reflexivity. Qed.

Lemma time_required_iff (rt : runtime) (data : payload) :
  has_error E_time_required (validateReservationData rt data)
  = negb (Js.present (p_gio data)).
Proof. errors_of_checks; reflexivity. Qed.

Lemma guests_range_iff (rt : runtime) (data : payload) :
  has_error E_guests_range (validateReservationData rt data)
  = (let guests := guests_parseInt (p_so_luong_khach data) in
     Js.isNaN guests || Js.lt guests (Js.int 1) || Js.gt guests (Js.int 20))%bool.
Proof. errors_of_checks; reflexivity. Qed.

Lemma present_some (x : option Js.jsstring) :
  Js.present x = true -> exists s, x = Some s /\ s <> [].
Proof.
  destruct x as [[|c s]|]; cbn; try discriminate.
  intros _. exists (c :: s). split; [reflexivity|discriminate].
Qed.

Lemma guests_parseInt_integer (g : guests_field) :
  guests_parseInt g = Js.NaN \/ exists z, guests_parseInt g = Js.int z.
Proof.
  destruct g as [|s|n]; cbn [guests_parseInt].
  - left. reflexivity.
  - unfold Js.parseInt. destruct (Js.parseInt_Z s) as [z|]; cbn [Js.of_option].
    + right. exists z. reflexivity.
    + left. reflexivity.
  - right. exists n. reflexivity.
Qed.

(** A body without validation error has its name, phone, date and time, and
    a number of guests from 1 to 20. *)
Lemma validated_present (rt : runtime) (data : payload) :
  validateReservationData rt data = [] ->
  exists ten p d t g,
    p_ten_khach data = Some ten /\ p_sdt data = Some p
    /\ p_ngay data = Some d /\ p_gio data = Some t
    /\ guests_parseInt (p_so_luong_khach data) = Js.int g /\ 1 <= g <= 20.
Proof.
  intros H.
  pose proof (no_error_in_nil E_name_short _ H) as H1.
  pose proof (no_error_in_nil E_phone_required _ H) as H2.
  pose proof (no_error_in_nil E_date_required _ H) as H3.
  pose proof (no_error_in_nil E_time_required _ H) as H4.
  pose proof (no_error_in_nil E_guests_range _ H) as H5.
  rewrite name_short_iff in H1. rewrite phone_required_iff in H2.
  rewrite date_required_iff in H3. rewrite time_required_iff in H4.
  rewrite guests_range_iff in H5. cbv zeta in H5.
  apply orb_false_elim in H1. destruct H1 as [H1 _].
  apply negb_false_iff, present_some in H1, H2, H3, H4.
  destruct H1 as (ten & -> & _), H2 as (p & -> & _), H3 as (d & -> & _),
    H4 as (t & -> & _).
  exists ten, p, d, t.
  destruct (guests_parseInt_integer (p_so_luong_khach data)) as [E|(g & E)];
    rewrite E in H5; [discriminate|].
  exists g. rewrite lt_int, gt_int in H5. cbn [Js.isNaN Js.int orb] in H5.
  apply orb_false_elim in H5. destruct H5 as [Ha Hb].
  apply Z.ltb_ge in Ha, Hb. repeat split; try assumption; reflexivity.
Qed.

Lemma as_integer_int (z : Z) : as_integer (Js.int z) = Some z.
Proof.
  unfold as_integer, Js.int. rewrite Qfloor_Z.
  replace (Qeq_bool (inject_Z z) (inject_Z z)) with true
    by (symmetry; apply Qeq_bool_iff; reflexivity).
  reflexivity.
Qed.

Lemma try_catch_bind {A B} (m : M A) (k : A -> M B) (h : exn -> M B)
                     (w : world) :
  try_catch (bind m k) h w
  = match m w with
    | (inl a, w') => try_catch (k a) h w'
    | (inr e, w') => h e w'
    end.
Proof.
  unfold try_catch, bind. destruct (m w) as [[a|e] w']; reflexivity.
Qed.



Lemma reread_inserted (db : database) (row : dat_ban) :
  wf_database db = true -> id_datban row = auto_increment db ->
  List.filter (fun r => id_datban r =? auto_increment db) (rows db ++ [row])
  = [row].
Proof.
  intros Hwf Hid. rewrite filter_app. rewrite filter_id_none.
  - cbn [List.filter app]. rewrite Hid, Z.eqb_refl. reflexivity.
  - intros r Hr. pose proof (wf_ids_below db r Hwf Hr). lia.
Qed.


(** A valid body: the detector is asked, then the INSERT is run. *)
Lemma post_valid (rt : runtime) (data : payload) (w : world)
                 (ten p d t : Js.jsstring) (g : Z) :
  validateReservationData rt data = [] ->
  p_ten_khach data = Some ten -> p_sdt data = Some p ->
  p_ngay data = Some d -> p_gio data = Some t ->
  guests_parseInt (p_so_luong_khach data) = Js.int g ->
  post_datban rt data w
  = let handler := fun _ : exn =>
        console_error Log_error_creating ;;;
        respond 500 (Body_failure Msg_create_failed) in
    match checkDuplicateReservation p d t None w with
    | (inl true, w1) =>
        (inl {| status := 400; json := Body_failure Msg_duplicate_create |},
         w1)
    | (inl false, w1) =>
        try_catch
          (result <- executeQuery
                       (Insert_dat_ban (Js.trim ten) (Js.trim p)
                          (trim_or_null (p_email data)) d t (Js.int g)
                          (trim_or_null (p_ghi_chu data))) ;;
           match result with
           | Success insertId =>
               selectResult <- executeQuery (Select_by_id insertId) ;;
               row <- first_row selectResult ;;
               respond 201 (Body_row Msg_created row (Some insertId))
           | Failure => throw Error_result
           end) handler w1
    | (inr e, w1) => handler e w1
    end.
Proof.
  intros Hv H1 H2 H3 H4 H5.
  unfold post_datban. rewrite Hv. cbn [List.length Nat.ltb Nat.leb].
  rewrite H1, H2, H3, H4, H5. cbn [bound trim_field].
  rewrite try_catch_bind. unfold ret at 1.
  rewrite try_catch_bind. unfold ret at 1.
  rewrite try_catch_bind. unfold ret at 1.
  rewrite try_catch_bind. cbv zeta.
  destruct (checkDuplicateReservation p d t None w) as [[[|]|e] w1];
    reflexivity.
Qed.






(** ** At most one active reservation for a phone, date and time *)

Lemma in_slot_iff (p d t : Js.jsstring) (r : dat_ban) :
  duplicate_where p d t None r = true
  <-> sdt r = p /\ ngay r = d /\ gio r = t /\ is_active r = true.
Proof.
  unfold duplicate_where.
  rewrite andb_true_r, !andb_true_iff, !str_eqb_eq. tauto.
Qed.









Lemma hd_tl_nth {A} (d : A) (l : list A) : hd d (tl l) = nth 1 l d.
Proof. destruct l as [|a [|b l]]; reflexivity. Qed.

Lemma phone_trimmed_eq (data : payload) (p : Js.jsstring) :
  phone_trimmed data = true -> p_sdt data = Some p -> Js.trim p = p.
Proof.
  unfold phone_trimmed. intros H E. rewrite E in H.
  apply str_eqb_eq. exact H.
Qed.

(** ** At most one active reservation for a phone, date and time, as the
       storage compares them *)














(** The partial update runs no conflict check either: the time of a second
    reservation is moved onto the first one's. *)
Lemma partial_update_breaks_slots :
  slot_invariant_on stored_keys
    (rows (store (after_requests_on stored_keys rt0
                    [POST_datban tomorrow_19;
                     POST_datban (example_payload "2025-01-06" "20:00")]
                    empty_world))) = true
  /\ slot_invariant_on stored_keys
       (rows (store (after_requests_on stored_keys rt0
                       [POST_datban tomorrow_19;
                        POST_datban (example_payload "2025-01-06" "20:00");
                        PATCH_datban (Js.lit "2")
                          {| u_ten_khach := None; u_sdt := None;
                             u_email := None; u_ngay := None;
                             u_gio := Some (Js.lit "19:00:00");
                             u_so_luong_khach := None; u_ghi_chu := None;
                             u_trang_thai := None |}]
                       empty_world))) = false.
Proof. repeat split. Qed.

(** ** Every request keeps the identifiers well formed *)

Lemma ids_increasing_app (lo : Z) (l : list dat_ban) (x : dat_ban) :
  ids_increasing lo l = true ->
  lo < id_datban x ->
  (forall r, In r l -> id_datban r < id_datban x) ->
  ids_increasing lo (l ++ [x]) = true.
Proof.
  revert lo. induction l as [|y l IH]; intros lo H Hlo Hall.
  - cbn. rewrite andb_true_r. apply Z.ltb_lt. exact Hlo.
  - cbn [ids_increasing app] in *. apply andb_prop in H.
    destruct H as [H1 H2]. rewrite H1. cbn [andb].
    apply IH; [exact H2| |].
    + apply Hall. left. reflexivity.
    + intros r Hr. apply Hall. right. exact Hr.
Qed.

Lemma ids_increasing_map (lo : Z) (h : dat_ban -> dat_ban)
                         (l : list dat_ban) :
  (forall r, id_datban (h r) = id_datban r) ->
  ids_increasing lo (List.map h l) = ids_increasing lo l.
Proof.
  intros Hh. revert lo. induction l as [|y l IH]; intros lo; [reflexivity|].
  cbn [List.map ids_increasing]. rewrite Hh, IH. reflexivity.
Qed.

Lemma wf_update_where_id (db : database) (id : Z) (f : dat_ban -> dat_ban) :
  (forall r, id_datban (f r) = id_datban r) ->
  wf_database db = true ->
  wf_database {| rows := update_where_id id f (rows db);
                 auto_increment := auto_increment db |} = true.
Proof.
  intros Hf H. destruct (wf_parts db H) as (H0 & H1 & H2).
  unfold wf_database. cbn [rows auto_increment].
  assert (Hh : forall r, id_datban (if id_datban r =? id then f r else r)
                         = id_datban r).
  { intros r. destruct (id_datban r =? id); [apply Hf|reflexivity]. }
  unfold update_where_id. rewrite ids_increasing_map, H1 by exact Hh.
  replace (0 <? auto_increment db) with true
    by (symmetry; apply Z.ltb_lt; exact H0).
  cbn [andb]. rewrite forallb_forall. intros x Hx.
  apply in_map_iff in Hx. destruct Hx as (r & <- & Hr).
  rewrite Hh. apply Z.ltb_lt, H2, Hr.
Qed.

Lemma wf_insert (db : database) (row : dat_ban) :
  wf_database db = true ->
  id_datban row = auto_increment db ->
  wf_database {| rows := rows db ++ [row];
                 auto_increment := auto_increment db + 1 |} = true.
Proof.
  intros H Hid. destruct (wf_parts db H) as (H0 & H1 & H2).
  unfold wf_database. cbn [rows auto_increment].
  rewrite !andb_true_iff. repeat split.
  - apply Z.ltb_lt. lia.
  - apply ids_increasing_app; [exact H1|lia|].
    intros r Hr. specialize (H2 r Hr). lia.
  - apply forallb_forall. intros r Hr. apply Z.ltb_lt.
    apply in_app_or in Hr. destruct Hr as [Hr|[<-|[]]].
    + specialize (H2 r Hr). lia.
    + lia.
Qed.

(** No statement breaks the identifiers. *)
Lemma run_statement_wf {A} (q : statement A) (db db' : database) (a : A) :
  wf_database db = true ->
  run_statement q db = Some (a, db') ->
  wf_database db' = true.
Proof.
  intros Hwf.
  destruct q as [p d t ex|ten p em d t n note|id|ten p em d t n note st id
                |st id|u id|f|f lim off];
    cbn [run_statement]; intros H.
  - injection H as _ <-. exact Hwf.
  - destruct (as_integer n) as [n'|]; [|discriminate].
    injection H as _ <-. apply wf_insert; [exact Hwf|reflexivity].
  - injection H as _ <-. exact Hwf.
  - destruct (as_integer n) as [n'|]; [|discriminate].
    destruct (trang_thai_of st) as [st'|]; [|discriminate].
    injection H as _ <-. apply wf_update_where_id; [reflexivity|exact Hwf].
  - destruct (trang_thai_of st) as [st'|]; [|discriminate].
    injection H as _ <-. apply wf_update_where_id; [reflexivity|exact Hwf].
  - destruct (u_trang_thai u) as [s|].
    + destruct (trang_thai_of s) as [st'|]; [|discriminate].
      injection H as _ <-. apply wf_update_where_id; [reflexivity|exact Hwf].
    + injection H as _ <-. apply wf_update_where_id; [reflexivity|exact Hwf].
  - injection H as _ <-. exact Hwf.
  - destruct (as_integer lim) as [lim'|]; [|discriminate].
    destruct (as_integer off) as [off'|]; [|discriminate].
    destruct ((lim' <? 0) || (off' <? 0)); [discriminate|].
    injection H as _ <-. exact Hwf.
Qed.

Section Keeps.

Variable Q : database -> Prop.

Lemma keeps_ret {A} (a : A) : keeps Q (ret a).
Proof. intros w H. exact H. Qed.

Lemma keeps_throw {A} (e : exn) : keeps Q (@throw A e).
Proof. intros w H. exact H. Qed.

Lemma keeps_console_error (l : log_line) : keeps Q (console_error l).
Proof. intros w H. exact H. Qed.

Lemma keeps_bind {A B} (m : M A) (k : A -> M B) :
  keeps Q m -> (forall a, keeps Q (k a)) -> keeps Q (bind m k).
Proof.
  intros Hm Hk w H. unfold bind. specialize (Hm w H).
  destruct (m w) as [[a|e] w']; [apply Hk|]; exact Hm.
Qed.

Lemma keeps_try_catch {A} (m : M A) (h : exn -> M A) :
  keeps Q m -> (forall e, keeps Q (h e)) -> keeps Q (try_catch m h).
Proof.
  intros Hm Hh w H. unfold try_catch. specialize (Hm w H).
  destruct (m w) as [[a|e] w']; [|apply Hh]; exact Hm.
Qed.

Lemma keeps_executeQuery {A} (q : statement A) :
  (forall db a db', Q db -> run_statement q db = Some (a, db') -> Q db') ->
  keeps Q (executeQuery q).
Proof.
  intros Hq w H. rewrite executeQuery_run.
  destruct (executeQuery_loaded w); [|exact H].
  destruct (hd false (faults w)); [exact H|].
  destruct (run_statement q (store w)) as [[a db']|] eqn:E; [|exact H].
  apply (Hq _ _ _ H E).
Qed.

End Keeps.

Ltac keeps_wf :=
  repeat first
    [ apply keeps_ret | apply keeps_throw | apply keeps_console_error
    | apply keeps_executeQuery;
      intros ? ? ? ? ?; eapply run_statement_wf; eassumption
    | apply keeps_bind; [|intros ?]
    | apply keeps_try_catch; [|intros ?]
    | match goal with
      | |- keeps _ (if ?c then _ else _) => destruct c
      | |- keeps _ (match ?x with _ => _ end) => destruct x
      end ].

Lemma handle_keeps_wf (rt : runtime) (r : request) : keeps wf (handle rt r).
Proof.
  destruct r; cbn [handle];
    unfold post_datban, put_datban, patch_datban, patch_status,
      checkDuplicateReservation, respond, first_row, bound, trim_field;
    keeps_wf.
Qed.

(** The identifiers are well formed in every world that requests, one after
    the other, lead to from the empty table, whatever the storage refuses on
    the way. *)
Lemma after_requests_wf (rt : runtime) (reqs : list request) (w : world) :
  wf_database (store w) = true ->
  wf_database (store (after_requests rt reqs w)) = true.
Proof.
  revert w. induction reqs as [|r reqs IH]; intros w H; [exact H|].
  cbn [after_requests fold_left]. apply IH.
  apply (handle_keeps_wf rt r w H).
Qed.

Lemma run_statement_on_wf (K : column_keys) {A} (q : statement A)
                          (db db' : database) (a : A) :
  wf_database db = true ->
  run_statement_on K q db = Some (a, db') ->
  wf_database db' = true.
Proof.
  intros Hwf. destruct q; try apply (run_statement_wf _ db db' _ Hwf).
  cbn [run_statement_on]. intros H. injection H as _ <-. exact Hwf.
Qed.

Lemma keeps_executeQuery_on (Q : database -> Prop) (K : column_keys) {A}
                            (q : statement A) :
  (forall db a db', Q db -> run_statement_on K q db = Some (a, db') -> Q db') ->
  keeps Q (executeQuery_on K q).
Proof.
  intros Hq w H. rewrite executeQuery_on_run.
  destruct (executeQuery_loaded w); [|exact H].
  destruct (hd false (faults w)); [exact H|].
  destruct (run_statement_on K q (store w)) as [[a db']|] eqn:E; [|exact H].
  apply (Hq _ _ _ H E).
Qed.

Lemma handle_on_keeps_wf (K : column_keys) (rt : runtime) (r : request) :
  keeps wf (handle_on K rt r).
Proof.
  destruct r as [data|id data|id updates|id st]; cbn [handle_on];
    [| |apply (handle_keeps_wf rt (PATCH_datban id updates))
       |apply (handle_keeps_wf rt (PATCH_status id st))];
    unfold post_datban_on, put_datban_on, checkDuplicateReservation_on,
      respond, first_row, bound, trim_field;
    repeat first
      [ apply keeps_executeQuery_on;
        intros ? ? ? ? ?; eapply run_statement_on_wf; eassumption
      | keeps_wf ].
Qed.

(** The identifiers are well formed in every world that requests, one after
    the other, lead to from the empty table, whatever the storage refuses on
    the way and however it compares. *)
Lemma after_requests_on_wf (K : column_keys) (rt : runtime)
                           (reqs : list request) (w : world) :
  wf_database (store w) = true ->
  wf_database (store (after_requests_on K rt reqs w)) = true.
Proof.
  revert w. induction reqs as [|r reqs IH]; intros w H; [exact H|].
  cbn [after_requests_on fold_left]. apply IH.
  apply (handle_on_keeps_wf K rt r w H).
Qed.

(** The detector fails open: when its count is refused and the INSERT is
    not, a second active reservation for the same phone, date and time is
    written. *)
Lemma detector_failure_admits_duplicate :
  slot_invariant_on stored_keys
    (rows (store (with_faults [true] booked_world_on))) = true
  /\ fst (checkDuplicateReservation_on stored_keys (Js.lit "0912345678")
            (Js.lit "2025-01-06") (Js.lit "19:00") None
            (with_faults [true] booked_world_on)) = inl false
  /\ List.map (fun r => (id_datban r, trang_thai r))
       (rows (store (after_requests_on stored_keys rt0
                       [POST_datban tomorrow_19]
                       (with_faults [true] booked_world_on))))
     = [(1, cho_xac_nhan); (2, cho_xac_nhan)]
  /\ slot_invariant_on stored_keys
       (rows (store (after_requests_on stored_keys rt0
                       [POST_datban tomorrow_19]
                       (with_faults [true] booked_world_on)))) = false.
Proof. repeat split. Qed.

(** ** Calendar days *)

(** East of Greenwich (and less than a day east) the local day of the UTC
    midnight that a date written YYYY-MM-DD stands for is the day
    written. *)
Lemma local_day_of_utc_midnight (rt : runtime) (n : Z) :
  0 <= tz_offset rt < ms_per_day ->
  local_day rt (n * ms_per_day) = n.
Proof.
  intros H. unfold local_day, ms_per_day in *.
  symmetry. apply (Z.div_unique _ _ n (tz_offset rt)); lia.
Qed.

Lemma example_days :
  Date_parse rt0 (Js.lit "2025-01-04") = Some (20092 * ms_per_day)
  /\ Date_parse rt0 (Js.lit "2025-01-05") = Some (20093 * ms_per_day)
  /\ local_day rt0 (Date_now rt0) = 20093
  /\ Date_parse rt0 (Js.lit "2025-01-05 12:00") = Some (Date_now rt0).
Proof. repeat split. Qed.

(* ================================================================== *)
(** * Further properties *)

(** ** The order of the routes *)

(** X1.  The routes registered for HEAD /, DELETE /bulk and GET /availability
    are never reached: every request that fits one of them fits an earlier
    route first - GET / answers HEAD /, and the two /:id routes take the
    segments bulk and availability for an identifier. *)
Theorem shadowed_routes_never_run (m : http_method)
                                  (path : list Js.jsstring) :
  dispatch m path <> Some Route_head
  /\ dispatch m path <> Some Route_bulk
  /\ dispatch m path <> Some Route_availability
  /\ dispatch HEAD [] = Some Route_list
  /\ dispatch DELETE [Js.lit "bulk"] = Some Route_delete
  /\ dispatch GET [Js.lit "availability"] = Some Route_get.
Proof.
  assert (H : forall r, In r [Route_head; Route_bulk; Route_availability] ->
                        dispatch m path <> Some r).
  { intros r Hr. unfold dispatch, datban_routes.
    destruct m;
      cbn [first_route method_fits http_method_eqb orb andb];
      rewrite ?andb_false_r, ?andb_true_r;
      destruct path as [|s [|s2 [|s3 rest]]];
      try destruct s as [|c s];
      cbn [first_route path_fits];
      rewrite ?andb_false_r, ?andb_true_r; cbn;
      repeat match goal with
        | |- context [if ?c then _ else _] => destruct c
        end;
      cbn in Hr; intuition (subst; discriminate). }
  repeat split; try (apply H; cbn; tauto).
Qed.

(** ** The filter builder *)

Lemma wildcards_guarded_escape (prev : bool) (s : Js.jsstring) :
  wildcards_guarded prev (Js.escape_class is_wildcard s) = true.
Proof.
  revert prev. induction s as [|c s IH]; intros prev; [reflexivity|].
  cbn [Js.escape_class]. destruct (is_wildcard c) eqn:W.
  - cbn [wildcards_guarded]. change (is_wildcard 92%N) with false.
    change (N.eqb 92%N 92%N) with true. rewrite W, IH. reflexivity.
  - cbn [wildcards_guarded]. rewrite W, IH. reflexivity.
Qed.

Lemma wildcards_guarded_firstn (n : nat) (prev : bool) (s : Js.jsstring) :
  wildcards_guarded prev s = true ->
  wildcards_guarded prev (firstn n s) = true.
Proof.
  revert prev s. induction n as [|n IH]; intros prev s H; [reflexivity|].
  destruct s as [|c s]; [reflexivity|].
  cbn [firstn wildcards_guarded] in *. apply andb_prop in H.
  destruct H as [H1 H2]. rewrite H1, (IH _ _ H2). reflexivity.
Qed.

Lemma forallb_firstn {A} (f : A -> bool) (n : nat) (l : list A) :
  forallb f l = true -> forallb f (firstn n l) = true.
Proof.
  revert l. induction n as [|n IH]; intros l H; [reflexivity|].
  destruct l as [|x l]; [reflexivity|].
  cbn [firstn forallb] in *. apply andb_prop in H. destruct H as [H1 H2].
  rewrite H1, (IH _ H2). reflexivity.
Qed.

Lemma no_angle_escape (s : Js.jsstring) :
  forallb (fun c => negb (is_angle c)) s = true ->
  forallb (fun c => negb (is_angle c)) (Js.escape_class is_wildcard s) = true.
Proof.
  induction s as [|c s IH]; intros H; [reflexivity|].
  cbn [forallb] in H. apply andb_prop in H. destruct H as [H1 H2].
  cbn [Js.escape_class]. destruct (is_wildcard c); cbn [forallb];
    rewrite ?H1, (IH H2); reflexivity.
Qed.

Lemma no_angle_remove (s : Js.jsstring) :
  forallb (fun c => negb (is_angle c)) (Js.remove_class is_angle s) = true.
Proof.
  apply forallb_forall. intros c Hc. apply filter_In in Hc. apply Hc.
Qed.

(** X2.  Whatever is searched for, the text [sanitizeSearchQuery] returns has at
    most 100 characters, holds no angle bracket, and each of its [%] and [_]
    has a backslash right before it. *)
Theorem sanitizeSearchQuery_shape (query : fvalue) :
  (List.length (sanitizeSearchQuery query) <= 100)%nat
  /\ forallb (fun c => negb (is_angle c)) (sanitizeSearchQuery query) = true
  /\ wildcards_guarded false (sanitizeSearchQuery query) = true.
Proof.
  unfold sanitizeSearchQuery.
  destruct query as [| |[|c q]|n]; try (repeat split; cbn; lia).
  unfold Js.substring0. repeat split.
  - apply firstn_le_length.
  - apply forallb_firstn, no_angle_escape, no_angle_remove.
  - apply wildcards_guarded_firstn, wildcards_guarded_escape.
Qed.

Lemma where_step_sync (acc : where_clause) (entry : Js.jsstring * fvalue) :
  List.length (params acc)
  = list_sum (List.map placeholders (conditions acc)) ->
  List.length (params (where_step acc entry))
  = list_sum (List.map placeholders (conditions (where_step acc entry))).
Proof.
  intros H. destruct entry as [key value]. unfold where_step.
  repeat match goal with
    | |- context [if ?c then _ else _] => destruct c
    end;
    cbn [params conditions]; try exact H;
    rewrite length_app, map_app, list_sum_app, H; reflexivity.
Qed.

Lemma where_step_ignores (acc : where_clause) (key : Js.jsstring)
                         (value : fvalue) :
  (known_filter_key key && fvalue_given value)%bool = false ->
  where_step acc (key, value) = acc.
Proof.
  unfold where_step, known_filter_key. cbn [existsb].
  destruct (fvalue_given value); [|reflexivity].
  rewrite andb_true_r, orb_false_r. intros H.
  repeat (apply orb_false_elim in H; destruct H as [? H]).
  repeat match goal with
    | E : Js.str_eqb key _ = false |- _ => rewrite E; clear E
    end.
  reflexivity.
Qed.

(** X3.  [buildWhereClause] keeps the parameters in step with the placeholders
    of its conditions, and an entry with an unrecognised key or with an
    empty value ([undefined], [null] or the empty string) changes nothing,
    wherever it stands. *)
Theorem buildWhereClause_in_step (filters : list (Js.jsstring * fvalue)) :
  List.length (params (buildWhereClause filters))
  = list_sum (List.map placeholders (conditions (buildWhereClause filters)))
  /\ buildWhereClause filters
     = buildWhereClause
         (List.filter
            (fun e => (known_filter_key (fst e) && fvalue_given (snd e))%bool)
            filters).
Proof.
  unfold buildWhereClause. split.
  - assert (H0 : List.length (params {| conditions := []; params := [] |})
                 = list_sum (List.map placeholders
                      (conditions {| conditions := []; params := [] |})))
      by reflexivity.
    revert H0. generalize ({| conditions := []; params := [] |}) as acc.
    induction filters as [|e filters IH]; intros acc H0; [exact H0|].
    cbn [fold_left]. apply IH, where_step_sync, H0.
  - generalize ({| conditions := []; params := [] |}) as acc.
    induction filters as [|[k v] filters IH]; intros acc; [reflexivity|].
    cbn [fold_left List.filter fst snd].
    destruct (known_filter_key k && fvalue_given v)%bool eqn:E.
    + cbn [fold_left]. apply IH.
    + rewrite (where_step_ignores acc k v E). apply IH.
Qed.

Lemma removeEmptyValues_given (obj : list (Js.jsstring * fvalue)) :
  forallb (fun entry => fvalue_given (snd entry)) (removeEmptyValues obj)
  = true.
Proof.
  apply forallb_forall. intros e He. apply filter_In in He. apply He.
Qed.

(** X4.  [removeEmptyValues] before [buildWhereClause] changes nothing: the
    builder skips the entries the cleaner drops.  Cleaning twice is cleaning
    once, and what is left has no [undefined], [null] or empty string. *)
Theorem removeEmptyValues_then_build (filters : list (Js.jsstring * fvalue)) :
  buildWhereClause (removeEmptyValues filters) = buildWhereClause filters
  /\ removeEmptyValues (removeEmptyValues filters) = removeEmptyValues filters
  /\ forall key value, In (key, value) (removeEmptyValues filters) <->
       In (key, value) filters
       /\ value <> F_undefined /\ value <> F_null /\ value <> F_string [].
Proof.
  split; [|split].
  - unfold buildWhereClause, removeEmptyValues.
    generalize ({| conditions := []; params := [] |}) as acc.
    induction filters as [|[k v] filters IH]; intros acc; [reflexivity|].
    cbn [fold_left List.filter snd].
    destruct (fvalue_given v) eqn:E.
    + cbn [fold_left]. apply IH.
    + rewrite (where_step_ignores acc k v)
        by (rewrite E; apply andb_false_r).
      apply IH.
  - unfold removeEmptyValues. induction filters as [|[k v] filters IH];
      [reflexivity|].
    cbn [List.filter snd]. destruct (fvalue_given v) eqn:E; [|exact IH].
    cbn [List.filter snd]. rewrite E, IH. reflexivity.
  - intros key value. unfold removeEmptyValues. rewrite filter_In.
    cbn [snd]. split; intros [Hin H]; (split; [exact Hin|]).
    + destruct value as [| |[|c s]|n]; cbn in H; try discriminate;
        repeat split; discriminate.
    + destruct H as (H1 & H2 & H3).
      destruct value as [| |[|c s]|n]; try reflexivity; congruence.
Qed.

(** ** Sorting and paging of the middleware *)

(** X5.  [parseSortParams] throws a TypeError exactly when the order of the
    query is an array or an object (a key that is repeated or written with
    brackets).  Otherwise, whatever the sort and the order are and whatever
    [toLowerCase] does, the sort column it returns is one of the allowed
    fields or the default, and the order is [asc] or [desc]. *)
Theorem parseSortParams_whitelist
    (toLowerCase : Js.jsstring -> Js.jsstring)
    (sort order : query_value) (allowedFields : list Js.jsstring)
    (defaultSort : Js.jsstring) :
  (order = Qv_nested <->
   parseSortParams toLowerCase sort order allowedFields defaultSort
   = inr TypeError)
  /\ (order <> Qv_nested ->
      exists r,
        parseSortParams toLowerCase sort order allowedFields defaultSort
        = inl r
        /\ (In (fst r) allowedFields \/ fst r = defaultSort)
        /\ (snd r = Js.lit "asc" \/ snd r = Js.lit "desc")).
Proof.
  split.
  - unfold parseSortParams. split.
    + intros ->. reflexivity.
    + destruct order; [discriminate|discriminate|reflexivity].
  - intros Hord.
    assert (Hsort : forall s',
              s' = match sort with
                   | Qv_text s =>
                       if (Js.present (Some s)
                           && existsb (Js.str_eqb s) allowedFields)%bool
                       then s else defaultSort
                   | Qv_absent | Qv_nested => defaultSort
                   end ->
              In s' allowedFields \/ s' = defaultSort).
    { intros s' ->. destruct sort as [|s|]; [right; reflexivity| |
                                              right; reflexivity].
      destruct (Js.present (Some s)); [|right; reflexivity]. cbn [andb].
      destruct (existsb _ allowedFields) eqn:E; [|right; reflexivity].
      left. apply existsb_exists in E. destruct E as (f & Hin & Heq).
      apply str_eqb_eq in Heq. rewrite Heq. exact Hin. }
    unfold parseSortParams. destruct order as [|o|]; [| |congruence].
    + eexists. split; [reflexivity|]. cbn [fst snd].
      split; [apply Hsort; reflexivity|right; reflexivity].
    + eexists. split; [reflexivity|]. cbn [fst snd].
      split; [apply Hsort; reflexivity|].
      destruct (Js.present (Some o)); [|right; reflexivity].
      cbn [andb existsb]. rewrite orb_false_r.
      destruct (Js.str_eqb (toLowerCase o) (Js.lit "asc")) eqn:E1.
      * left. apply str_eqb_eq. exact E1.
      * cbn [orb].
        destruct (Js.str_eqb (toLowerCase o) (Js.lit "desc")) eqn:E2;
          [|right; reflexivity].
        right. apply str_eqb_eq. exact E2.
Qed.

Lemma parseSortParams_whitelist_witness :
  exists r,
    parseSortParams (fun s => s) (Qv_text (Js.lit "price; DROP TABLE"))
      (Qv_text (Js.lit "asc")) [Js.lit "created_at"; Js.lit "updated_at"]
      (Js.lit "created_at") = inl r
    /\ (In (fst r) [Js.lit "created_at"; Js.lit "updated_at"]
        \/ fst r = Js.lit "created_at")
    /\ (snd r = Js.lit "asc" \/ snd r = Js.lit "desc").
Proof.
  apply (proj2 (parseSortParams_whitelist (fun s => s)
                  (Qv_text (Js.lit "price; DROP TABLE"))
                  (Qv_text (Js.lit "asc"))
                  [Js.lit "created_at"; Js.lit "updated_at"]
                  (Js.lit "created_at"))).
  discriminate.
Defined.

Lemma max_int (a b : Z) : Js.max (Js.int a) (Js.int b) = Js.int (Z.max a b).
Proof.
  unfold Js.max. change (Js.lt (Js.Fin (inject_Z a)) (Js.Fin (inject_Z b)))
    with (Js.lt (Js.int a) (Js.int b)).
  cbn [Js.int]. fold (Js.int a). fold (Js.int b). rewrite lt_int.
  destruct (a <? b) eqn:E.
  - apply Z.ltb_lt in E. rewrite Z.max_r by lia. reflexivity.
  - apply Z.ltb_ge in E. rewrite Z.max_l by lia. reflexivity.
Qed.

Lemma min_int (a b : Z) : Js.min (Js.int a) (Js.int b) = Js.int (Z.min a b).
Proof.
  unfold Js.min. cbn [Js.int]. fold (Js.int a). fold (Js.int b).
  rewrite lt_int.
  destruct (b <? a) eqn:E.
  - apply Z.ltb_lt in E. rewrite Z.min_r by lia. reflexivity.
  - apply Z.ltb_ge in E. rewrite Z.min_l by lia. reflexivity.
Qed.

Lemma sub_int (a b : Z) : Js.sub (Js.int a) (Js.int b) = Js.int (a - b).
Proof.
  unfold Js.sub, Js.neg, Js.add, Js.int. f_equal.
  rewrite <- (Qred_inject_Z (a - b)). apply Qred_complete.
  rewrite (Qred_correct (- inject_Z b)).
  unfold Z.sub. rewrite inject_Z_plus, inject_Z_opp. reflexivity.
Qed.

Lemma mul_int (a b : Z) : Js.mul (Js.int a) (Js.int b) = Js.int (a * b).
Proof.
  unfold Js.mul, Js.int. f_equal.
  rewrite <- (Qred_inject_Z (a * b)). apply Qred_complete.
  rewrite inject_Z_mult. reflexivity.
Qed.

Lemma truthy_int (z : Z) : Js.truthy (Js.int z) = negb (z =? 0).
Proof.
  unfold Js.truthy, Js.int, Qeq_bool, inject_Z. simpl.
  rewrite Z.mul_1_r. reflexivity.
Qed.

Lemma parseInt_or_default (x : option Js.jsstring) (d : Z) :
  d <> 0 ->
  exists z, z <> 0 /\ Js.or_else (Js.parseInt_opt x) (Js.int d) = Js.int z
            /\ (forall v, Js.parseInt_opt x = Js.int v -> v <> 0 -> z = v).
Proof.
  intros Hd. unfold Js.parseInt_opt, Js.parseInt, Js.or_else.
  destruct x as [s|]; [destruct (Js.parseInt_Z s) as [v|]|]; cbn [Js.of_option].
  - rewrite truthy_int. destruct (v =? 0) eqn:E; cbn [negb].
    + apply Z.eqb_eq in E. subst v. exists d. repeat split; auto.
      intros v Hv Hne. exfalso. apply Hne.
      unfold Js.int in Hv. injection Hv as Hv. symmetry. exact Hv.
    + apply Z.eqb_neq in E. exists v. repeat split; auto.
      intros v' Hv _. unfold Js.int in Hv. inversion Hv. lia.
  - exists d. repeat split; auto. intros v Hv. discriminate.
  - exists d. repeat split; auto. intros v Hv. discriminate.
Qed.

Lemma parseInt_or_default_within (b : Z) (x : option Js.jsstring) (d : Z) :
  reads_within b x = true -> Z.abs d <= b -> d <> 0 ->
  exists z, z <> 0 /\ Z.abs z <= b
            /\ Js.or_else (Js.parseInt_opt x) (Js.int d) = Js.int z.
Proof.
  intros Hx Hb Hd. unfold reads_within in Hx.
  unfold Js.parseInt_opt, Js.parseInt, Js.or_else.
  destruct x as [s|]; [destruct (Js.parseInt_Z s) as [v|]|]; cbn [Js.of_option].
  - apply Z.leb_le in Hx. rewrite truthy_int.
    destruct (v =? 0) eqn:E; cbn [negb].
    + exists d. repeat split; auto.
    + apply Z.eqb_neq in E. exists v. repeat split; auto.
  - exists d. repeat split; auto.
  - exists d. repeat split; auto.
Qed.

(** X6.  [parsePaginationParams] returns a limit that is an integer from 1 to
    100, whatever the query string holds.  For a page number that [parseInt]
    does not read or reads as at most 2^46 in magnitude (so that no step
    leaves the integers that a double holds exactly) it returns integers: a
    page of at least 1, that limit, and the offset (page - 1) * limit. *)
Theorem parsePaginationParams_bounds (page limit : option Js.jsstring) :
  (exists l, snd (fst (parsePaginationParams page limit)) = Js.int l
             /\ 1 <= l <= 100)
  /\ (reads_within (2 ^ 46) page = true ->
      exists p l,
        parsePaginationParams page limit
        = (Js.int p, Js.int l, Js.int ((p - 1) * l))
        /\ 1 <= p <= 2 ^ 46 /\ 1 <= l <= 100).
Proof.
  unfold parsePaginationParams.
  destruct (parseInt_or_default limit 20) as (l & _ & Hl & _); [lia|].
  rewrite Hl, max_int, min_int. cbn [fst snd]. split.
  - exists (Z.min 100 (Z.max 1 l)). split; [reflexivity|lia].
  - intros Hpage.
    destruct (parseInt_or_default_within (2 ^ 46) page 1 Hpage)
      as (p & _ & Hb & Hp); [lia|lia|].
    rewrite Hp, max_int, sub_int, mul_int.
    exists (Z.max 1 p), (Z.min 100 (Z.max 1 l)).
    split; [reflexivity|lia].
Qed.

Lemma parsePaginationParams_bounds_witness :
  exists p l,
    parsePaginationParams (Some (Js.lit "3")) (Some (Js.lit "500"))
    = (Js.int p, Js.int l, Js.int ((p - 1) * l))
    /\ 1 <= p <= 2 ^ 46 /\ 1 <= l <= 100.
Proof.
  apply (proj2 (parsePaginationParams_bounds (Some (Js.lit "3"))
                  (Some (Js.lit "500")))).
  reflexivity.
Defined.

Lemma int_inj (a b : Z) : Js.int a = Js.int b -> a = b.
Proof. unfold Js.int, inject_Z. intros H. injection H as H. exact H. Qed.

(** X7.  [paginationMiddleware] cuts the limit to [maxLimit] after the offset
    has been computed.  For a page number that [parseInt] does not read or
    reads as at most 2^46 in magnitude, the offset it attaches to the
    request is (page - 1) * limit for the limit of the query string (from 1
    to 100), and it is the offset of the attached page and limit only on the
    first page or when the limit asked for is within [maxLimit]. *)
Theorem middleware_offset_before_cap (maxLimit : Z)
                                     (page limit : option Js.jsstring) :
  reads_within (2 ^ 46) page = true ->
  exists p l,
    parsePaginationParams page limit
    = (Js.int p, Js.int l, Js.int ((p - 1) * l))
    /\ 1 <= p <= 2 ^ 46 /\ 1 <= l <= 100
    /\ middleware_pagination (Js.int maxLimit) page limit
       = {| rp_page := Js.int p;
            rp_limit := Js.int (Z.min l maxLimit);
            rp_offset := Js.int ((p - 1) * l) |}
    /\ (rp_offset (middleware_pagination (Js.int maxLimit) page limit)
        = Js.mul
            (Js.sub (rp_page (middleware_pagination (Js.int maxLimit) page limit))
                    (Js.int 1))
            (rp_limit (middleware_pagination (Js.int maxLimit) page limit))
        <-> p = 1 \/ l <= maxLimit).
Proof.
  intros Hpage.
  unfold middleware_pagination, parsePaginationParams.
  destruct (parseInt_or_default_within (2 ^ 46) page 1 Hpage)
    as (p & _ & Hb & Hp); [lia|lia|].
  destruct (parseInt_or_default limit 20) as (l & _ & Hl & _); [lia|].
  rewrite Hp, Hl, !max_int, !min_int, sub_int, mul_int.
  cbn [rp_page rp_limit rp_offset].
  exists (Z.max 1 p), (Z.min 100 (Z.max 1 l)).
  rewrite sub_int, mul_int.
  repeat split; try reflexivity; try lia.
  - intros H. apply int_inj in H. nia.
  - intros H. f_equal. nia.
Qed.

Lemma middleware_offset_before_cap_witness :
  middleware_pagination (Js.int 50) (Some (Js.lit "3")) (Some (Js.lit "80"))
  = {| rp_page := Js.int 3; rp_limit := Js.int 50;
       rp_offset := Js.int 160 |}.
Proof.
  destruct (middleware_offset_before_cap 50 (Some (Js.lit "3"))
              (Some (Js.lit "80")) eq_refl)
    as (p & l & Hparse & _ & _ & Hmw & _).
  vm_compute in Hparse. injection Hparse as Hp Hl. subst p l.
  exact Hmw.
Defined.

(** X8.  For a total of at least 0, a limit above 0 and any page number,
    [createPagination] reports the least number n of pages that hold the
    total, the page c nearest to the one asked for with 1 <= c (and c <= n
    unless the total is 0, where it reports page 1 of 0), the offset
    (c - 1) * limit, which lies below a total above 0, a next page exactly
    when c * limit < total and a previous page exactly when c > 1. *)
Theorem createPagination_spec (total page limit : Z) :
  0 <= total -> 0 < limit ->
  exists n c,
    createPagination (Js.int total) (Js.int page) (Js.int limit)
    = {| pi_total := Js.int total;
         pi_page := Js.int c;
         pi_limit := Js.int limit;
         pi_totalPages := Js.int n;
         pi_hasNext := (c * limit <? total);
         pi_hasPrev := (1 <? c);
         pi_offset := Js.int ((c - 1) * limit) |}
    /\ (n - 1) * limit < total <= n * limit
    /\ c = Z.max 1 (Z.min page n)
    /\ (0 < total -> 1 <= c <= n /\ (c - 1) * limit < total)
    /\ (total = 0 -> c = 1 /\ n = 0).
Proof.
  intros Ht Hl. unfold createPagination.
  rewrite ceil_div_int by assumption.
  rewrite min_int, max_int, sub_int, mul_int, lt_int, gt_int.
  set (n := - (- total / limit)).
  assert (Hn : (n - 1) * limit < total <= n * limit).
  { unfold n. pose proof (Z.mul_div_le (- total) limit Hl).
    pose proof (Z.mul_succ_div_gt (- total) limit Hl). nia. }
  exists n, (Z.max 1 (Z.min page n)).
  split; [|split; [exact Hn|split; [reflexivity|split]]].
  - f_equal. destruct (Z.max 1 (Z.min page n) <? n) eqn:E.
    + apply Z.ltb_lt in E. symmetry. apply Z.ltb_lt. nia.
    + apply Z.ltb_ge in E. symmetry. apply Z.ltb_ge. nia.
  - intros Hpos. assert (1 <= n) by nia. split; [lia|]. nia.
  - intros H0. subst total. assert (n = 0) by nia. lia.
Qed.

Lemma createPagination_spec_witness :
  exists n c,
    createPagination (Js.int 95) (Js.int 9) (Js.int 20)
    = {| pi_total := Js.int 95;
         pi_page := Js.int c;
         pi_limit := Js.int 20;
         pi_totalPages := Js.int n;
         pi_hasNext := (c * 20 <? 95);
         pi_hasPrev := (1 <? c);
         pi_offset := Js.int ((c - 1) * 20) |}
    /\ (n - 1) * 20 < 95 <= n * 20
    /\ c = Z.max 1 (Z.min 9 n)
    /\ (0 < 95 -> 1 <= c <= n /\ (c - 1) * 20 < 95)
    /\ (95 = 0 -> c = 1 /\ n = 0).
Proof. apply (createPagination_spec 95 9 20); lia. Defined.

(** ** The other routes *)

Lemma executeQuery_more_run {A} (q : statement_more A) (w : world) :
  executeQuery_more q w
  = if executeQuery_loaded w then
      if hd false (faults w) then
        (inl Failure, logged Log_database_query_error (next_call w))
      else
        match run_statement_more q (store w) with
        | Some (a, db') => (inl (Success a), set_store db' (next_call w))
        | None =>
            (inl Failure, logged Log_database_query_error (next_call w))
        end
    else (inr TypeError, w).
Proof.
  unfold executeQuery_more, executeQuery_more_impl, try_catch, bind,
    pool_execute_more, console_error, ret.
  destruct (executeQuery_loaded w); [|reflexivity].
  destruct (hd false (faults w)); [reflexivity|].
  destruct (run_statement_more q (store w)) as [[a db']|]; reflexivity.
Qed.

Lemma executeQuery_more_succeeds {A} (n : nat) (q : statement_more A)
                                 (w : world) :
  calls_succeed (S n) w = true ->
  executeQuery_more q w
  = match run_statement_more q (store w) with
    | Some (a, db') => (inl (Success a), set_store db' (next_call w))
    | None => (inl Failure, logged Log_database_query_error (next_call w))
    end
  /\ calls_succeed n (next_call w) = true.
Proof.
  intros H. apply calls_succeed_next in H. destruct H as (H1 & H2 & H3).
  rewrite executeQuery_more_run, H1, H2. split; [reflexivity|exact H3].
Qed.

(** *** Every request is answered *)

Section Answers.

Context {A : Type} (P : A -> Prop).

Lemma yields_ret (a : A) : P a -> yields P (ret a).
Proof. intros H w. exact H. Qed.

Lemma yields_throw (e : exn) : yields P (@throw A e).
Proof. intros w. exact I. Qed.

Lemma yields_bind {B} (m : M B) (k : B -> M A) :
  (forall b, yields P (k b)) -> yields P (bind m k).
Proof.
  intros Hk w. unfold bind. destruct (m w) as [[b|e] w'];
    [apply Hk|exact I].
Qed.

Lemma finishes_ret (a : A) : P a -> finishes P (ret a).
Proof. intros H w. exists a, w. split; [reflexivity|exact H]. Qed.

Lemma finishes_logged (l : log_line) (m : M A) :
  finishes P m -> finishes P (console_error l ;;; m).
Proof. intros H w. unfold bind, console_error. apply H. Qed.

Lemma finishes_try_catch (m : M A) (h : exn -> M A) :
  yields P m -> (forall e, finishes P (h e)) -> finishes P (try_catch m h).
Proof.
  intros Hm Hh w. unfold try_catch. specialize (Hm w).
  destruct (m w) as [[a|e] w']; [|apply Hh].
  exists a, w'. split; [reflexivity|exact Hm].
Qed.

End Answers.

Lemma finishes_then {A B} (P : A -> Prop) (Q : B -> Prop) (f : A -> B)
                    (m : M A) :
  finishes P m -> (forall a, P a -> Q (f a)) ->
  finishes Q (a <- m ;; ret (f a)).
Proof.
  intros Hm Hf w. destruct (Hm w) as (a & w' & E & Ha).
  exists (f a), w'. unfold bind. rewrite E. split; [reflexivity|].
  apply Hf, Ha.
Qed.

Ltac answers :=
  repeat first
    [ apply finishes_try_catch; [|intros ?]
    | apply finishes_logged
    | apply finishes_ret; cbn; tauto
    | apply yields_ret; cbn; tauto
    | apply yields_throw
    | apply yields_bind; intros ?
    | match goal with
      | |- yields _ (if ?c then _ else _) => destruct c
      | |- yields _ (match ?x with _ => _ end) => destruct x
      end ].

Lemma handle_answers (rt : runtime) (r : request) :
  finishes (fun resp => In (status resp) http_codes) (handle rt r).
Proof.
  destruct r; cbn [handle];
    unfold post_datban, put_datban, patch_datban, patch_status, respond;
    answers.
Qed.

(** X9.  Every handler of the router answers: whatever the request, the table
    and the faults of the storage - also when the data base module was not
    loaded - no exception leaves it, and the status code is 200, 201, 400,
    404 or 500. *)
Theorem every_request_is_answered (rt : runtime) (r : any_request)
                                  (w : world) :
  exists c w', handle_any rt r w = (inl c, w') /\ In c http_codes.
Proof.
  revert w. change (finishes (fun c => In c http_codes) (handle_any rt r)).
  destruct r as [r|q|id|id|ids|q]; cbn [handle_any].
  - apply (finishes_then (fun resp => In (status resp) http_codes));
      [apply handle_answers|auto].
  - apply (finishes_then (fun resp => In (status resp) http_codes)); [|auto].
    unfold get_datban, respond. answers.
  - apply (finishes_then (fun rep => In (code rep) http_codes)); [|auto].
    unfold get_datban_by_id, answer, answer_500. answers.
  - apply (finishes_then (fun rep => In (code rep) http_codes)); [|auto].
    unfold delete_datban, answer, answer_500. answers.
  - apply (finishes_then (fun rep => In (code rep) http_codes)); [|auto].
    unfold delete_bulk, answer, answer_500. answers.
  - apply (finishes_then (fun rep => In (code rep) http_codes)); [|auto].
    unfold get_availability, answer, answer_500. answers.
Qed.

(** *** Identifiers are not used twice *)

Lemma ids_increasing_filter (lo : Z) (f : dat_ban -> bool)
                            (l : list dat_ban) :
  ids_increasing lo l = true -> ids_increasing lo (List.filter f l) = true.
Proof.
  revert lo. induction l as [|x l IH]; intros lo H; [reflexivity|].
  cbn [ids_increasing] in H. apply andb_prop in H. destruct H as [H1 H2].
  cbn [List.filter]. destruct (f x).
  - cbn [ids_increasing]. rewrite H1, (IH _ H2). reflexivity.
  - apply IH. destruct l as [|y l]; [reflexivity|].
    cbn [ids_increasing] in *. apply andb_prop in H2. destruct H2 as [H2 H3].
    apply Z.ltb_lt in H1, H2. rewrite H3, andb_true_r. apply Z.ltb_lt. lia.
Qed.

Lemma wf_filter (db : database) (f : dat_ban -> bool) :
  wf_database db = true ->
  wf_database (with_rows (List.filter f (rows db)) db) = true.
Proof.
  intros H. destruct (wf_parts db H) as (H0 & H1 & H2).
  unfold wf_database, with_rows. cbn [rows auto_increment].
  rewrite !andb_true_iff. repeat split.
  - apply Z.ltb_lt, H0.
  - apply ids_increasing_filter, H1.
  - apply forallb_forall. intros r Hr. apply filter_In in Hr.
    apply Z.ltb_lt, H2, Hr.
Qed.

(** What one statement can do to the identifiers. *)
Lemma run_statement_ids {A} (q : statement A) (db db' : database) (a : A) :
  wf_database db = true ->
  run_statement q db = Some (a, db') ->
  auto_increment db <= auto_increment db'
  /\ forall r, In r (rows db') -> id_datban r < auto_increment db ->
       exists r0, In r0 (rows db) /\ id_datban r0 = id_datban r.
Proof.
  intros Hwf.
  assert (Hmap : forall id f,
             (forall r, id_datban (f r) = id_datban r) ->
             forall r, In r (update_where_id id f (rows db)) ->
             exists r0, In r0 (rows db) /\ id_datban r0 = id_datban r).
  { intros id f Hf r Hr. apply in_map_iff in Hr.
    destruct Hr as (r0 & <- & Hr0). exists r0. split; [exact Hr0|].
    destruct (id_datban r0 =? id); [symmetry; apply Hf|reflexivity]. }
  destruct q as [p d t ex|ten p em d t n note|id|ten p em d t n note st id
                |st id|u id|f|f lim off];
    cbn [run_statement]; intros H;
    repeat match type of H with
      | match ?x with _ => _ end = _ =>
          destruct x; try discriminate
      | (if ?c then _ else _) = _ => destruct c; try discriminate
      end;
    injection H as _ <-; cbn [rows auto_increment];
    (split; [lia|]); intros r Hr Hlt;
    try (exists r; split; [exact Hr|reflexivity]);
    try (eapply Hmap; [|exact Hr]; intros ?; reflexivity).
  apply in_app_or in Hr. destruct Hr as [Hr|[<-|[]]].
  - exists r. split; [exact Hr|reflexivity].
  - cbn [id_datban] in Hlt. lia.
Qed.

Lemma run_statement_more_ids {A} (q : statement_more A)
                             (db db' : database) (a : A) :
  wf_database db = true ->
  run_statement_more q db = Some (a, db') ->
  wf_database db' = true
  /\ auto_increment db <= auto_increment db'
  /\ forall r, In r (rows db') -> In r (rows db).
Proof.
  intros Hwf.
  destruct q as [id|ids|ids|d t]; cbn [run_statement_more]; intros H;
    try (destruct ids as [|i ids]; [discriminate|]);
    injection H as _ <-; cbn [with_rows rows auto_increment].
  - split; [apply (wf_filter db), Hwf|]. split; [lia|].
    intros r Hr. apply filter_In in Hr. apply Hr.
  - split; [exact Hwf|]. split; [lia|auto].
  - split; [apply (wf_filter db), Hwf|]. split; [lia|].
    intros r Hr. apply filter_In in Hr. apply Hr.
  - split; [exact Hwf|]. split; [lia|auto].
Qed.

Lemma keeps_executeQuery_more (Q : database -> Prop) {A}
                              (q : statement_more A) :
  (forall db a db', Q db -> run_statement_more q db = Some (a, db') -> Q db') ->
  keeps Q (executeQuery_more q).
Proof.
  intros Hq w H. rewrite executeQuery_more_run.
  destruct (executeQuery_loaded w); [|exact H].
  destruct (hd false (faults w)); [exact H|].
  destruct (run_statement_more q (store w)) as [[a db']|] eqn:E; [|exact H].
  apply (Hq _ _ _ H E).
Qed.

Lemma ids_kept_statement {A} (q : statement A) (db0 db db' : database)
                         (a : A) :
  ids_kept db0 db -> run_statement q db = Some (a, db') -> ids_kept db0 db'.
Proof.
  intros (Hwf & Hle & Hold) H.
  destruct (run_statement_ids q db db' a Hwf H) as (Hle' & Hold').
  split; [apply (run_statement_wf q db db' a Hwf H)|]. split; [lia|].
  intros r Hr Hlt. destruct (Hold' r Hr) as (r1 & Hr1 & E1); [lia|].
  destruct (Hold r1 Hr1) as (r0 & Hr0 & E0); [lia|].
  exists r0. split; [exact Hr0|lia].
Qed.

Lemma ids_kept_statement_more {A} (q : statement_more A)
                              (db0 db db' : database) (a : A) :
  ids_kept db0 db -> run_statement_more q db = Some (a, db') ->
  ids_kept db0 db'.
Proof.
  intros (Hwf & Hle & Hold) H.
  destruct (run_statement_more_ids q db db' a Hwf H) as (Hwf' & Hle' & Hsub).
  split; [exact Hwf'|]. split; [lia|].
  intros r Hr Hlt. apply (Hold r (Hsub r Hr) Hlt).
Qed.

Ltac keeps_with stmt stmt_more :=
  repeat first
    [ apply keeps_ret | apply keeps_throw | apply keeps_console_error
    | apply keeps_executeQuery; intros ? ? ? ? ?; eapply stmt; eassumption
    | apply keeps_executeQuery_more;
      intros ? ? ? ? ?; eapply stmt_more; eassumption
    | apply keeps_bind; [|intros ?]
    | apply keeps_try_catch; [|intros ?]
    | match goal with
      | |- keeps _ (if ?c then _ else _) => destruct c
      | |- keeps _ (match ?x with _ => _ end) => destruct x
      end ].

Lemma handle_any_keeps_ids (rt : runtime) (db0 : database) (r : any_request) :
  keeps (ids_kept db0) (handle_any rt r).
Proof.
  destruct r as [r|q|id|id|ids|q]; cbn [handle_any];
    [destruct r; cbn [handle]|..];
    unfold post_datban, put_datban, patch_datban, patch_status, get_datban,
      get_datban_by_id, delete_datban, delete_bulk, get_availability,
      checkDuplicateReservation, respond, first_row, bound, trim_field,
      answer, answer_500;
    keeps_with @ids_kept_statement @ids_kept_statement_more.
Qed.

(** X10.  Whatever requests the handlers of the router serve one after the
    other, and whatever the storage refuses on the way, the identifiers stay
    well formed, the AUTO_INCREMENT counter does not go back, and no
    identifier is used twice: an identifier below the counter that no row
    carries - that of a deleted reservation - is carried by no row
    afterwards. *)
Theorem identifiers_not_reused (rt : runtime) (reqs : list any_request)
                               (w : world) (id : Z) :
  wf_database (store w) = true ->
  let w' := after_any_requests rt reqs w in
  wf_database (store w') = true
  /\ auto_increment (store w) <= auto_increment (store w')
  /\ (id < auto_increment (store w) ->
      List.filter (fun r => id_datban r =? id) (rows (store w)) = [] ->
      List.filter (fun r => id_datban r =? id) (rows (store w')) = []).
Proof.
  intros Hwf w'.
  assert (H : ids_kept (store w) (store w')).
  { unfold w'. assert (H0 : ids_kept (store w) (store w)).
    { split; [exact Hwf|]. split; [lia|]. intros r Hr _. exists r. auto. }
    revert H0. generalize w at 2 4 as w1.
    induction reqs as [|r reqs IH]; intros w1 H1; [exact H1|].
    cbn [after_any_requests fold_left]. apply IH.
    apply (handle_any_keeps_ids rt (store w) r w1 H1). }
  destruct H as (Hwf' & Hle & Hold). split; [exact Hwf'|]. split; [exact Hle|].
  intros Hlt Hnone. apply filter_id_none. intros r Hr E.
  destruct (Hold r Hr) as (r0 & Hr0 & E0); [lia|].
  assert (Hin : In r0 (List.filter (fun r => id_datban r =? id)
                         (rows (store w)))).
  { apply filter_In. split; [exact Hr0|]. apply Z.eqb_eq. lia. }
  rewrite Hnone in Hin. destruct Hin.
Qed.

Lemma identifiers_not_reused_witness :
  let w := after_any_requests rt0
             [Writing (POST_datban tomorrow_19); Deleting (Js.lit "1")]
             empty_world in
  let w' := after_any_requests rt0 [Writing (POST_datban tomorrow_19)] w in
  List.filter (fun r => id_datban r =? 1) (rows (store w')) = []
  /\ List.map id_datban (rows (store w')) = [2].
Proof.
  intros w w'. split; [|reflexivity].
  apply (identifiers_not_reused rt0 [Writing (POST_datban tomorrow_19)] w 1);
    reflexivity.
Defined.

(** *** Reading and refusing change nothing *)

Lemma reads_ret {A} (a : A) : reads (ret a).
Proof. intros w. reflexivity. Qed.

Lemma reads_throw {A} (e : exn) : reads (@throw A e).
Proof. intros w. reflexivity. Qed.

Lemma reads_console_error (l : log_line) : reads (console_error l).
Proof. intros w. reflexivity. Qed.

Lemma reads_bind {A B} (m : M A) (k : A -> M B) :
  reads m -> (forall a, reads (k a)) -> reads (bind m k).
Proof.
  intros Hm Hk w. unfold bind. specialize (Hm w).
  destruct (m w) as [[a|e] w']; cbn [snd] in *; [rewrite Hk|]; exact Hm.
Qed.

Lemma reads_try_catch {A} (m : M A) (h : exn -> M A) :
  reads m -> (forall e, reads (h e)) -> reads (try_catch m h).
Proof.
  intros Hm Hh w. unfold try_catch. specialize (Hm w).
  destruct (m w) as [[a|e] w']; cbn [snd] in *; [|rewrite Hh]; exact Hm.
Qed.

Lemma reads_executeQuery {A} (q : statement A) :
  is_query q = true -> reads (executeQuery q).
Proof.
  intros Hq w. rewrite executeQuery_run.
  destruct (executeQuery_loaded w); [|reflexivity].
  destruct (hd false (faults w)); [reflexivity|].
  destruct q as [p d t ex|ten p em d t n note|id|ten p em d t n note st id
                |st id|u id|f|f lim off];
    try discriminate; cbn [run_statement]; try reflexivity.
  destruct (as_integer lim) as [lim'|]; [|reflexivity].
  destruct (as_integer off) as [off'|]; [|reflexivity].
  destruct ((lim' <? 0) || (off' <? 0)); reflexivity.
Qed.

Lemma reads_executeQuery_more {A} (q : statement_more A) :
  is_query_more q = true -> reads (executeQuery_more q).
Proof.
  intros Hq w. rewrite executeQuery_more_run.
  destruct (executeQuery_loaded w); [|reflexivity].
  destruct (hd false (faults w)); [reflexivity|].
  destruct q as [id|[|i ids]|ids|d t]; try discriminate; reflexivity.
Qed.

Ltac reads_only :=
  repeat first
    [ apply reads_ret | apply reads_throw | apply reads_console_error
    | apply reads_executeQuery; reflexivity
    | apply reads_executeQuery_more; reflexivity
    | apply reads_bind; [|intros ?]
    | apply reads_try_catch; [|intros ?]
    | match goal with
      | |- reads (if ?c then _ else _) => destruct c
      | |- reads (match ?x with _ => _ end) => destruct x
      end ].

Lemma checkDuplicateReservation_reads (p d t : Js.jsstring)
                                      (ex : option Z) :
  reads (checkDuplicateReservation p d t ex).
Proof. unfold checkDuplicateReservation. reads_only. Qed.

(** X11.  The list, the single reservation, the availability check and the
    conflict detector never write: whatever they answer, and whatever the
    storage refuses, the table is afterwards as it was before. *)
Theorem reading_routes_never_write (w : world) :
  (forall q, store (snd (get_datban q w)) = store w)
  /\ (forall id, store (snd (get_datban_by_id id w)) = store w)
  /\ (forall q, store (snd (get_availability q w)) = store w)
  /\ (forall p d t ex,
        store (snd (checkDuplicateReservation p d t ex w)) = store w).
Proof.
  repeat split; intros.
  - revert w. change (reads (get_datban q)).
    unfold get_datban, respond. reads_only.
  - revert w. change (reads (get_datban_by_id id)).
    unfold get_datban_by_id, answer, answer_500. reads_only.
  - revert w. change (reads (get_availability q)).
    unfold get_availability, answer, answer_500. reads_only.
  - apply checkDuplicateReservation_reads.
Qed.

Section Quiet.

Context {A : Type} (P : A -> Prop).

Lemma quiet_ret (a : A) : quiet P (ret a).
Proof. intros w. cbn. reflexivity. Qed.

Lemma quiet_throw (e : exn) : quiet P (@throw A e).
Proof. intros w. exact I. Qed.

Lemma quiet_after_read {B} (m : M B) (k : B -> M A) :
  reads m -> (forall b, quiet P (k b)) -> quiet P (bind m k).
Proof.
  intros Hm Hk w. unfold bind. specialize (Hm w).
  destruct (m w) as [[b|e] w']; cbn [snd] in *; [|exact I].
  specialize (Hk b w'). destruct (k b w') as [[a|e] w'']; cbn [fst snd] in *;
    [|exact I].
  intros Ha. rewrite (Hk Ha). exact Hm.
Qed.

Lemma quiet_after_write {B} (m : M B) (k : B -> M A) :
  (forall b, yields (fun a => ~ P a) (k b)) -> quiet P (bind m k).
Proof.
  intros Hk w. unfold bind. destruct (m w) as [[b|e] w']; [|exact I].
  specialize (Hk b w'). destruct (k b w') as [[a|e] w'']; cbn [fst snd] in *;
    [|exact I].
  intros Ha. destruct (Hk Ha).
Qed.

Lemma quiet_try_catch (m : M A) (h : exn -> M A) :
  quiet P m -> (forall e, finishes (fun a => ~ P a) (h e)) ->
  quiet P (try_catch m h).
Proof.
  intros Hm Hh w. unfold try_catch. specialize (Hm w).
  destruct (m w) as [[a|e] w']; cbn [fst snd] in *; [exact Hm|].
  destruct (Hh e w') as (a & w'' & E & Ha). rewrite E. cbn [fst].
  intros H. destruct (Ha H).
Qed.

End Quiet.

Lemma quiet_then {A} (f : A -> Z) (m : M A) :
  quiet (fun a => refusal (f a)) m -> quiet refusal (a <- m ;; ret (f a)).
Proof.
  intros Hm w. unfold bind, ret. specialize (Hm w).
  destruct (m w) as [[a|e] w']; cbn [fst snd] in *; [exact Hm|exact I].
Qed.

Ltac not_refusal := cbn; unfold refusal; intros [?|?]; discriminate.

Ltac refuses_quietly :=
  repeat first
    [ apply quiet_try_catch;
      [|intros ?; repeat apply finishes_logged; apply finishes_ret;
        not_refusal]
    | apply quiet_ret | apply quiet_throw
    | apply quiet_after_read;
      [solve [apply checkDuplicateReservation_reads | reads_only]
      |intros ?]
    | apply quiet_after_write; intros ?;
      repeat first
        [ apply yields_ret; not_refusal
        | apply yields_throw
        | apply yields_bind; intros ?
        | match goal with
          | |- yields _ (if ?c then _ else _) => destruct c
          | |- yields _ (match ?x with _ => _ end) => destruct x
          end ]
    | match goal with
      | |- quiet _ (if ?c then _ else _) => destruct c
      | |- quiet _ (match ?x with _ => _ end) => destruct x
      end ].

Lemma handle_quiet (rt : runtime) (r : request) :
  quiet (fun resp => refusal (status resp)) (handle rt r).
Proof.
  destruct r; cbn [handle];
    unfold post_datban, put_datban, patch_datban, patch_status, respond,
      bound, trim_field, first_row;
    refuses_quietly.
Qed.

(** X12.  A request that is answered 400 or 404 has changed nothing: every
    handler of the router writes to the table only on a path that ends in
    200, 201 or 500. *)
Theorem refused_requests_change_nothing (rt : runtime) (r : any_request)
                                        (w w' : world) (c : Z) :
  handle_any rt r w = (inl c, w') ->
  c = 400 \/ c = 404 ->
  store w' = store w.
Proof.
  intros Hrun Hc.
  assert (H : quiet refusal (handle_any rt r)).
  { destruct r as [r|q|id|id|ids|q]; cbn [handle_any].
    - apply (quiet_then status), handle_quiet.
    - apply (quiet_then status).
      unfold get_datban, respond. refuses_quietly.
    - apply (quiet_then code).
      unfold get_datban_by_id, answer, answer_500. refuses_quietly.
    - apply (quiet_then code).
      unfold delete_datban, answer, answer_500. refuses_quietly.
    - apply (quiet_then code).
      unfold delete_bulk, answer, answer_500. refuses_quietly.
    - apply (quiet_then code).
      unfold get_availability, answer, answer_500. refuses_quietly. }
  specialize (H w). rewrite Hrun in H. apply H. exact Hc.
Qed.

Lemma refused_requests_change_nothing_witness :
  store (snd (handle_any rt0 (Deleting (Js.lit "bulk")) booked_world))
  = store booked_world.
Proof.
  apply (refused_requests_change_nothing rt0 (Deleting (Js.lit "bulk"))
           booked_world _ 400).
  - reflexivity.
  - left. reflexivity.
Defined.

(** *** Deleting and looking up *)

Lemma other_rows (lo : Z) (l : list dat_ban) (r0 r : dat_ban) :
  ids_increasing lo l = true -> In r0 l ->
  In r (List.filter (fun x => negb (id_datban x =? id_datban r0)) l)
  <-> In r l /\ r <> r0.
Proof.
  intros Hinc H0. rewrite filter_In. split; intros [Hr H]; (split; [exact Hr|]).
  - intros ->. rewrite Z.eqb_refl in H. discriminate.
  - apply negb_true_iff, Z.eqb_neq. intros E. apply H.
    assert (Hin : In r (List.filter (fun x => id_datban x =? id_datban r0) l)).
    { apply filter_In. split; [exact Hr|]. apply Z.eqb_eq, E. }
    rewrite (filter_id_unique lo l r0 Hinc H0) in Hin.
    destruct Hin as [<-|[]]. reflexivity.
Qed.

(** X13.  Deleting an existing reservation, with the data access succeeding,
    answers 200 and removes that row and no other; the counter stays, and
    from then on looking the identifier up and deleting it again are
    answered 404, whether the storage answers or refuses. *)
Theorem delete_removes_one (id_param : Js.jsstring) (r0 : dat_ban)
                           (w : world) :
  Js.parseInt_Z id_param = Some (id_datban r0) ->
  wf_database (store w) = true ->
  calls_succeed 2 w = true ->
  In r0 (rows (store w)) ->
  exists w',
    delete_datban id_param w
    = (inl {| code := 200; reply_body := Content_message Note_deleted;
              errors_logged := [] |}, w')
    /\ (forall r, In r (rows (store w')) <-> In r (rows (store w)) /\ r <> r0)
    /\ List.length (rows (store w)) = S (List.length (rows (store w')))
    /\ auto_increment (store w') = auto_increment (store w)
    /\ forall w2, store w2 = store w' -> executeQuery_loaded w2 = true ->
         fst (get_datban_by_id id_param w2)
         = inl {| code := 404; reply_body := Content_failure Note_not_found;
                  errors_logged := [] |}
         /\ fst (delete_datban id_param w2)
            = inl {| code := 404; reply_body := Content_failure Note_not_found;
                     errors_logged := [] |}.
Proof.
  intros Hid Hwf Hc Hin.
  pose proof (wf_ids_increasing _ Hwf) as Hinc.
  pose proof (filter_id_unique 0 _ r0 Hinc Hin) as Hsel.
  unfold delete_datban at 1. rewrite Hid, try_catch_bind.
  destruct (executeQuery_succeeds 1 (Select_by_id (id_datban r0)) w Hc)
    as [-> Hc1].
  cbn [run_statement]. rewrite Hsel, try_catch_bind.
  set (w1 := set_store (store w) (next_call w)) in *.
  destruct (executeQuery_more_succeeds 0 (Delete_by_id (id_datban r0)) w1 Hc1)
    as [-> _].
  cbn [run_statement_more]. eexists. split; [reflexivity|].
  cbn [store set_store with_rows rows auto_increment next_call w1].
  split; [|split; [|split; [reflexivity|]]].
  - intros r. apply (other_rows 0); assumption.
  - rewrite <- (filter_length (fun r => id_datban r =? id_datban r0)
                  (rows (store w))), Hsel. reflexivity.
  - intros w2 Hst L.
    assert (Hnone : List.filter (fun r => id_datban r =? id_datban r0)
                      (rows (store w2)) = []).
    { rewrite Hst. cbn [store set_store with_rows rows].
      apply filter_id_none. intros r Hr. apply filter_In in Hr.
      destruct Hr as [_ Hr]. apply negb_true_iff, Z.eqb_neq in Hr. exact Hr. }
    unfold get_datban_by_id, delete_datban.
    rewrite Hid, !try_catch_bind, executeQuery_run, L.
    destruct (hd false (faults w2)); [split; reflexivity|].
    cbn [run_statement]. rewrite Hnone. split; reflexivity.
Qed.

Lemma delete_removes_one_witness :
  exists w',
    delete_datban (Js.lit "1") booked_world
    = (inl {| code := 200; reply_body := Content_message Note_deleted;
              errors_logged := [] |}, w')
    /\ rows (store w') = [].
Proof.
  destruct (delete_removes_one (Js.lit "1") booked_row booked_world
              eq_refl eq_refl eq_refl (or_introl eq_refl))
    as (w' & Hrun & _ & Hlen & _).
  exists w'. split; [exact Hrun|].
  destruct (rows (store w')); [reflexivity|discriminate].
Defined.

(** X14.  A request that names a reservation by an identifier that no row
    carries is answered 404 and changes nothing - for the full update
    before the body is looked at - and so is one whose look-up the storage
    refuses. *)
Theorem unknown_id_is_404 (rt : runtime) (id_param : Js.jsstring) (id : Z)
    (data : payload) (updates : patch) (st : trang_thai_t) (w : world) :
  Js.parseInt_Z id_param = Some id ->
  executeQuery_loaded w = true ->
  hd false (faults w) = true
  \/ List.filter (fun r => id_datban r =? id) (rows (store w)) = [] ->
  forall r,
    In r [Getting id_param; Deleting id_param;
          Writing (PUT_datban id_param data);
          Writing (PATCH_datban id_param updates);
          Writing (PATCH_status id_param (Some (trang_thai_name st)))] ->
    exists w', handle_any rt r w = (inl 404, w') /\ store w' = store w.
Proof.
  intros Hid L H r Hr.
  assert (Hlook : exists w1,
             store w1 = store w
             /\ (executeQuery (Select_by_id id) w = (inl Failure, w1)
                 \/ executeQuery (Select_by_id id) w = (inl (Success []), w1))).
  { rewrite executeQuery_run, L.
    destruct (hd false (faults w)).
    - eexists. split; [|left; reflexivity]. reflexivity.
    - destruct H as [H|H]; [discriminate|]. cbn [run_statement]. rewrite H.
      eexists. split; [|right; reflexivity]. reflexivity. }
  destruct Hlook as (w1 & Hst & Hlook). exists w1. split; [|exact Hst].
  cbn [In] in Hr.
  destruct Hr as [<-|[<-|[<-|[<-|[<-|[]]]]]]; cbn [handle_any handle];
    unfold bind at 1, get_datban_by_id, delete_datban, put_datban,
      patch_datban, patch_status;
    rewrite Hid, ?trang_thai_name_allowed, try_catch_bind;
    destruct Hlook as [-> | ->]; reflexivity.
Qed.

Lemma unknown_id_is_404_witness :
  exists w',
    handle_any rt0 (Writing (PUT_datban (Js.lit "7") tomorrow_19)) booked_world
    = (inl 404, w')
    /\ store w' = store booked_world.
Proof.
  apply (unknown_id_is_404 rt0 (Js.lit "7") 7 tomorrow_19
           {| u_ten_khach := None; u_sdt := None; u_email := None;
              u_ngay := None; u_gio := None; u_so_luong_khach := None;
              u_ghi_chu := None; u_trang_thai := None |}
           da_huy booked_world eq_refl eq_refl (or_intror eq_refl)).
  right. right. left. reflexivity.
Defined.

(** *** The full update and the status *)



(** *** Creating the same reservation twice *)

Lemma calls_succeed_fewer (n : nat) (w : world) :
  calls_succeed (S n) w = true -> calls_succeed n w = true.
Proof.
  unfold calls_succeed. intros H. apply andb_prop in H. destruct H as [H1 H2].
  rewrite H1. cbn [andb]. revert H2. generalize (faults w) as l.
  induction n as [|n IH]; intros l H; [reflexivity|].
  destruct l as [|f l]; [reflexivity|].
  cbn [firstn forallb] in *. apply andb_prop in H. destruct H as [Hf H].
  rewrite Hf, (IH _ H). reflexivity.
Qed.

(** A valid body for which the detector counts a reservation: 400. *)
Lemma post_refused (rt : runtime) (data : payload) (w : world)
                   (p d t : Js.jsstring) :
  validateReservationData rt data = [] ->
  p_sdt data = Some p -> p_ngay data = Some d -> p_gio data = Some t ->
  calls_succeed 1 w = true ->
  (0 <? duplicates_counted p d t None w) = true ->
  post_datban rt data w
  = (inl {| status := 400; json := Body_failure Msg_duplicate_create |},
     next_call w).
Proof.
  intros Hv Hp Hd Ht Hc Hdup.
  destruct (validated_present rt data Hv)
    as (ten & p' & d' & t' & g & H1 & H2 & H3 & H4 & H5 & _).
  rewrite (post_valid rt data w ten p' d' t' g Hv H1 H2 H3 H4 H5).
  rewrite Hp in H2. rewrite Hd in H3. rewrite Ht in H4.
  injection H2 as <-. injection H3 as <-. injection H4 as <-.
  destruct (calls_succeed_next 0 w Hc) as (L & F & _).
  rewrite checkDuplicateReservation_run, L, F, Hdup. reflexivity.
Qed.

(** A valid body for which the detector counts none, with the data access
    succeeding: the row is appended and returned with 201. *)
Lemma post_creates (rt : runtime) (data : payload) (w : world)
                   (p d t : Js.jsstring) :
  wf_database (store w) = true ->
  validateReservationData rt data = [] ->
  p_sdt data = Some p -> p_ngay data = Some d -> p_gio data = Some t ->
  calls_succeed 3 w = true ->
  (0 <? duplicates_counted p d t None w) = false ->
  exists row,
    id_datban row = auto_increment (store w)
    /\ sdt row = Js.trim p /\ ngay row = d /\ gio row = t
    /\ trang_thai row = cho_xac_nhan
    /\ post_datban rt data w
       = (inl {| status := 201;
                 json := Body_row Msg_created (Some row)
                           (Some (id_datban row)) |},
          set_store {| rows := rows (store w) ++ [row];
                       auto_increment := auto_increment (store w) + 1 |}
            (next_call (next_call (next_call w)))).
Proof.
  intros Hwf Hv Hp Hd Ht Hc Hdup.
  destruct (validated_present rt data Hv)
    as (ten & p' & d' & t' & g & H1 & H2 & H3 & H4 & H5 & _).
  rewrite (post_valid rt data w ten p' d' t' g Hv H1 H2 H3 H4 H5).
  rewrite Hp in H2. rewrite Hd in H3. rewrite Ht in H4.
  injection H2 as <-. injection H3 as <-. injection H4 as <-.
  destruct (calls_succeed_next 2 w Hc) as (L & F & Hc1).
  rewrite checkDuplicateReservation_run, L, F, Hdup. cbv zeta.
  rewrite try_catch_bind.
  match goal with
  | |- context [executeQuery ?q (next_call w)] =>
      destruct (executeQuery_succeeds 1 q (next_call w) Hc1) as [-> Hc2]
  end.
  cbn [run_statement]. rewrite as_integer_int. cbv beta iota.
  rewrite try_catch_bind.
  match goal with
  | |- context [executeQuery (Select_by_id ?i) ?w2] =>
      destruct (executeQuery_succeeds 0 (Select_by_id i) w2 Hc2) as [-> _]
  end.
  cbn [run_statement store set_store rows next_call].
  match goal with
  | |- context [rows (store w) ++ [?r]] =>
      rewrite (reread_inserted (store w) r Hwf eq_refl); exists r
  end.
  repeat split.
Qed.

(** X16.  The body of a create request that has been handled - answered 201, or
    400 for a conflict - is refused as a duplicate when it is sent again,
    provided the data access succeeds and the phone of the body has no white
    space at its ends. *)
Theorem repeated_create_is_refused (rt : runtime) (data : payload)
                                   (w : world) :
  wf_database (store w) = true ->
  validateReservationData rt data = [] ->
  phone_trimmed data = true ->
  calls_succeed 4 w = true ->
  exists r1 w1 w2,
    post_datban rt data w = (inl r1, w1)
    /\ (status r1 = 201 \/ status r1 = 400)
    /\ post_datban rt data w1
       = (inl {| status := 400; json := Body_failure Msg_duplicate_create |},
          w2)
    /\ rows (store w2) = rows (store w1).
Proof.
  intros Hwf Hv Htrim Hc.
  destruct (validated_present rt data Hv)
    as (ten & p & d & t & g & _ & Hp & Hd & Ht & _).
  pose proof (calls_succeed_fewer 3 w Hc) as Hc3.
  destruct (calls_succeed_next 3 w Hc) as (_ & _ & Hn1).
  destruct (0 <? duplicates_counted p d t None w) eqn:Hdup.
  - rewrite (post_refused rt data w p d t Hv Hp Hd Ht
               (calls_succeed_fewer 1 w
                  (calls_succeed_fewer 2 w Hc3)) Hdup).
    eexists. exists (next_call w). eexists.
    split; [reflexivity|]. split; [right; reflexivity|].
    split.
    { apply (post_refused rt data (next_call w) p d t Hv Hp Hd Ht);
        [|exact Hdup].
      apply calls_succeed_fewer, calls_succeed_fewer, Hn1. }
    reflexivity.
  - destruct (post_creates rt data w p d t Hwf Hv Hp Hd Ht Hc3 Hdup)
      as (row & R1 & R2 & R3 & R4 & R5 & ->).
    eexists. eexists. eexists.
    split; [reflexivity|]. split; [left; reflexivity|].
    split; [apply (post_refused rt data _ p d t Hv Hp Hd Ht)|reflexivity].
    + destruct (calls_succeed_next 2 _ Hn1) as (_ & _ & Hn2).
      destruct (calls_succeed_next 1 _ Hn2) as (_ & _ & Hn3).
      exact Hn3.
    + apply Z.ltb_lt. unfold duplicates_counted.
      cbn [excludeId_truthy store set_store rows].
      rewrite filter_app, length_app. cbn [List.filter].
      replace (duplicate_where p d t None row) with true; [cbn; lia|].
      symmetry. apply in_slot_iff.
      rewrite R2, R3, R4, (phone_trimmed_eq data p Htrim Hp).
      repeat split. unfold is_active. rewrite R5. reflexivity.
Qed.

Lemma repeated_create_is_refused_witness :
  exists r1 w1 w2,
    post_datban rt0 tomorrow_19 empty_world = (inl r1, w1)
    /\ (status r1 = 201 \/ status r1 = 400)
    /\ post_datban rt0 tomorrow_19 w1
       = (inl {| status := 400; json := Body_failure Msg_duplicate_create |},
          w2)
    /\ rows (store w2) = rows (store w1).
Proof.
  apply (repeated_create_is_refused rt0 tomorrow_19 empty_world);
    reflexivity.
Defined.

Lemma trimStart_length (s : Js.jsstring) :
  (List.length (Js.trimStart s) <= List.length s)%nat.
Proof.
  induction s as [|c s IH]; [apply le_n|].
  cbn [Js.trimStart]. destruct (Js.is_space c); cbn [List.length]; lia.
Qed.

Lemma trim_fixed (s : Js.jsstring) : Js.trim s = s -> Js.trimStart s = s.
Proof.
  intros H.
  assert (Hlen : (List.length s <= List.length (Js.trimStart s))%nat).
  { rewrite <- H at 1. unfold Js.trim, Js.trimEnd.
    rewrite length_rev.
    etransitivity; [apply trimStart_length|]. rewrite length_rev. lia. }
  destruct s as [|c s]; [reflexivity|].
  cbn [Js.trimStart] in *. destruct (Js.is_space c); [|reflexivity].
  pose proof (trimStart_length s). cbn [List.length] in Hlen. lia.
Qed.



(** *** Availability, deleting many, and the list *)








Lemma in_firstn_skipn {A} (n m : nat) (l : list A) (x : A) :
  In x (firstn n (skipn m l)) -> In x l.
Proof.
  intros H. rewrite <- (firstn_skipn m l). apply in_or_app. right.
  rewrite <- (firstn_skipn n (skipn m l)). apply in_or_app. left. exact H.
Qed.

Lemma list_numbers (q : list_query) :
  exists p l,
    p <> 0 /\ l <> 0
    /\ list_page q = Js.int p /\ list_limit q = Js.int l
    /\ list_offset q = Js.int ((p - 1) * l).
Proof.
  unfold list_offset, list_page, list_limit.
  destruct (parseInt_or_default (q_page q) 1) as (p & Hp0 & Hp & _); [lia|].
  destruct (parseInt_or_default (q_limit q) 20) as (l & Hl0 & Hl & _); [lia|].
  exists p, l. rewrite Hp, Hl, sub_int, mul_int. repeat split; assumption.
Qed.

Lemma filter_length_all {A} (f : A -> bool) (l : list A) :
  (List.length (List.filter f l) <= List.length l)%nat.
Proof.
  induction l as [|x l IH]; [apply le_n|].
  cbn [List.filter]. destruct (f x); cbn [List.length]; lia.
Qed.

(** X20.  The list route, for a query string that gives page, limit, status,
    date and phone at most once, and a page and a limit that [parseInt]
    does not read or reads as at most 2^26 in magnitude.  It reads a page
    number p and a limit l that are integers other than 0 (1 and 20 when
    the query string gives none, 0 or no number).  With the module loaded
    and the SELECT not refused by a fault: when both are positive the answer
    is 200 with at most l rows, each a row of the table, and with p and l in
    the pagination; the total is at most the number of rows of the table,
    and 0 when the count was refused; the table stays as it is.  When the
    page or the limit is negative the answer is 500. *)
Theorem list_outcomes (q : list_query) (w : world) :
  executeQuery_loaded w = true ->
  nth 1 (faults w) false = false ->
  reads_within (2 ^ 26) (q_page q) = true ->
  reads_within (2 ^ 26) (q_limit q) = true ->
  exists p l,
    p <> 0 /\ l <> 0
    /\ list_page q = Js.int p /\ list_limit q = Js.int l
    /\ (0 < p /\ 0 < l ->
        exists data total pages w',
          get_datban q w
          = (inl {| status := 200;
                    json := Body_list data
                              {| pg_page := Js.int p; pg_limit := Js.int l;
                                 pg_total := Js.int total;
                                 pg_pages := pages |} |}, w')
          /\ Z.of_nat (List.length data) <= l
          /\ (forall r, In r data -> In r (rows (store w)))
          /\ 0 <= total <= Z.of_nat (List.length (rows (store w)))
          /\ (hd false (faults w) = true -> total = 0)
          /\ store w' = store w)
    /\ (p < 0 \/ l < 0 ->
        fst (get_datban q w)
        = inl {| status := 500; json := Body_failure Msg_list_failed |}).
Proof.
  intros L F1 _ _.
  destruct (list_numbers q) as (p & l & Hp0 & Hl0 & Hp & Hl & Ho).
  exists p, l. do 4 (split; [assumption|]).
  assert (Hcount : exists result total w1,
             executeQuery (Count_list (list_filters q)) w
             = (inl result, w1)
             /\ store w1 = store w /\ executeQuery_loaded w1 = true
             /\ hd false (faults w1) = false
             /\ match result with
                | Success n => Js.int n
                | Failure => Js.int 0
                end = Js.int total
             /\ 0 <= total <= Z.of_nat (List.length (rows (store w)))
             /\ (hd false (faults w) = true -> total = 0)).
  { rewrite executeQuery_run, L.
    destruct (hd false (faults w)) eqn:F0; cbn [run_statement].
    - exists Failure, 0, (logged Log_database_query_error (next_call w)).
      split; [reflexivity|].
      cbn [store executeQuery_loaded faults logged next_call set_store].
      rewrite hd_tl_nth. repeat split; try assumption; try reflexivity; lia.
    - eexists. eexists. eexists. split; [reflexivity|].
      cbn [store executeQuery_loaded faults logged next_call set_store].
      rewrite hd_tl_nth. repeat split; try assumption; try reflexivity.
      + lia.
      + apply inj_le, filter_length_all.
      + discriminate. }
  destruct Hcount as (result & total & w1 & Hrun1 & Hst & L1 & F & Htotal
                      & Hrange & Hzero).
  unfold get_datban. rewrite try_catch_bind, Hrun1, try_catch_bind.
  rewrite executeQuery_run, L1, F, Hp, Hl, Ho, Htotal.
  cbn [run_statement]. rewrite !as_integer_int, Hst.
  split.
  - intros [Hpos Hlpos].
    replace ((l <? 0) || ((p - 1) * l <? 0))%bool with false
      by (symmetry; apply orb_false_iff; split; apply Z.ltb_ge; nia).
    eexists. exists total. eexists. eexists. split; [reflexivity|].
    split; [rewrite length_firstn; lia|].
    split.
    + intros r Hr. apply in_firstn_skipn in Hr.
      apply in_rev, filter_In in Hr. apply Hr.
    + split; [exact Hrange|]. split; [exact Hzero|].
      reflexivity.
  - intros Hneg.
    replace ((l <? 0) || ((p - 1) * l <? 0))%bool with true; [reflexivity|].
    symmetry. apply orb_true_iff.
    destruct (Z.ltb_spec l 0); [left; reflexivity|right].
    apply Z.ltb_lt. nia.
Qed.

Lemma list_outcomes_witness :
  fst (get_datban
         {| q_page := Some (Js.lit "-1"); q_limit := None; q_status := None;
            q_date := None; q_phone := None |} booked_world)
  = inl {| status := 500; json := Body_failure Msg_list_failed |}.
Proof.
  destruct (list_outcomes
              {| q_page := Some (Js.lit "-1"); q_limit := None;
                 q_status := None; q_date := None; q_phone := None |}
              booked_world eq_refl eq_refl eq_refl eq_refl)
    as (p & l & _ & _ & Hp & _ & _ & Hneg).
  apply Hneg. left. vm_compute in Hp. injection Hp as Hp. lia.
Defined.

(** ** The phone of the body *)

Lemma remove_spaces_nil (s : Js.jsstring) :
  Js.remove_class Js.is_space s = [] <-> forallb Js.is_space s = true.
Proof.
  unfold Js.remove_class. induction s as [|c s IH]; [split; reflexivity|].
  cbn [List.filter forallb]. destruct (Js.is_space c); cbn [negb andb].
  - exact IH.
  - split; discriminate.
Qed.

Lemma trim_spaces (s : Js.jsstring) :
  forallb Js.is_space s = true -> Js.trim s = [].
Proof.
  intros H. unfold Js.trim.
  assert (E : Js.trimStart s = []).
  { induction s as [|c s IH]; [reflexivity|].
    cbn [forallb] in H. apply andb_prop in H. destruct H as [H1 H2].
    cbn [Js.trimStart]. rewrite H1. apply IH, H2. }
  rewrite E. reflexivity.
Qed.

Lemma rev_spaces (n : nat) : rev (repeat 32%N n) = repeat 32%N n.
Proof.
  induction n as [|n IH]; [reflexivity|].
  cbn [repeat rev]. rewrite IH. symmetry. apply repeat_cons.
Qed.

Lemma drop_spaces_spaces (n : nat) (l : Js.jsstring) :
  drop_spaces (repeat 32%N n ++ l) = drop_spaces l.
Proof. induction n as [|n IH]; [reflexivity|exact IH]. Qed.

Lemma trimStart_spaces (n : nat) (l : Js.jsstring) :
  Js.trimStart (repeat 32%N n ++ l) = Js.trimStart l.
Proof. induction n as [|n IH]; [reflexivity|exact IH]. Qed.

Lemma pad_space_key_spaces (q : Js.jsstring) (n : nat) :
  pad_space_key (q ++ repeat 32%N n) = pad_space_key q.
Proof.
  unfold pad_space_key.
  rewrite rev_app_distr, rev_spaces, drop_spaces_spaces. reflexivity.
Qed.

Lemma trim_spaces_after (q : Js.jsstring) (n : nat) :
  Js.trim q = q -> Js.trim (q ++ repeat 32%N n) = q.
Proof.
  intros H. pose proof (trim_fixed q H) as Hs.
  destruct q as [|c q].
  - apply trim_spaces. cbn [app].
    induction n as [|n IH]; [reflexivity|exact IH].
  - assert (Hc : Js.is_space c = false).
    { cbn [Js.trimStart] in Hs. destruct (Js.is_space c); [|reflexivity].
      pose proof (trimStart_length q) as Hl. rewrite Hs in Hl.
      cbn [List.length] in Hl. lia. }
    unfold Js.trim in *. rewrite Hs in H.
    cbn [app Js.trimStart]. rewrite Hc.
    change (c :: q ++ repeat 32%N n) with ((c :: q) ++ repeat 32%N n).
    unfold Js.trimEnd in *.
    rewrite rev_app_distr, rev_spaces, trimStart_spaces. exact H.
Qed.

Lemma stored_keys_pads_space : pads_space stored_keys.
Proof. intros s n. apply pad_space_key_spaces. Qed.

(** Under a collation that ignores spaces at the end, a phone without white
    space before it and with nothing but spaces after it is stored as the
    phone that was checked. *)
Lemma spaces_after_phone_kept (K : column_keys) (data : payload)
                              (q : Js.jsstring) (n : nat) :
  pads_space K ->
  p_sdt data = Some (q ++ repeat 32%N n) -> Js.trim q = q ->
  phone_kept K data = true.
Proof.
  intros HK Hp Hq. unfold phone_kept. rewrite Hp.
  rewrite (trim_spaces_after q n Hq), HK.
  apply str_eqb_refl.
Qed.

Lemma phone_digits_iff (rt : runtime) (data : payload) :
  has_error E_phone_digits (validateReservationData rt data)
  = (let phone :=
       if Js.present (p_sdt data)
       then Js.remove_class Js.is_space (str_of (p_sdt data)) else [] in
     negb (Nat.eqb (List.length phone) 0) && negb (phone_regex phone))%bool.
Proof. errors_of_checks; reflexivity. Qed.

(** X21.  The validator raises neither of its two messages about the phone
    exactly when the phone is a non-empty string that, with its white space
    removed, is empty or 10 to 11 digits: a phone of white space only is
    accepted, and so is white space anywhere between the digits. *)
Theorem phone_accepted_iff (rt : runtime) (data : payload) :
  (has_error E_phone_required (validateReservationData rt data) = false
   /\ has_error E_phone_digits (validateReservationData rt data) = false)
  <-> exists s,
        p_sdt data = Some s /\ s <> []
        /\ (forallb Js.is_space s = true
            \/ phone_regex (Js.remove_class Js.is_space s) = true).
Proof.
  rewrite phone_required_iff, phone_digits_iff. cbv zeta.
  rewrite negb_false_iff. split.
  - intros [Hp Hd]. rewrite Hp in Hd.
    destruct (present_some _ Hp) as (s & Hs & Hne). exists s.
    split; [exact Hs|]. split; [exact Hne|].
    rewrite Hs in Hd. cbn [str_of] in Hd.
    apply andb_false_iff in Hd. destruct Hd as [Hd|Hd].
    + left. apply remove_spaces_nil. apply negb_false_iff, Nat.eqb_eq in Hd.
      destruct (Js.remove_class Js.is_space s); [reflexivity|discriminate].
    + right. apply negb_false_iff, Hd.
  - intros (s & Hs & Hne & H). rewrite Hs.
    assert (Hp : Js.present (Some s) = true)
      by (destruct s; [congruence|reflexivity]).
    rewrite Hp. split; [reflexivity|]. cbn [str_of].
    destruct H as [H|H].
    + apply remove_spaces_nil in H. rewrite H. reflexivity.
    + rewrite H. apply andb_false_r.
Qed.

Lemma phone_accepted_iff_witness :
  has_error E_phone_required (validateReservationData rt0 (with_phone "   "))
  = false
  /\ has_error E_phone_digits (validateReservationData rt0 (with_phone "   "))
     = false.
Proof.
  apply (proj2 (phone_accepted_iff rt0 (with_phone "   "))).
  exists (Js.lit "   "). split; [reflexivity|]. split; [discriminate|].
  left. reflexivity.
Defined.



(** ** The partial update *)



